(** * STM32 RGB matrix driver: a shallow embedding of [src/main.c]

    The driver bit-bangs a 32x32 RGB LED panel.  The C program is embedded
    as functions of a small state-and-error monad.  The scan functions run
    on a machine made of the three GPIO output data registers and a capture
    of what was done to them; [main] and the pattern generator run on the
    whole program state.  Integers are [Z]; the C operators [&], [|], [^],
    [<<], [%] are [Z.land], [Z.lor], [Z.lxor], [Z.shiftl], [Z.rem]; an
    array access outside the array and a division by zero fail. *)

From Stdlib Require Import ZArith Lia List Bool String.
From stdpp Require Import base option list.

Local Open Scope Z_scope.

(** ** Constants of [main.c] and of the HAL header *)

Definition MATRIX_WIDTH : Z := 32.
Definition MATRIX_HEIGHT : Z := 32.
(* #define MATRIX_SIZE MATRIX_WIDTH*MATRIX_HEIGHT *)
Definition MATRIX_SIZE : Z := MATRIX_WIDTH * MATRIX_HEIGHT.

(* const int waits[] = {10,20,40,80,160,320,640,1280}; *)
Definition waits : list Z := [10; 20; 40; 80; 160; 320; 640; 1280].
(* const int scan = MATRIX_HEIGHT/2; *)
Definition scan : Z := MATRIX_HEIGHT / 2.

(* GPIO_PIN_n of stm32f4xx_hal_gpio.h is the mask with bit n set. *)
Definition GPIO_PIN_0 : Z := 0x0001.
Definition GPIO_PIN_5 : Z := 0x0020.
Definition GPIO_PIN_6 : Z := 0x0040.
Definition GPIO_PIN_7 : Z := 0x0080.
Definition GPIO_PIN_8 : Z := 0x0100.
Definition GPIO_PIN_9 : Z := 0x0200.
Definition GPIO_PIN_10 : Z := 0x0400.

(** ** State and failure *)

Definition ST (S A : Type) : Type := S -> option (A * S).

#[global] Instance ST_ret {S} : MRet (ST S) := fun A a s => Some (a, s).
#[global] Instance ST_bind {S} : MBind (ST S) := fun A B f c s =>
  match c s with
  | Some (a, s') => f a s'
  | None => None
  end.

(** [for (int i = lo; i < hi; i++) body(i)] *)
Fixpoint for_ {S} (n : nat) (i : Z) (body : Z -> ST S unit) : ST S unit :=
  match n with
  | O => mret tt
  | S k => body i ;; for_ k (i + 1) body
  end.

Definition for_lt {S} (lo hi : Z) (body : Z -> ST S unit) : ST S unit :=
  for_ (Z.to_nat (hi - lo)) lo body.

(** [a[i]] and [a[i] = v] for a C array held as a list. *)
Definition load {S} (a : list Z) (i : Z) : ST S Z := fun s =>
  if 0 <=? i then
    match a !! Z.to_nat i with
    | Some v => Some (v, s)
    | None => None
    end
  else None.

Definition store (a : list Z) (i v : Z) : option (list Z) :=
  if (0 <=? i) && (i <? Z.of_nat (length a))
  then Some (<[Z.to_nat i := v]> a)
  else None.

(** A C condition: non-zero is true. *)
Definition nonzero (z : Z) : bool := negb (z =? 0).

(** Conversions to [uint8_t] and [uint32_t]. *)
Definition uint8 (z : Z) : Z := z mod 256.
Definition uint32 (z : Z) : Z := z mod 2 ^ 32.

(** ** The GPIO machine *)

Inductive port := PortA | PortB | PortC.

(** Output data registers of the three ports the driver writes. *)
Record gpio := { ODR_A : Z; ODR_B : Z; ODR_C : Z }.

Definition odr (p : port) (g : gpio) : Z :=
  match p with PortA => ODR_A g | PortB => ODR_B g | PortC => ODR_C g end.

Definition with_odr (p : port) (v : Z) (g : gpio) : gpio :=
  match p with
  | PortA => {| ODR_A := v; ODR_B := ODR_B g; ODR_C := ODR_C g |}
  | PortB => {| ODR_A := ODR_A g; ODR_B := v; ODR_C := ODR_C g |}
  | PortC => {| ODR_A := ODR_A g; ODR_B := ODR_B g; ODR_C := v |}
  end.

(** What the capture distinguishes: the two driver calls, the four macros
    and the [nop] of the hold loop. *)
Inductive event :=
| EvSetRow (row : Z)
| EvSetRGB (rgb1 rgb2 plane : Z)
| EvClkToggle
| EvStrobe
| EvDispOn
| EvNop
| EvDispOff.

(** One captured step: the event, the registers when it began and when
    it ended, and the registers as each register write of the step left
    them, oldest first. *)
Record entry := { ev : event; pre : gpio; post : gpio; during : list gpio }.

(** [trace] holds the capture newest first, [history] oldest first;
    [written] holds what the register writes of the step being captured
    have left so far, newest first. *)
Record machine := { pins : gpio; trace : list entry; written : list gpio }.

Definition history (m : machine) : list entry := rev (trace m).

Abbreviation M := (ST machine).

(** A register write: the registers become [g], which is noted in
    [written]. *)
Definition write (g : gpio) : M unit := fun m =>
  Some (tt, {| pins := g; trace := trace m; written := g :: written m |}).

(** [GPIOx->BSRRL = mask] sets the masked output bits, [GPIOx->BSRRH = mask]
    clears them, [GPIOx->ODR ^= mask] flips them. *)
Definition BSRRL (p : port) (mask : Z) : M unit := fun m =>
  write (with_odr p (Z.lor (odr p (pins m)) mask) (pins m)) m.

Definition BSRRH (p : port) (mask : Z) : M unit := fun m =>
  write (with_odr p (Z.ldiff (odr p (pins m)) mask) (pins m)) m.

Definition ODR_xor (p : port) (mask : Z) : M unit := fun m =>
  write (with_odr p (Z.lxor (odr p (pins m)) mask) (pins m)) m.

(** Runs [body] and captures it as one step, with the writes [body]
    made. *)
Definition logged (e : event) (body : M unit) : M unit := fun m =>
  match body {| pins := pins m; trace := trace m; written := [] |} with
  | Some (_, m') =>
      Some (tt, {| pins := pins m';
                   trace := {| ev := e; pre := pins m; post := pins m';
                               during := rev (written m') |} :: trace m';
                   written := written m |})
  | None => None
  end.

(** The machine [m] after one more captured step [e], which made the
    writes [ws] and left the registers at [g']. *)
Definition captured (e : event) (m : machine) (g' : gpio) (ws : list gpio)
    : machine :=
  {| pins := g';
     trace := {| ev := e; pre := pins m; post := g'; during := ws |}
                :: trace m;
     written := written m |}.

(** ** The macros *)

(* #define DISP_ON  GPIOB->BSRRH = GPIO_PIN_10; *)
Definition DISP_ON : M unit := logged EvDispOn (BSRRH PortB GPIO_PIN_10).
(* #define DISP_OFF GPIOB->BSRRL = GPIO_PIN_10; *)
Definition DISP_OFF : M unit := logged EvDispOff (BSRRL PortB GPIO_PIN_10).
(* #define CLK_TOGGLE GPIOC->ODR ^= (1 << 7); GPIOC->ODR ^= (1 << 7); *)
Definition CLK_TOGGLE : M unit :=
  logged EvClkToggle
    (ODR_xor PortC (Z.shiftl 1 7) ;; ODR_xor PortC (Z.shiftl 1 7)).
(* #define STROBE GPIOC->BSRRL = GPIO_PIN_0; GPIOC->BSRRH = GPIO_PIN_0; *)
Definition STROBE : M unit :=
  logged EvStrobe (BSRRL PortC GPIO_PIN_0 ;; BSRRH PortC GPIO_PIN_0).
(* asm("nop") *)
Definition NOP : M unit := logged EvNop (mret tt).

(** ** The scan functions *)

Definition setRow (row : Z) : M unit :=
  logged (EvSetRow row)
    ((if nonzero (Z.land row 1) then BSRRL PortB GPIO_PIN_5
      else BSRRH PortB GPIO_PIN_5) ;;
     (if nonzero (Z.land row 2) then BSRRL PortB GPIO_PIN_6
      else BSRRH PortB GPIO_PIN_6) ;;
     (if nonzero (Z.land row 4) then BSRRL PortB GPIO_PIN_8
      else BSRRH PortB GPIO_PIN_8) ;;
     (if nonzero (Z.land row 8) then BSRRL PortB GPIO_PIN_9
      else BSRRH PortB GPIO_PIN_9)).

Definition setRGB (rgb1 rgb2 plane : Z) : M unit :=
  logged (EvSetRGB rgb1 rgb2 plane)
    ((if nonzero (Z.land rgb1 (Z.shiftl 1 plane)) then BSRRL PortA GPIO_PIN_5
      else BSRRH PortA GPIO_PIN_5) ;;
     (if nonzero (Z.land rgb1 (Z.shiftl 1 (plane + 8)))
      then BSRRL PortA GPIO_PIN_6 else BSRRH PortA GPIO_PIN_6) ;;
     (if nonzero (Z.land rgb1 (Z.shiftl 1 (plane + 16)))
      then BSRRL PortA GPIO_PIN_7 else BSRRH PortA GPIO_PIN_7) ;;
     (if nonzero (Z.land rgb2 (Z.shiftl 1 plane)) then BSRRL PortA GPIO_PIN_8
      else BSRRH PortA GPIO_PIN_8) ;;
     (if nonzero (Z.land rgb2 (Z.shiftl 1 (plane + 8)))
      then BSRRL PortA GPIO_PIN_9 else BSRRH PortA GPIO_PIN_9) ;;
     (if nonzero (Z.land rgb2 (Z.shiftl 1 (plane + 16)))
      then BSRRL PortA GPIO_PIN_10 else BSRRH PortA GPIO_PIN_10)).

Definition showLine (amount : Z) : M unit :=
  STROBE ;;
  DISP_ON ;;
  for_lt 0 amount (fun _ => NOP) ;;
  DISP_OFF.

Definition displayBuffer (buffer : list Z) : M unit :=
  for_lt 0 scan (fun s =>
    setRow s ;;
    let offset1 := MATRIX_WIDTH * s in
    let offset2 := MATRIX_WIDTH * (s + scan) in
    for_lt 0 8 (fun plane =>
      for_lt 0 MATRIX_WIDTH (fun x =>
        rgb1 ← load buffer (offset1 + x);
        rgb2 ← load buffer (offset2 + x);
        setRGB rgb1 rgb2 (uint8 plane) ;;
        CLK_TOGGLE) ;;
      amount ← load waits plane;
      showLine amount)).

(** ** Reading the pins *)

Definition pin (mask : Z) (reg : Z) : bool := nonzero (Z.land reg mask).

(* Color data, port A *)
Definition r1 (g : gpio) : bool := pin GPIO_PIN_5 (ODR_A g).
Definition g1 (g : gpio) : bool := pin GPIO_PIN_6 (ODR_A g).
Definition b1 (g : gpio) : bool := pin GPIO_PIN_7 (ODR_A g).
Definition r2 (g : gpio) : bool := pin GPIO_PIN_8 (ODR_A g).
Definition g2 (g : gpio) : bool := pin GPIO_PIN_9 (ODR_A g).
Definition b2 (g : gpio) : bool := pin GPIO_PIN_10 (ODR_A g).
(* Address select, port B *)
Definition lineA (g : gpio) : bool := pin GPIO_PIN_5 (ODR_B g).
Definition lineB (g : gpio) : bool := pin GPIO_PIN_6 (ODR_B g).
Definition lineC (g : gpio) : bool := pin GPIO_PIN_8 (ODR_B g).
Definition lineD (g : gpio) : bool := pin GPIO_PIN_9 (ODR_B g).
(* Output enable is active low: DISP_ON clears the pin. *)
Definition display_enabled (g : gpio) : bool :=
  negb (pin GPIO_PIN_10 (ODR_B g)).

(** The row-pair index the panel's address decoder reads off the lines. *)
Definition decode_row (g : gpio) : Z :=
  Z.b2z (lineA g) + 2 * Z.b2z (lineB g) + 4 * Z.b2z (lineC g)
  + 8 * Z.b2z (lineD g).

(** ** The whole program state *)

(** What [main] asks for, as its journal records it. *)
Inductive call :=
| CallDisplay
| CallRandomize
| CallTransmit (msg : string) (size : Z).

Record world := {
  hw : machine;
  framebuffer : list Z;   (* uint32_t framebuffer[MATRIX_SIZE] *)
  gammaTable : list Z;    (* uint8_t gammaTable[256] *)
  counter : Z;            (* uint8_t counter *)
  entropy : nat -> Z;     (* what the coming calls of rand() return *)
  UartReady : bool;       (* SET is true, RESET is false *)
  journal : list call     (* newest first *)
}.

Definition set_hw (m : machine) (w : world) : world :=
  {| hw := m; framebuffer := framebuffer w; gammaTable := gammaTable w;
     counter := counter w; entropy := entropy w; UartReady := UartReady w;
     journal := journal w |}.
Definition set_framebuffer (fb : list Z) (w : world) : world :=
  {| hw := hw w; framebuffer := fb; gammaTable := gammaTable w;
     counter := counter w; entropy := entropy w; UartReady := UartReady w;
     journal := journal w |}.
Definition set_gammaTable (t : list Z) (w : world) : world :=
  {| hw := hw w; framebuffer := framebuffer w; gammaTable := t;
     counter := counter w; entropy := entropy w; UartReady := UartReady w;
     journal := journal w |}.
Definition set_counter (c : Z) (w : world) : world :=
  {| hw := hw w; framebuffer := framebuffer w; gammaTable := gammaTable w;
     counter := c; entropy := entropy w; UartReady := UartReady w;
     journal := journal w |}.
Definition set_entropy (r : nat -> Z) (w : world) : world :=
  {| hw := hw w; framebuffer := framebuffer w; gammaTable := gammaTable w;
     counter := counter w; entropy := r; UartReady := UartReady w;
     journal := journal w |}.
Definition set_UartReady (b : bool) (w : world) : world :=
  {| hw := hw w; framebuffer := framebuffer w; gammaTable := gammaTable w;
     counter := counter w; entropy := entropy w; UartReady := b;
     journal := journal w |}.
Definition set_journal (j : list call) (w : world) : world :=
  {| hw := hw w; framebuffer := framebuffer w; gammaTable := gammaTable w;
     counter := counter w; entropy := entropy w; UartReady := UartReady w;
     journal := j |}.

Abbreviation W := (ST world).

Definition update (f : world -> world) : W unit := fun w => Some (tt, f w).

(** Runs a scan function on the GPIO machine of the program. *)
Definition on_hw {A} (c : M A) : W A := fun w =>
  match c (hw w) with
  | Some (a, m') => Some (a, set_hw m' w)
  | None => None
  end.

(** Records the call in the journal, then performs it. *)
Definition called (c : call) (body : W unit) : W unit :=
  update (fun w => set_journal (c :: journal w) w) ;; body.

(** [rand()]: the next value of the stream. *)
Definition rand : W Z := fun w =>
  Some (entropy w 0%nat, set_entropy (fun n => entropy w (S n)) w).

(** [a % b] on [int]; the division by zero is the failure. *)
Definition rem_ {S} (a b : Z) : ST S Z := fun s =>
  if b =? 0 then None else Some (Z.rem a b, s).

Definition load_gamma (i : Z) : W Z := fun w => load (gammaTable w) i w.

Definition store_gamma (i v : Z) : W unit := fun w =>
  match store (gammaTable w) i v with
  | Some t => Some (tt, set_gammaTable t w)
  | None => None
  end.

Definition store_framebuffer (i v : Z) : W unit := fun w =>
  match store (framebuffer w) i v with
  | Some fb => Some (tt, set_framebuffer fb w)
  | None => None
  end.

(** ** The gamma table

    [gammaTable[i] = 255*pow((i/256.0),1.6)] stores the integer part of
    255 * (i/256)^(8/5) into a [uint8_t].  An integer [g] is at most that
    real number exactly when g^5 * 256^8 <= 255^5 * i^8, so the integer
    part is the largest such [g]; [gamma_floor] counts up to it.  For
    every i in 1..255 the real number is at least 1/256 away from the
    nearest integer, far more than the rounding of [pow] in double
    precision can move it, so the integer part is the one [main] stores. *)

Definition gamma_fits (g i : Z) : bool :=
  g ^ 5 * 256 ^ 8 <=? 255 ^ 5 * i ^ 8.

Fixpoint gamma_floor (fuel : nat) (g i : Z) : Z :=
  match fuel with
  | O => g
  | S k => if gamma_fits (g + 1) i then gamma_floor k (g + 1) i else g
  end.

Definition gamma_value (i : Z) : Z := uint8 (gamma_floor 255 0 i).

(** ** The pattern generator *)

(** The expression [gammaTable[rand() % max]]. *)
Definition gamma_sample (max : Z) : W Z :=
  r ← rand;
  i ← rem_ r max;
  load_gamma i.

(** [randomizeFramebuffer(framebuffer)]: its one caller passes the global
    array, which the function writes in place. *)
Definition randomizeFramebuffer : W unit :=
  update (fun w => set_counter (uint8 (counter w + 1)) w) ;;
  g ← (fun w => load_gamma (counter w) w);
  let max := if g =? 0 then 1 else g in
  for_lt 0 MATRIX_SIZE (fun i =>
    ca ← gamma_sample max;
    cb ← gamma_sample max;
    cc ← gamma_sample max;
    store_framebuffer i
      (uint32 (Z.lor (Z.lor (Z.lor 0x00 (Z.shiftl ca 0)) (Z.shiftl cb 8))
                 (Z.shiftl cc 16)))).

(** ** [main] *)

(** [HAL_UART_Transmit_IT] starts a transmission and returns; [main]
    ignores what it returns.  The journal records the request. *)
Definition HAL_UART_Transmit_IT (msg : string) (size : Z) : W unit :=
  update (fun w => set_journal (CallTransmit msg size :: journal w) w).

(** [while (UartReady != SET){}]: the flag is set by the interrupt
    callbacks only, and the loop is left only once it is set. *)
Definition wait_UartReady : W unit := update (set_UartReady true).

Definition uartAliveMsg : string := "200 frames passed".

(** Lines 89 to 107 of [main]: up to and including the test pattern.
    [initGPIO], [initUART] and the receive request configure hardware the
    model does not hold. *)
Definition main_init : W unit :=
  HAL_UART_Transmit_IT "RGB-matrix started" 18 ;;
  on_hw DISP_OFF ;;
  for_lt 0 256 (fun i => store_gamma i (gamma_value i)) ;;
  update (fun w =>
    set_framebuffer (replicate (length (framebuffer w)) 0) w) ;;
  store_framebuffer 0 0x00000050 ;;
  store_framebuffer 31 0x00005000 ;;
  store_framebuffer 992 0x00500000 ;;
  store_framebuffer 1023 0x00505000.

Definition display : W unit :=
  called CallDisplay (fun w => on_hw (displayBuffer (framebuffer w)) w).

(** Lines 110 to 112: the test pattern is shown for 500 frames. *)
Definition main_test_frames : W unit :=
  for_lt 0 500 (fun _ => display).

(** One turn of [while(1)], from the value of [frame] to its next.
    [frame] is an [int] in the program and an integer here: the two agree
    as long as it stays below 2^31, that is for the first 2^31 - 1 turns. *)
Definition main_iteration (frame : Z) : W Z :=
  display ;;
  let frame := frame + 1 in
  (if Z.rem frame 5 =? 0 then called CallRandomize randomizeFramebuffer
   else mret tt) ;;
  (if Z.rem frame 200 =? 0 then
     wait_UartReady ;;
     update (set_UartReady false) ;;
     HAL_UART_Transmit_IT uartAliveMsg 17
   else mret tt) ;;
  mret frame.

(** The first [n] turns of the loop. *)
Fixpoint main_loop (n : nat) (frame : Z) : W Z :=
  match n with
  | O => mret frame
  | S k => frame' ← main_iteration frame; main_loop k frame'
  end.

(** The program state when [main] starts: globals are zero, the pins at
    their reset level; [rnd] is what [rand()] is going to return. *)
Definition reset_gpio : gpio := {| ODR_A := 0; ODR_B := 0; ODR_C := 0 |}.

Definition boot (rnd : nat -> Z) : world :=
  {| hw := {| pins := reset_gpio; trace := []; written := [] |};
     framebuffer := replicate (Z.to_nat MATRIX_SIZE) 0;
     gammaTable := replicate 256 0;
     counter := 0;
     entropy := rnd;
     UartReady := false;
     journal := [] |}.

(** ** Pixels *)

Definition channelA (p : Z) : Z := Z.land p 0xFF.
Definition channelB (p : Z) : Z := Z.land (Z.shiftr p 8) 0xFF.
Definition channelC (p : Z) : Z := Z.land (Z.shiftr p 16) 0xFF.

Definition lit_channels (p : Z) : Z :=
  Z.b2z (nonzero (channelA p)) + Z.b2z (nonzero (channelB p))
  + Z.b2z (nonzero (channelC p)).

Definition pixel (buffer : list Z) (i : Z) : Z :=
  default 0 (buffer !! Z.to_nat i).

Definition corners : list Z := [0; 31; 992; 1023].

(** ** The scan pass as the specification words it

    Row-pairs ascending; per row-pair the address first; per plane the 32
    columns ascending, each followed by a clock pulse; then one latch
    pulse, display on, the hold, display off. *)

Fixpoint upto (lo : Z) (n : nat) : list Z :=
  match n with
  | O => []
  | S k => lo :: upto (lo + 1) k
  end.

Definition spec_column (buffer : list Z) (s plane x : Z) : list event :=
  [EvSetRGB (pixel buffer (32 * s + x)) (pixel buffer (32 * (s + 16) + x)) plane;
   EvClkToggle].

Definition spec_hold (amount : Z) : list event :=
  [EvStrobe; EvDispOn] ++ repeat EvNop (Z.to_nat amount) ++ [EvDispOff].

Definition spec_plane (buffer : list Z) (s plane : Z) : list event :=
  flat_map (spec_column buffer s plane) (upto 0 32)
    ++ spec_hold (pixel waits plane).

Definition spec_row (buffer : list Z) (s : Z) : list event :=
  EvSetRow s :: flat_map (spec_plane buffer s) (upto 0 8).

Definition spec_scan (buffer : list Z) : list event :=
  flat_map (spec_row buffer) (upto 0 16).

(** ** Measures on a capture *)

Definition is_setRow (e : event) : bool :=
  match e with EvSetRow _ => true | _ => false end.
Definition is_setRGB (e : event) : bool :=
  match e with EvSetRGB _ _ _ => true | _ => false end.
Definition is_strobe (e : event) : bool :=
  match e with EvStrobe => true | _ => false end.
Definition is_dispOn (e : event) : bool :=
  match e with EvDispOn => true | _ => false end.

Fixpoint count (p : event -> bool) (evs : list event) : Z :=
  match evs with
  | [] => 0
  | e :: t => (if p e then 1 else 0) + count p t
  end.

(** Durations of the hold intervals, oldest first: the number of [nop]s
    between a display-on and the display-off that ends it.  [cur] is the
    running count of the interval that is open, if one is. *)
Fixpoint holds (cur : option Z) (evs : list event) : list Z :=
  match evs with
  | [] => []
  | EvDispOn :: t => holds (Some 0) t
  | EvNop :: t => holds (option_map Z.succ cur) t
  | EvDispOff :: t =>
      match cur with
      | Some n => n :: holds None t
      | None => holds None t
      end
  | _ :: t => holds cur t
  end.

(** The event with the pixel values forgotten. *)
Definition shape (e : event) : event :=
  match e with
  | EvSetRGB _ _ plane => EvSetRGB 0 0 plane
  | _ => e
  end.

(** ** Measures on the journal *)

Definition is_randomize (c : call) : bool :=
  match c with CallRandomize => true | _ => false end.
Definition is_display (c : call) : bool :=
  match c with CallDisplay => true | _ => false end.
Definition is_heartbeat (c : call) : bool :=
  match c with
  | CallTransmit msg size => String.eqb msg uartAliveMsg && (size =? 17)
  | _ => false
  end.

Fixpoint count_calls (p : call -> bool) (j : list call) : Z :=
  match j with
  | [] => 0
  | c :: t => (if p c then 1 else 0) + count_calls p t
  end.

(** ** The state [main] keeps once it has started

    The table [main] built, a framebuffer of [MATRIX_SIZE] pixels, the
    counter within [uint8_t], and [rand()] never negative. *)

Definition gamma_built : list Z := map gamma_value (upto 0 256).

Definition started (w : world) : Prop :=
  length (framebuffer w) = 1024%nat /\
  gammaTable w = gamma_built /\
  0 <= counter w < 256 /\
  forall n, 0 <= entropy w n.

(** The ceiling [randomizeFramebuffer] computes for a counter value. *)
Definition ceiling (c : Z) : Z :=
  let g := pixel gamma_built c in if g =? 0 then 1 else g.

(** A pixel whose three channels are at most [max]. *)
Definition bounded_pixel (max p : Z) : Prop :=
  channelA p <= max /\ channelB p <= max /\ channelC p <= max.

(** The state inside the loop of [randomizeFramebuffer] entered from
    [w0], before pixel [i] is written. *)
Definition randomizing (w0 : world) (max i : Z) (w : world) : Prop :=
  hw w = hw w0 /\
  journal w = journal w0 /\
  counter w = counter w0 /\
  gammaTable w = gamma_built /\
  length (framebuffer w) = 1024%nat /\
  (forall n, 0 <= entropy w n) /\
  forall j, 0 <= j < i -> bounded_pixel max (pixel (framebuffer w) j).

(** What evaluation checks of entry [i] of the table: it is the integer
    part of 255 * (i/256)^1.6, at most [i] and at most 253, and not above
    the next entry. *)
Definition gamma_entry_ok (i : Z) : bool :=
  let g := pixel gamma_built i in
  (g =? gamma_value i) && (0 <=? g) && (g <=? i) && (g <=? 253)
  && gamma_fits g i && negb (gamma_fits (g + 1) i)
  && ((i =? 255) || (g <=? pixel gamma_built (i + 1))).

(** ** Triples *)

(** Running [c] from registers in [P] succeeds, appends to the capture
    steps whose events are [evs] and which all satisfy [E], and leaves the
    registers in [Q]. *)
Definition emits (E : entry -> Prop) (P : gpio -> Prop) (c : M unit)
    (evs : list event) (Q : gpio -> Prop) : Prop :=
  forall m, P (pins m) ->
    exists new m',
      c m = Some (tt, m') /\
      history m' = history m ++ new /\
      map ev new = evs /\
      Forall E new /\
      Q (pins m').

(** Running [c] from a state in [P] succeeds and ends in [Q]. *)
Definition total {S A} (P : S -> Prop) (c : ST S A) (Q : A -> S -> Prop)
    : Prop :=
  forall s, P s -> exists a s', c s = Some (a, s') /\ Q a s'.

(** Conditions on the registers: none, and display off. *)
Definition any_pins (g : gpio) : Prop := True.
Definition dark (g : gpio) : Prop := display_enabled g = false.

(** Properties of a captured step. *)
Definition addressing_or_shifting (e : event) : bool :=
  is_setRow e || is_setRGB e.

Definition blanked (x : entry) : Prop :=
  addressing_or_shifting (ev x) = true ->
  display_enabled (pre x) = false /\ display_enabled (post x) = false.

Definition drives_bits (x : entry) : Prop :=
  match ev x with
  | EvSetRGB rgb1 rgb2 plane =>
      0 <= plane < 8 ->
      r1 (post x) = Z.testbit rgb1 plane /\
      g1 (post x) = Z.testbit rgb1 (plane + 8) /\
      b1 (post x) = Z.testbit rgb1 (plane + 16) /\
      r2 (post x) = Z.testbit rgb2 plane /\
      g2 (post x) = Z.testbit rgb2 (plane + 8) /\
      b2 (post x) = Z.testbit rgb2 (plane + 16)
  | _ => True
  end.

(** The register after [if (b) GPIOx->BSRRL = mask; else GPIOx->BSRRH = mask;]. *)
Definition drive (b : bool) (reg mask : Z) : Z :=
  if b then Z.lor reg mask else Z.ldiff reg mask.

(** The captured column drives, oldest first. *)
Definition drives (t : list entry) : list entry :=
  List.filter (fun x => is_setRGB (ev x)) t.

(** The GPIO machine at reset, nothing captured yet. *)
Definition idle : machine :=
  {| pins := reset_gpio; trace := []; written := [] |}.

(** A framebuffer whose only lit pixel is (0,0), with channel A at 0x50. *)
Definition lone_pixel : list Z := <[0%nat := 0x50]> (replicate 1024 0).

(** What holds of the program state between the calls of [main] once the
    first [DISP_OFF] is done: the table and framebuffer are in place, the
    display is off, and every address or column step captured so far ran
    with the display off. *)
Definition running (w : world) : Prop :=
  started w /\
  dark (pins (hw w)) /\
  Forall blanked (history (hw w)).

(** [main] up to the end of the first [n] turns of its loop. *)
Definition main_run (n : nat) : W Z :=
  main_init ;; main_test_frames ;; main_loop n 0.

(** The program state [main] reaches before its first frame. *)
Definition initial_world (rnd : nat -> Z) : world :=
  match main_init (boot rnd) with
  | Some (_, w) => w
  | None => boot rnd
  end.

(** The GPIO machine with only the output-enable pin high. *)
Definition blank_machine : machine :=
  {| pins := {| ODR_A := 0; ODR_B := GPIO_PIN_10; ODR_C := 0 |};
     trace := []; written := [] |}.

(** ** Further measures on a capture *)

Definition is_clkToggle (e : event) : bool :=
  match e with EvClkToggle => true | _ => false end.
Definition is_nop (e : event) : bool :=
  match e with EvNop => true | _ => false end.

(** Every event in [p] is immediately followed by one in [q]. *)
Fixpoint each_followed (p q : event -> bool) (evs : list event) : bool :=
  match evs with
  | [] => true
  | e :: t =>
      (if p e then match t with e' :: _ => q e' | [] => false end else true)
      && each_followed p q t
  end.

(** Every event in [q] immediately follows one in [p]; [prev] tells
    whether the event before the list is in [p]. *)
Fixpoint each_preceded (p q : event -> bool) (prev : bool)
    (evs : list event) : bool :=
  match evs with
  | [] => true
  | e :: t => (if q e then prev else true) && each_preceded p q (p e) t
  end.

(** Each step of a capture begins with the registers as the step before
    it left them, from [g0] to [g']. *)
Fixpoint chained (g0 : gpio) (t : list entry) (g' : gpio) : Prop :=
  match t with
  | [] => g' = g0
  | x :: t' => pre x = g0 /\ chained (post x) t' g'
  end.

(** [emits] together with [chained]. *)
Definition flows (E : entry -> Prop) (P : gpio -> Prop) (c : M unit)
    (evs : list event) (Q : gpio -> Prop) : Prop :=
  forall m, P (pins m) ->
    exists new m',
      c m = Some (tt, m') /\
      history m' = history m ++ new /\
      map ev new = evs /\
      Forall E new /\
      chained (pins m) new (pins m') /\
      Q (pins m').

(** A command that fails whatever the state. *)
Definition always_fails {S A} (c : ST S A) : Prop := forall s, c s = None.

(** The address lines follow the capture: a [setRow] leaves them reading
    its argument, and every later step finds and leaves them reading the
    argument of the last [setRow] ([cur], if there was one). *)
Fixpoint addressed (cur : option Z) (t : list entry) : Prop :=
  match t with
  | [] => True
  | x :: t' =>
      match ev x with
      | EvSetRow r => decode_row (post x) = r /\ addressed (Some r) t'
      | _ =>
          match cur with
          | Some r => decode_row (pre x) = r /\ decode_row (post x) = r
          | None => True
          end /\ addressed cur t'
      end
  end.

(** What one step does to the address lines. *)
Definition keeps_address (x : entry) : Prop :=
  match ev x with
  | EvSetRow r => decode_row (post x) = r
  | _ => decode_row (post x) = decode_row (pre x)
  end.

(** A [nop] of the hold loop runs with the display enabled. *)
Definition nop_shown (x : entry) : Prop :=
  is_nop (ev x) = true ->
  display_enabled (pre x) = true /\ display_enabled (post x) = true.

Definition shown (g : gpio) : Prop := display_enabled g = true.

(** The latch line, PC0. *)
Definition latch (g : gpio) : bool := pin GPIO_PIN_0 (ODR_C g).

(** The registers [g'] have the latch line and output enable as [g] has
    them. *)
Definition lines_as (g g' : gpio) : Prop :=
  latch g' = latch g /\ display_enabled g' = display_enabled g.

(** What a step does to the latch line and to output enable, register
    write by register write.  A step ends with the registers as its last
    write left them.  A latch pulse is two writes: the first raises PC0,
    the second lowers it, and neither moves output enable.  Display-on and
    display-off are one write each, which enables or disables the display
    and leaves the latch line alone.  A [nop] writes nothing and runs with
    the display enabled.  No write of any other step moves either line. *)
Definition line_levels (x : entry) : Prop :=
  post x = List.last (during x) (pre x) /\
  match ev x with
  | EvStrobe =>
      exists up,
        during x = [up; post x] /\
        latch up = true /\ latch (post x) = false /\
        display_enabled up = display_enabled (pre x) /\
        display_enabled (post x) = display_enabled (pre x)
  | EvDispOn =>
      during x = [post x] /\
      display_enabled (post x) = true /\ latch (post x) = latch (pre x)
  | EvDispOff =>
      during x = [post x] /\
      display_enabled (post x) = false /\ latch (post x) = latch (pre x)
  | EvNop => during x = [] /\ display_enabled (pre x) = true
  | _ => Forall (lines_as (pre x)) (during x)
  end.

(** The last step of a capture whose event is in [p], and the last event
    of a list in [p]. *)
Fixpoint last_where (p : event -> bool) (found : option entry)
    (t : list entry) : option entry :=
  match t with
  | [] => found
  | x :: t' => last_where p (if p (ev x) then Some x else found) t'
  end.

Fixpoint last_event (p : event -> bool) (found : option event)
    (evs : list event) : option event :=
  match evs with
  | [] => found
  | e :: t => last_event p (if p e then Some e else found) t
  end.

(** ** Exposure

    Channel [c] (0, 1, 2) of a pixel, the color line that carries it for
    the top or the bottom half, and the bit of it [setRGB] is asked to
    drive. *)
Definition channel (c p : Z) : Z := Z.land (Z.shiftr p (8 * c)) 0xFF.

Definition color_line (top : bool) (c : Z) (g : gpio) : bool :=
  if top then (if c =? 0 then r1 g else if c =? 1 then g1 g else b1 g)
  else (if c =? 0 then r2 g else if c =? 1 then g2 g else b2 g).

Definition color_bit (top : bool) (c : Z) (e : event) : bool :=
  match e with
  | EvSetRGB rgb1 rgb2 plane =>
      Z.testbit (if top then rgb1 else rgb2) (plane + 8 * c)
  | _ => false
  end.

(** A meter on one LED, the one of column [col] in row-pair [s] on a given
    color line.  It follows the capture: [at_row] after a [setRow s];
    [seen] counts the column drives of the plane being shifted in; [lit]
    is the level on the line at the drive of column [col], which is what
    the latch presents at that column; [ticks] counts the [nop]s since
    display-on; at display-off the hold is added to [exposed] if the LED
    was lit. *)
Record meter := {
  at_row : bool; seen : nat; lit : bool; ticks : Z; exposed : Z
}.

Definition meter_step {A} (kind : A -> event) (level : A -> bool)
    (s : Z) (col : nat) (st : meter) (a : A) : meter :=
  match kind a with
  | EvSetRow r =>
      {| at_row := r =? s; seen := 0; lit := false; ticks := ticks st;
         exposed := exposed st |}
  | EvSetRGB _ _ _ =>
      {| at_row := at_row st; seen := S (seen st);
         lit := if at_row st && Nat.eqb (seen st) col then level a
                else lit st;
         ticks := ticks st; exposed := exposed st |}
  | EvDispOn =>
      {| at_row := at_row st; seen := seen st; lit := lit st; ticks := 0;
         exposed := exposed st |}
  | EvNop =>
      {| at_row := at_row st; seen := seen st; lit := lit st;
         ticks := ticks st + 1; exposed := exposed st |}
  | EvDispOff =>
      {| at_row := at_row st; seen := 0; lit := false; ticks := ticks st;
         exposed := exposed st + (if lit st then ticks st else 0) |}
  | _ => st
  end.

Definition meter0 : meter :=
  {| at_row := false; seen := 0; lit := false; ticks := 0; exposed := 0 |}.

(** The number of [nop]s of a capture during which the LED is lit. *)
Definition exposure (top : bool) (c : Z) (s : Z) (col : nat)
    (t : list entry) : Z :=
  exposed (fold_left (meter_step ev (fun x => color_line top c (post x)) s col)
             t meter0).

(** What a column drive leaves on the six lines. *)
Definition drives_lines (x : entry) : Prop :=
  match ev x with
  | EvSetRGB rgb1 rgb2 plane =>
      r1 (post x) = Z.testbit rgb1 plane /\
      g1 (post x) = Z.testbit rgb1 (plane + 8) /\
      b1 (post x) = Z.testbit rgb1 (plane + 16) /\
      r2 (post x) = Z.testbit rgb2 plane /\
      g2 (post x) = Z.testbit rgb2 (plane + 8) /\
      b2 (post x) = Z.testbit rgb2 (plane + 16)
  | _ => True
  end.

(** What a step of the scan does to the registers, by its event. *)
Definition scan_step (x : entry) : Prop :=
  keeps_address x /\
  nop_shown x /\
  drives_lines x /\
  (is_setRGB (ev x) = false -> ODR_A (post x) = ODR_A (pre x)) /\
  (ev x = EvDispOff -> display_enabled (post x) = false).

(** ** Further states of the pattern generator *)

(** A pixel packed from three table entries at indices below [max]. *)
Definition sampled (max p : Z) : Prop :=
  exists ja jb jc,
    0 <= ja < max /\ 0 <= jb < max /\ 0 <= jc < max /\
    p = pixel gamma_built ja + 256 * pixel gamma_built jb
        + 65536 * pixel gamma_built jc.

(** Inside the loop of [randomizeFramebuffer] entered from [w0], before
    pixel [i] is written: nothing but the framebuffer and the stream has
    changed, three values of the stream were taken per pixel written, and
    the pixels written are [sampled]. *)
Definition sampling (w0 : world) (max i : Z) (w : world) : Prop :=
  hw w = hw w0 /\
  journal w = journal w0 /\
  UartReady w = UartReady w0 /\
  counter w = counter w0 /\
  gammaTable w = gamma_built /\
  length (framebuffer w) = 1024%nat /\
  (forall n, entropy w n = entropy w0 (Z.to_nat (3 * i) + n)%nat) /\
  (forall n, 0 <= entropy w0 n) /\
  forall j, 0 <= j < i -> sampled max (pixel (framebuffer w) j).

(** [n] calls of [randomizeFramebuffer] in a row. *)
Fixpoint randomize_times (n : nat) : W unit :=
  match n with
  | O => mret tt
  | S k => randomizeFramebuffer ;; randomize_times k
  end.

(** * Proofs *)

(** ** Bits *)

Lemma land_pow2_testbit a n :
  0 <= n -> nonzero (Z.land a (2 ^ n)) = Z.testbit a n.
Proof.
  intros Hn. unfold nonzero.
  destruct (Z.testbit a n) eqn:Hb.
  - destruct (Z.eqb_spec (Z.land a (2 ^ n)) 0) as [H0|]; [|reflexivity].
    exfalso. assert (Hc : Z.testbit (Z.land a (2 ^ n)) n = true).
    { rewrite Z.land_spec, Hb, Z.pow2_bits_true; auto. }
    rewrite H0, Z.bits_0 in Hc. discriminate.
  - replace (Z.land a (2 ^ n)) with 0; [reflexivity|].
    symmetry. apply Z.bits_inj'. intros k Hk.
    rewrite Z.land_spec, Z.bits_0, Z.pow2_bits_eqb by assumption.
    destruct (Z.eqb_spec n k); [subst; now rewrite Hb | apply andb_false_r].
Qed.

Lemma land_shiftl1_testbit a n :
  0 <= n -> nonzero (Z.land a (Z.shiftl 1 n)) = Z.testbit a n.
Proof. intros Hn. rewrite Z.shiftl_1_l. now apply land_pow2_testbit. Qed.

Lemma pin_testbit n reg : 0 <= n -> pin (2 ^ n) reg = Z.testbit reg n.
Proof. intros Hn. unfold pin. now apply land_pow2_testbit. Qed.

Lemma testbit_set reg n k :
  0 <= n -> 0 <= k ->
  Z.testbit (Z.lor reg (2 ^ n)) k = Z.testbit reg k || (n =? k).
Proof. intros Hn Hk. now rewrite Z.lor_spec, Z.pow2_bits_eqb. Qed.

Lemma testbit_clear reg n k :
  0 <= n -> 0 <= k ->
  Z.testbit (Z.ldiff reg (2 ^ n)) k = Z.testbit reg k && negb (n =? k).
Proof. intros Hn Hk. now rewrite Z.ldiff_spec, Z.pow2_bits_eqb. Qed.

(** ** Rules for the capture *)

Section Capture.

Variable E : entry -> Prop.

Lemma emits_ret P : emits E P (mret tt) [] P.
Proof.
  intros m Hm. exists [], m. rewrite app_nil_r. repeat split; auto.
Qed.

Lemma emits_seq P Q R c1 c2 e1 e2 :
  emits E P c1 e1 Q -> emits E Q c2 e2 R -> emits E P (c1 ;; c2) (e1 ++ e2) R.
Proof.
  intros H1 H2 m Hm.
  destruct (H1 m Hm) as (n1 & m1 & Hr1 & Hh1 & He1 & HE1 & HQ).
  destruct (H2 m1 HQ) as (n2 & m2 & Hr2 & Hh2 & He2 & HE2 & HR).
  exists (n1 ++ n2), m2. repeat split; auto.
  - unfold mbind, ST_bind. now rewrite Hr1.
  - now rewrite Hh2, Hh1, app_assoc.
  - now rewrite map_app, He1, He2.
  - apply Forall_app; auto.
Qed.

Lemma emits_load P Q (a : list Z) i v (k : Z -> M unit) evs :
  0 <= i -> a !! Z.to_nat i = Some v ->
  emits E P (k v) evs Q -> emits E P (load a i ≫= k) evs Q.
Proof.
  intros Hi Hv Hk m Hm. unfold mbind, ST_bind, load.
  destruct (Z.leb_spec 0 i) as [_|]; [|lia]. rewrite Hv. now apply Hk.
Qed.

Lemma emits_for P body f n : forall lo,
  (forall i, lo <= i < lo + Z.of_nat n -> emits E P (body i) (f i) P) ->
  emits E P (for_ n lo body) (flat_map f (upto lo n)) P.
Proof.
  induction n as [|n IH]; intros lo Hb; simpl.
  - apply emits_ret.
  - apply emits_seq with (Q := P).
    + apply Hb. lia.
    + apply IH. intros i Hi. apply Hb. lia.
Qed.

Lemma emits_for_lt P body f lo hi :
  (forall i, lo <= i < hi -> emits E P (body i) (f i) P) ->
  emits E P (for_lt lo hi body) (flat_map f (upto lo (Z.to_nat (hi - lo)))) P.
Proof.
  intros Hb. apply emits_for. intros i Hi. apply Hb. lia.
Qed.

Lemma emits_step (P Q : gpio -> Prop) (c : M unit) e :
  (forall m, P (pins m) ->
     exists g' ws,
       c m = Some (tt, captured e m g' ws) /\
       E {| ev := e; pre := pins m; post := g'; during := ws |} /\ Q g') ->
  emits E P c [e] Q.
Proof.
  intros H m Hm. destruct (H m Hm) as (g' & ws & Hr & HE & HQ).
  exists [{| ev := e; pre := pins m; post := g'; during := ws |}]. eexists.
  split; [exact Hr|]. repeat split; auto.
Qed.

Lemma flat_map_nop n : forall lo,
  flat_map (fun _ : Z => [EvNop]) (upto lo n) = repeat EvNop n.
Proof. induction n as [|n IH]; intros lo; simpl; [|rewrite IH]; auto. Qed.

(** What the scan needs of the two calls and the macros: outside a hold
    [I] holds of the registers, inside one [J]. *)
Variables I J : gpio -> Prop.
Hypothesis setRow_emits :
  forall s, 0 <= s < 16 -> emits E I (setRow s) [EvSetRow s] I.
Hypothesis setRGB_emits :
  forall rgb1 rgb2 plane, 0 <= plane < 8 ->
    emits E I (setRGB rgb1 rgb2 plane) [EvSetRGB rgb1 rgb2 plane] I.
Hypothesis CLK_TOGGLE_emits : emits E I CLK_TOGGLE [EvClkToggle] I.
Hypothesis STROBE_emits : emits E I STROBE [EvStrobe] I.
Hypothesis DISP_ON_emits : emits E I DISP_ON [EvDispOn] J.
Hypothesis NOP_emits : emits E J NOP [EvNop] J.
Hypothesis DISP_OFF_emits : emits E J DISP_OFF [EvDispOff] I.

Lemma showLine_emits amount :
  emits E I (showLine amount) (spec_hold amount) I.
Proof.
  unfold showLine, spec_hold.
  change [EvStrobe; EvDispOn] with ([EvStrobe] ++ [EvDispOn]).
  rewrite <- app_assoc.
  apply emits_seq with (Q := I); [apply STROBE_emits|].
  apply emits_seq with (Q := J); [apply DISP_ON_emits|].
  apply emits_seq with (Q := J); [|apply DISP_OFF_emits].
  rewrite <- (flat_map_nop (Z.to_nat amount) 0).
  replace (Z.to_nat amount) with (Z.to_nat (amount - 0)) by (f_equal; lia).
  apply emits_for_lt. intros _ _. apply NOP_emits.
Qed.

Lemma pixel_lookup (a : list Z) i :
  0 <= i < Z.of_nat (length a) -> a !! Z.to_nat i = Some (pixel a i).
Proof.
  intros Hi. unfold pixel.
  destruct (lookup_lt_is_Some_2 a (Z.to_nat i)) as [v Hv]; [lia|].
  now rewrite Hv.
Qed.

Lemma displayBuffer_emits buffer :
  length buffer = 1024%nat ->
  emits E I (displayBuffer buffer) (spec_scan buffer) I.
Proof.
  intros Hlen. unfold displayBuffer, spec_scan.
  change (upto 0 16) with (upto 0 (Z.to_nat (scan - 0))).
  apply emits_for_lt. intros s Hs. change scan with 16 in Hs.
  unfold spec_row. apply (emits_seq I I I _ _ [EvSetRow s]).
  { now apply setRow_emits. }
  change (upto 0 8) with (upto 0 (Z.to_nat (8 - 0))).
  apply emits_for_lt. intros plane Hp.
  unfold spec_plane. apply emits_seq with (Q := I).
  - change (upto 0 32) with (upto 0 (Z.to_nat (MATRIX_WIDTH - 0))).
    apply emits_for_lt. intros x Hx.
    change MATRIX_WIDTH with 32 in *. change scan with 16.
    apply emits_load with (v := pixel buffer (32 * s + x));
      [lia | apply pixel_lookup; lia |].
    apply emits_load with (v := pixel buffer (32 * (s + 16) + x));
      [lia | apply pixel_lookup; lia |].
    unfold spec_column.
    apply (emits_seq I I I _ _ [_] [_]); [|apply CLK_TOGGLE_emits].
    replace (uint8 plane) with plane
      by (unfold uint8; rewrite Z.mod_small; lia).
    now apply setRGB_emits.
  - apply emits_load with (v := pixel waits plane);
      [lia | apply pixel_lookup; simpl; lia |].
    apply showLine_emits.
Qed.

End Capture.

(** ** The calls and the macros, run *)

Lemma testbit_drive (b : bool) reg n k :
  0 <= n -> 0 <= k ->
  Z.testbit (drive b reg (2 ^ n)) k = if k =? n then b else Z.testbit reg k.
Proof.
  intros Hn Hk. unfold drive. destruct b.
  - rewrite testbit_set by assumption. rewrite (Z.eqb_sym n k).
    destruct (k =? n); [apply orb_true_r | apply orb_false_r].
  - rewrite testbit_clear by assumption. rewrite (Z.eqb_sym n k).
    destruct (k =? n); [apply andb_false_r | apply andb_true_r].
Qed.

Lemma drive_run (b : bool) p mask (m : machine) :
  (if b then BSRRL p mask else BSRRH p mask) m
  = Some (tt, {| pins := with_odr p (drive b (odr p (pins m)) mask) (pins m);
                 trace := trace m;
                 written := with_odr p (drive b (odr p (pins m)) mask) (pins m)
                            :: written m |}).
Proof. destruct b; reflexivity. Qed.

Ltac run_drives :=
  unfold logged, mbind, ST_bind;
  repeat (rewrite drive_run;
          cbn [pins trace written with_odr odr ODR_A ODR_B ODR_C]).

Ltac split_eqb :=
  repeat match goal with
         | |- context [?a =? ?b] => destruct (Z.eqb_spec a b)
         end;
  try reflexivity; try lia.

Lemma setRow_run row m :
  exists g' ws,
    setRow row m = Some (tt, captured (EvSetRow row) m g' ws) /\
    ODR_A g' = ODR_A (pins m) /\
    ODR_C g' = ODR_C (pins m) /\
    forall k, 0 <= k ->
      Z.testbit (ODR_B g') k
      = if k =? 5 then Z.testbit row 0
        else if k =? 6 then Z.testbit row 1
        else if k =? 8 then Z.testbit row 2
        else if k =? 9 then Z.testbit row 3
        else Z.testbit (ODR_B (pins m)) k.
Proof.
  unfold setRow. run_drives.
  do 2 eexists. split; [reflexivity|]. cbn [ODR_A ODR_B ODR_C].
  split; [reflexivity|]. split; [reflexivity|]. intros k Hk.
  change GPIO_PIN_5 with (2 ^ 5). change GPIO_PIN_6 with (2 ^ 6).
  change GPIO_PIN_8 with (2 ^ 8). change GPIO_PIN_9 with (2 ^ 9).
  rewrite !testbit_drive by lia.
  change 1 with (2 ^ 0) at 1. change 2 with (2 ^ 1) at 1.
  change 4 with (2 ^ 2) at 1. change 8 with (2 ^ 3) at 1.
  rewrite !land_pow2_testbit by lia.
  split_eqb.
Qed.

Lemma setRGB_run rgb1 rgb2 plane m :
  0 <= plane ->
  exists g' ws,
    setRGB rgb1 rgb2 plane m
    = Some (tt, captured (EvSetRGB rgb1 rgb2 plane) m g' ws) /\
    ODR_B g' = ODR_B (pins m) /\
    ODR_C g' = ODR_C (pins m) /\
    forall k, 0 <= k ->
      Z.testbit (ODR_A g') k
      = if k =? 5 then Z.testbit rgb1 plane
        else if k =? 6 then Z.testbit rgb1 (plane + 8)
        else if k =? 7 then Z.testbit rgb1 (plane + 16)
        else if k =? 8 then Z.testbit rgb2 plane
        else if k =? 9 then Z.testbit rgb2 (plane + 8)
        else if k =? 10 then Z.testbit rgb2 (plane + 16)
        else Z.testbit (ODR_A (pins m)) k.
Proof.
  intros Hp. unfold setRGB. run_drives.
  do 2 eexists. split; [reflexivity|]. cbn [ODR_A ODR_B ODR_C].
  split; [reflexivity|]. split; [reflexivity|]. intros k Hk.
  change GPIO_PIN_5 with (2 ^ 5). change GPIO_PIN_6 with (2 ^ 6).
  change GPIO_PIN_7 with (2 ^ 7). change GPIO_PIN_8 with (2 ^ 8).
  change GPIO_PIN_9 with (2 ^ 9). change GPIO_PIN_10 with (2 ^ 10).
  rewrite !testbit_drive by lia.
  rewrite !land_shiftl1_testbit by lia.
  split_eqb.
Qed.

Lemma DISP_ON_run m :
  DISP_ON m
  = Some (tt, captured EvDispOn m
                (with_odr PortB (Z.ldiff (ODR_B (pins m)) GPIO_PIN_10)
                   (pins m))
                [with_odr PortB (Z.ldiff (ODR_B (pins m)) GPIO_PIN_10)
                   (pins m)]).
Proof. reflexivity. Qed.

Lemma DISP_OFF_run m :
  DISP_OFF m
  = Some (tt, captured EvDispOff m
                (with_odr PortB (Z.lor (ODR_B (pins m)) GPIO_PIN_10) (pins m))
                [with_odr PortB (Z.lor (ODR_B (pins m)) GPIO_PIN_10)
                   (pins m)]).
Proof. reflexivity. Qed.

Lemma CLK_TOGGLE_run m :
  exists g' ws,
    CLK_TOGGLE m = Some (tt, captured EvClkToggle m g' ws) /\
    ODR_A g' = ODR_A (pins m) /\ ODR_B g' = ODR_B (pins m).
Proof. do 2 eexists. split; [reflexivity|]. split; reflexivity. Qed.

Lemma STROBE_run m :
  exists g' ws,
    STROBE m = Some (tt, captured EvStrobe m g' ws) /\
    ODR_A g' = ODR_A (pins m) /\ ODR_B g' = ODR_B (pins m).
Proof. do 2 eexists. split; [reflexivity|]. split; reflexivity. Qed.

Lemma NOP_run m : NOP m = Some (tt, captured EvNop m (pins m) []).
Proof. reflexivity. Qed.

(** The output-enable pin is bit 10 of port B. *)
Lemma display_enabled_testbit g :
  display_enabled g = negb (Z.testbit (ODR_B g) 10).
Proof.
  unfold display_enabled. change GPIO_PIN_10 with (2 ^ 10).
  now rewrite pin_testbit.
Qed.

Lemma DISP_OFF_blanks g :
  display_enabled (with_odr PortB (Z.lor (ODR_B g) GPIO_PIN_10) g) = false.
Proof.
  rewrite display_enabled_testbit. cbn [with_odr ODR_B].
  change GPIO_PIN_10 with (2 ^ 10). rewrite testbit_set by lia.
  now rewrite orb_true_r.
Qed.

Lemma DISP_ON_enables g :
  display_enabled (with_odr PortB (Z.ldiff (ODR_B g) GPIO_PIN_10) g) = true.
Proof.
  rewrite display_enabled_testbit. cbn [with_odr ODR_B].
  change GPIO_PIN_10 with (2 ^ 10). rewrite testbit_clear by lia.
  apply negb_true_iff, andb_false_r.
Qed.

(** ** The scan pass, captured *)

Lemma setRGB_drives_bits rgb1 rgb2 plane m g' :
  0 <= plane ->
  (forall k, 0 <= k ->
     Z.testbit (ODR_A g') k
     = if k =? 5 then Z.testbit rgb1 plane
       else if k =? 6 then Z.testbit rgb1 (plane + 8)
       else if k =? 7 then Z.testbit rgb1 (plane + 16)
       else if k =? 8 then Z.testbit rgb2 plane
       else if k =? 9 then Z.testbit rgb2 (plane + 8)
       else if k =? 10 then Z.testbit rgb2 (plane + 16)
       else Z.testbit (ODR_A (pins m)) k) ->
  r1 g' = Z.testbit rgb1 plane /\
  g1 g' = Z.testbit rgb1 (plane + 8) /\
  b1 g' = Z.testbit rgb1 (plane + 16) /\
  r2 g' = Z.testbit rgb2 plane /\
  g2 g' = Z.testbit rgb2 (plane + 8) /\
  b2 g' = Z.testbit rgb2 (plane + 16).
Proof.
  intros Hp Hk. unfold r1, g1, b1, r2, g2, b2.
  change GPIO_PIN_5 with (2 ^ 5). change GPIO_PIN_6 with (2 ^ 6).
  change GPIO_PIN_7 with (2 ^ 7). change GPIO_PIN_8 with (2 ^ 8).
  change GPIO_PIN_9 with (2 ^ 9). change GPIO_PIN_10 with (2 ^ 10).
  rewrite !pin_testbit by lia. rewrite !Hk by lia. repeat split.
Qed.

Lemma scan_drives buffer m :
  length buffer = 1024%nat ->
  exists new m',
    displayBuffer buffer m = Some (tt, m') /\
    history m' = history m ++ new /\
    map ev new = spec_scan buffer /\
    Forall drives_bits new.
Proof.
  intros Hlen.
  destruct (displayBuffer_emits drives_bits any_pins any_pins) with
    (buffer := buffer) (m := m) as (new & m' & Hr & Hh & He & HE & _);
    try exact I; try assumption.
  - intros s _. apply emits_step. intros m0 _.
    destruct (setRow_run s m0) as (g' & ws & Hr & _). exists g', ws.
    split; [exact Hr|]. split; exact I.
  - intros rgb1 rgb2 plane Hp. apply emits_step. intros m0 _.
    destruct (setRGB_run rgb1 rgb2 plane m0) as (g' & ws & Hr & _ & _ & Hk); [lia|].
    exists g', ws. split; [exact Hr|]. split; [|exact I].
    unfold drives_bits. cbn [ev post]. intros _.
    apply setRGB_drives_bits with (m := m0); [lia | exact Hk].
  - apply emits_step. intros m0 _.
    destruct (CLK_TOGGLE_run m0) as (g' & ws & Hr & _). exists g', ws.
    split; [exact Hr|]. split; exact I.
  - apply emits_step. intros m0 _.
    destruct (STROBE_run m0) as (g' & ws & Hr & _). exists g', ws.
    split; [exact Hr|]. split; exact I.
  - apply emits_step. intros m0 _. do 2 eexists.
    split; [apply DISP_ON_run|]. split; exact I.
  - apply emits_step. intros m0 _. do 2 eexists.
    split; [apply NOP_run|]. split; exact I.
  - apply emits_step. intros m0 _. do 2 eexists.
    split; [apply DISP_OFF_run|]. split; exact I.
  - exists new, m'. auto.
Qed.

Lemma display_enabled_same g g' :
  ODR_B g' = ODR_B g -> display_enabled g' = display_enabled g.
Proof. intros H. unfold display_enabled. now rewrite H. Qed.

Lemma blanked_other e g g' ws :
  addressing_or_shifting e = false ->
  blanked {| ev := e; pre := g; post := g'; during := ws |}.
Proof. intros H. unfold blanked. cbn [ev]. rewrite H. discriminate. Qed.

Lemma scan_blanked buffer m :
  length buffer = 1024%nat ->
  dark (pins m) ->
  exists new m',
    displayBuffer buffer m = Some (tt, m') /\
    history m' = history m ++ new /\
    map ev new = spec_scan buffer /\
    Forall blanked new /\
    dark (pins m').
Proof.
  intros Hlen Hdark.
  apply (displayBuffer_emits blanked dark any_pins); try assumption.
  - intros s _. apply emits_step. intros m0 Hm0.
    destruct (setRow_run s m0) as (g' & ws & Hr & _ & _ & Hk). exists g', ws.
    assert (Hd : dark g').
    { unfold dark in *. rewrite display_enabled_testbit in *.
      now rewrite Hk by lia. }
    split; [exact Hr|]. split; [|exact Hd]. intros _. now split.
  - intros rgb1 rgb2 plane Hp. apply emits_step. intros m0 Hm0.
    destruct (setRGB_run rgb1 rgb2 plane m0) as (g' & ws & Hr & HB & _); [lia|].
    exists g', ws.
    assert (Hd : dark g').
    { unfold dark in *. now rewrite (display_enabled_same _ _ HB). }
    split; [exact Hr|]. split; [|exact Hd]. intros _. now split.
  - apply emits_step. intros m0 Hm0.
    destruct (CLK_TOGGLE_run m0) as (g' & ws & Hr & _ & HB). exists g', ws.
    split; [exact Hr|]. split; [now apply blanked_other|].
    unfold dark in *. now rewrite (display_enabled_same _ _ HB).
  - apply emits_step. intros m0 Hm0.
    destruct (STROBE_run m0) as (g' & ws & Hr & _ & HB). exists g', ws.
    split; [exact Hr|]. split; [now apply blanked_other|].
    unfold dark in *. now rewrite (display_enabled_same _ _ HB).
  - apply emits_step. intros m0 _. do 2 eexists.
    split; [apply DISP_ON_run|]. split; [now apply blanked_other | exact I].
  - apply emits_step. intros m0 _. do 2 eexists.
    split; [apply NOP_run|]. split; [now apply blanked_other | exact I].
  - apply emits_step. intros m0 _. do 2 eexists.
    split; [apply DISP_OFF_run|]. split; [now apply blanked_other|].
    apply DISP_OFF_blanks.
Qed.

(** ** Counting does not look at pixel values *)

Lemma map_flat_map {A B C} (f : B -> C) (g : A -> list B) l :
  map f (flat_map g l) = flat_map (fun x => map f (g x)) l.
Proof.
  induction l as [|x l IH]; simpl; [reflexivity|].
  now rewrite map_app, IH.
Qed.

Lemma shape_spec_row buffer s :
  map shape (spec_row buffer s) = spec_row [] s.
Proof. reflexivity. Qed.

Lemma shape_spec_scan buffer :
  map shape (spec_scan buffer) = spec_scan [].
Proof.
  unfold spec_scan. rewrite map_flat_map. apply flat_map_ext.
  intros s. apply shape_spec_row.
Qed.

Lemma count_shape p evs :
  (forall e, p (shape e) = p e) -> count p (map shape evs) = count p evs.
Proof.
  intros Hp. induction evs as [|e t IH]; simpl; [reflexivity|].
  now rewrite Hp, IH.
Qed.

Lemma holds_shape evs : forall cur,
  holds cur (map shape evs) = holds cur evs.
Proof.
  induction evs as [|e t IH]; intros cur; simpl; [reflexivity|].
  destruct e; simpl; rewrite ?IH; reflexivity.
Qed.

Lemma is_setRow_shape e : is_setRow (shape e) = is_setRow e.
Proof. now destruct e. Qed.
Lemma is_setRGB_shape e : is_setRGB (shape e) = is_setRGB e.
Proof. now destruct e. Qed.
Lemma is_strobe_shape e : is_strobe (shape e) = is_strobe e.
Proof. now destruct e. Qed.
Lemma is_dispOn_shape e : is_dispOn (shape e) = is_dispOn e.
Proof. now destruct e. Qed.

Lemma count_spec_row p buffer s :
  (forall e, p (shape e) = p e) ->
  count p (spec_row buffer s) = count p (spec_row [] s).
Proof.
  intros Hp. rewrite <- (count_shape p (spec_row buffer s) Hp).
  now rewrite shape_spec_row.
Qed.

Lemma count_spec_scan p buffer :
  (forall e, p (shape e) = p e) ->
  count p (spec_scan buffer) = count p (spec_scan []).
Proof.
  intros Hp. rewrite <- (count_shape p (spec_scan buffer) Hp).
  now rewrite shape_spec_scan.
Qed.

Lemma holds_spec_row buffer s :
  holds None (spec_row buffer s) = holds None (spec_row [] s).
Proof. now rewrite <- holds_shape, shape_spec_row. Qed.

Lemma holds_spec_scan buffer :
  holds None (spec_scan buffer) = holds None (spec_scan []).
Proof. now rewrite <- holds_shape, shape_spec_scan. Qed.

Lemma spec_row_counts buffer s :
  count is_setRow (spec_row buffer s) = 1 /\
  count is_setRGB (spec_row buffer s) = 256 /\
  count is_strobe (spec_row buffer s) = 8 /\
  count is_dispOn (spec_row buffer s) = 8 /\
  holds None (spec_row buffer s) = waits.
Proof.
  rewrite (count_spec_row is_setRow buffer s is_setRow_shape).
  rewrite (count_spec_row is_setRGB buffer s is_setRGB_shape).
  rewrite (count_spec_row is_strobe buffer s is_strobe_shape).
  rewrite (count_spec_row is_dispOn buffer s is_dispOn_shape).
  rewrite (holds_spec_row buffer s).
  repeat apply conj; vm_compute; reflexivity.
Qed.

Lemma spec_scan_counts buffer :
  count is_setRow (spec_scan buffer) = 16 /\
  count is_setRGB (spec_scan buffer) = 4096 /\
  count is_strobe (spec_scan buffer) = 128 /\
  count is_dispOn (spec_scan buffer) = 128 /\
  holds None (spec_scan buffer) = concat (replicate 16 waits).
Proof.
  rewrite (count_spec_scan is_setRow buffer is_setRow_shape).
  rewrite (count_spec_scan is_setRGB buffer is_setRGB_shape).
  rewrite (count_spec_scan is_strobe buffer is_strobe_shape).
  rewrite (count_spec_scan is_dispOn buffer is_dispOn_shape).
  rewrite (holds_spec_scan buffer).
  repeat apply conj; vm_compute; reflexivity.
Qed.

(** ** The column drives of a capture *)

Lemma map_ev_drives t :
  map ev (drives t) = List.filter is_setRGB (map ev t).
Proof.
  unfold drives. induction t as [|x t IH]; simpl; [reflexivity|].
  destruct (is_setRGB (ev x)); simpl; now rewrite IH.
Qed.

Lemma drives_incl t x : In x (drives t) -> In x t.
Proof. unfold drives. intros H. now apply List.filter_In in H. Qed.

Lemma Forall_In_stdlib {A} (P : A -> Prop) l x :
  Forall P l -> In x l -> P x.
Proof.
  intros H. induction H; simpl; [intros [] | intros [<-|Hin]; auto].
Qed.

(** Row-pair 0 of the lone-pixel framebuffer: the drive of column 0 in
    plane [plane] is the one numbered [32 * plane]. *)
Lemma lone_pixel_column0 plane :
  0 <= plane <= 7 ->
  nth_error (List.filter is_setRGB (spec_scan lone_pixel))
    (Z.to_nat (32 * plane))
  = Some (EvSetRGB 0x50 0 plane).
Proof.
  intros Hp.
  assert (Hcases : plane = 0 \/ plane = 1 \/ plane = 2 \/ plane = 3 \/
                   plane = 4 \/ plane = 5 \/ plane = 6 \/ plane = 7) by lia.
  repeat (destruct Hcases as [->|Hcases]; [vm_compute; reflexivity|]).
  subst plane. vm_compute. reflexivity.
Qed.

(** ** Checking a range by evaluation *)

Lemma forallb_upto (p : Z -> bool) n : forall lo,
  forallb p (upto lo n) = true ->
  forall i, lo <= i < lo + Z.of_nat n -> p i = true.
Proof.
  induction n as [|n IH]; intros lo H i Hi; [lia|].
  simpl in H. apply andb_true_iff in H as [H0 Ht].
  destruct (Z.eq_dec i lo) as [->|Hne]; [exact H0|].
  apply (IH (lo + 1)); [exact Ht | lia].
Qed.

Lemma upto_length n : forall lo, length (upto lo n) = n.
Proof. induction n as [|n IH]; intros lo; simpl; [|rewrite IH]; auto. Qed.

(** ** The gamma table *)

Lemma gamma_built_length : length gamma_built = 256%nat.
Proof. unfold gamma_built. now rewrite length_map, upto_length. Qed.

Lemma gamma_entries_ok i : 0 <= i < 256 -> gamma_entry_ok i = true.
Proof.
  intros Hi. apply (forallb_upto gamma_entry_ok 256 0); [|lia].
  vm_compute. reflexivity.
Qed.

Lemma gamma_built_facts i :
  0 <= i < 256 ->
  pixel gamma_built i = gamma_value i /\
  0 <= pixel gamma_built i <= i /\
  pixel gamma_built i <= 253 /\
  gamma_fits (pixel gamma_built i) i = true /\
  gamma_fits (pixel gamma_built i + 1) i = false /\
  (i < 255 -> pixel gamma_built i <= pixel gamma_built (i + 1)).
Proof.
  intros Hi. pose proof (gamma_entries_ok i Hi) as H.
  unfold gamma_entry_ok in H. cbv zeta in H.
  apply andb_true_iff in H as [H Hnext].
  apply andb_true_iff in H as [H Hup].
  apply andb_true_iff in H as [H Hfit].
  apply andb_true_iff in H as [H H253].
  apply andb_true_iff in H as [H Hle].
  apply andb_true_iff in H as [Heq H0].
  apply Z.eqb_eq in Heq. apply Z.leb_le in H0, Hle, H253.
  apply negb_true_iff in Hup.
  repeat split; try assumption.
  intros Hlt. apply orb_true_iff in Hnext as [Hnext|Hnext].
  - apply Z.eqb_eq in Hnext. lia.
  - now apply Z.leb_le in Hnext.
Qed.

Lemma gamma_built_monotone i j :
  0 <= i -> i <= j -> j < 256 ->
  pixel gamma_built i <= pixel gamma_built j.
Proof.
  intros Hi Hij Hj.
  replace j with (i + Z.of_nat (Z.to_nat (j - i))) in * by lia.
  induction (Z.to_nat (j - i)) as [|n IH]; [rewrite Z.add_0_r; lia|].
  assert (Hstep := gamma_built_facts (i + Z.of_nat n)).
  destruct Hstep as (_ & _ & _ & _ & _ & Hstep); [lia|].
  replace (i + Z.of_nat (S n)) with (i + Z.of_nat n + 1) in * by lia.
  specialize (IH ltac:(lia) ltac:(lia)). lia.
Qed.

Lemma ceiling_bounds c :
  0 <= c < 256 -> 1 <= ceiling c <= 253 /\ pixel gamma_built c <= ceiling c.
Proof.
  intros Hc. unfold ceiling.
  destruct (gamma_built_facts c Hc) as (_ & H0 & H253 & _).
  destruct (Z.eqb_spec (pixel gamma_built c) 0); lia.
Qed.

(** ** Packing three channels into a pixel *)

Lemma high_bits_clear x n k :
  0 <= x < 2 ^ n -> 0 <= n <= k -> Z.testbit x k = false.
Proof.
  intros [Hx0 Hxn] [Hn Hk].
  destruct (Z.eq_dec x 0) as [->|Hne]; [apply Z.bits_0|].
  apply Z.bits_above_log2; [exact Hx0|].
  apply Z.lt_le_trans with n; [|exact Hk].
  apply Z.log2_lt_pow2; lia.
Qed.

Lemma lor_disjoint x y n :
  0 <= n -> 0 <= x < 2 ^ n -> Z.lor x (Z.shiftl y n) = x + y * 2 ^ n.
Proof.
  intros Hn Hx. rewrite Z.shiftl_mul_pow2 by assumption.
  assert (Hland : Z.land x (y * 2 ^ n) = 0).
  { apply Z.bits_inj'. intros k Hk. rewrite Z.land_spec, Z.bits_0.
    destruct (Z.lt_ge_cases k n) as [Hlt|Hge].
    - rewrite Z.mul_pow2_bits_low by assumption. apply andb_false_r.
    - rewrite (high_bits_clear x n k) by lia. reflexivity. }
  rewrite <- Z.lxor_lor by assumption.
  symmetry. now apply Z.add_nocarry_lxor.
Qed.

Lemma pack_channels a b c :
  0 <= a < 256 -> 0 <= b < 256 -> 0 <= c < 256 ->
  let p := uint32 (Z.lor (Z.lor (Z.lor 0x00 (Z.shiftl a 0)) (Z.shiftl b 8))
                     (Z.shiftl c 16)) in
  channelA p = a /\ channelB p = b /\ channelC p = c.
Proof.
  intros Ha Hb Hc. cbv zeta.
  rewrite Z.lor_0_l, Z.shiftl_0_r.
  rewrite (lor_disjoint a b 8) by lia.
  rewrite (lor_disjoint (a + b * 2 ^ 8) c 16) by lia.
  unfold uint32. rewrite Z.mod_small by lia.
  unfold channelA, channelB, channelC.
  change 0xFF with (Z.ones 8). rewrite !Z.land_ones by lia.
  rewrite !Z.shiftr_div_pow2 by lia.
  change (2 ^ 8) with 256. change (2 ^ 16) with 65536.
  repeat split; Z.div_mod_to_equations; lia.
Qed.

(** ** Rules for programs that must succeed *)

Lemma total_for {St} (Inv : Z -> St -> Prop) (body : Z -> ST St unit) n :
  forall lo,
  (forall i, lo <= i < lo + Z.of_nat n ->
     total (Inv i) (body i) (fun _ => Inv (i + 1))) ->
  total (Inv lo) (for_ n lo body) (fun _ => Inv (lo + Z.of_nat n)).
Proof.
  induction n as [|n IH]; intros lo Hb s Hs.
  - exists tt, s. split; [reflexivity|].
    now replace (lo + Z.of_nat 0) with lo by lia.
  - destruct (Hb lo ltac:(lia) s Hs) as ([] & s1 & Hr1 & H1).
    destruct (IH (lo + 1) ltac:(intros i Hi; apply Hb; lia) s1 H1)
      as ([] & s2 & Hr2 & H2).
    exists tt, s2. split.
    + cbn [for_]. unfold mbind, ST_bind. now rewrite Hr1.
    + now replace (lo + Z.of_nat (S n)) with (lo + 1 + Z.of_nat n) by lia.
Qed.

(** ** The pattern generator *)

Ltac world_simpl :=
  cbn [hw framebuffer gammaTable counter entropy UartReady journal
       set_hw set_framebuffer set_gammaTable set_counter set_entropy
       set_UartReady set_journal] in *.

Lemma gamma_sample_run max w :
  gammaTable w = gamma_built ->
  0 <= entropy w 0%nat ->
  1 <= max <= 253 ->
  exists v,
    gamma_sample max w
    = Some (v, set_entropy (fun n => entropy w (S n)) w) /\
    v = pixel gamma_built (Z.rem (entropy w 0%nat) max) /\
    0 <= v < max.
Proof.
  intros Hg Hr Hmax.
  pose proof (Z.rem_bound_pos (entropy w 0%nat) max Hr ltac:(lia)) as Hrem.
  destruct (gamma_built_facts (Z.rem (entropy w 0%nat) max)) as (_ & Hv & _);
    [lia|].
  eexists. split; [|split; [reflexivity | lia]].
  unfold gamma_sample, mbind, ST_bind, rand, rem_.
  destruct (Z.eqb_spec max 0) as [|_]; [lia|].
  unfold load_gamma, load. cbn [gammaTable set_entropy]. rewrite Hg.
  destruct (Z.leb_spec 0 (Z.rem (entropy w 0%nat) max)) as [_|]; [|lia].
  rewrite pixel_lookup by (rewrite gamma_built_length; lia).
  reflexivity.
Qed.

Lemma store_framebuffer_run i v w :
  0 <= i < Z.of_nat (length (framebuffer w)) ->
  store_framebuffer i v w
  = Some (tt, set_framebuffer (<[Z.to_nat i := v]> (framebuffer w)) w).
Proof.
  intros Hi. unfold store_framebuffer, store.
  destruct (Z.leb_spec 0 i); [|lia].
  destruct (Z.ltb_spec i (Z.of_nat (length (framebuffer w)))); [|lia].
  reflexivity.
Qed.

Lemma pixel_insert_eq (a : list Z) i v :
  0 <= i < Z.of_nat (length a) -> pixel (<[Z.to_nat i := v]> a) i = v.
Proof.
  intros Hi. unfold pixel. now rewrite list_lookup_insert_eq by lia.
Qed.

Lemma pixel_insert_ne (a : list Z) i j v :
  0 <= i -> 0 <= j -> i <> j ->
  pixel (<[Z.to_nat i := v]> a) j = pixel a j.
Proof.
  intros Hi Hj Hne. unfold pixel. now rewrite list_lookup_insert_ne by lia.
Qed.

Lemma randomize_pixel_run w0 max i :
  1 <= max <= 253 -> 0 <= i < 1024 ->
  total (randomizing w0 max i)
    (ca ← gamma_sample max;
     cb ← gamma_sample max;
     cc ← gamma_sample max;
     store_framebuffer i
       (uint32 (Z.lor (Z.lor (Z.lor 0x00 (Z.shiftl ca 0)) (Z.shiftl cb 8))
                  (Z.shiftl cc 16))))
    (fun _ => randomizing w0 max (i + 1)).
Proof.
  intros Hmax Hi w (Hhw & Hj & Hc & Hg & Hlen & Hent & Hpix).
  destruct (gamma_sample_run max w Hg (Hent _) Hmax) as (ca & Ha & _ & Hca).
  set (wa := set_entropy _ w) in Ha.
  destruct (gamma_sample_run max wa Hg (Hent _) Hmax) as (cb & Hb & _ & Hcb).
  set (wb := set_entropy _ wa) in Hb.
  destruct (gamma_sample_run max wb Hg (Hent _) Hmax) as (cc & Hcc' & _ & Hcc).
  set (wc := set_entropy _ wb) in Hcc'.
  eexists tt, _. split.
  - unfold mbind, ST_bind. rewrite Ha, Hb, Hcc'.
    apply store_framebuffer_run. subst wa wb wc. world_simpl. lia.
  - subst wa wb wc. unfold randomizing. world_simpl.
    repeat (split; [assumption|]).
    split; [now rewrite length_insert|].
    split; [intros n; apply Hent|].
    intros j Hjr. destruct (Z.eq_dec j i) as [->|Hne].
    + rewrite pixel_insert_eq by lia.
      destruct (pack_channels ca cb cc) as (HA & HB & HC); try lia.
      unfold bounded_pixel. rewrite HA, HB, HC. lia.
    + rewrite pixel_insert_ne by lia. apply Hpix. lia.
Qed.

Lemma randomize_run w :
  started w ->
  exists w',
    randomizeFramebuffer w = Some (tt, w') /\
    started w' /\
    hw w' = hw w /\
    journal w' = journal w /\
    counter w' = uint8 (counter w + 1) /\
    forall j, 0 <= j < 1024 ->
      bounded_pixel (ceiling (counter w')) (pixel (framebuffer w') j).
Proof.
  intros (Hlen & Hg & Hc & Hent).
  set (w1 := set_counter (uint8 (counter w + 1)) w).
  assert (Hc1 : 0 <= counter w1 < 256).
  { subst w1. world_simpl. unfold uint8. apply Z.mod_pos_bound. lia. }
  destruct (ceiling_bounds _ Hc1) as (Hmax & _).
  destruct (total_for (randomizing w1 (ceiling (counter w1)))
              (fun i =>
                 ca ← gamma_sample (ceiling (counter w1));
                 cb ← gamma_sample (ceiling (counter w1));
                 cc ← gamma_sample (ceiling (counter w1));
                 store_framebuffer i
                   (uint32 (Z.lor (Z.lor (Z.lor 0x00 (Z.shiftl ca 0))
                                     (Z.shiftl cb 8)) (Z.shiftl cc 16))))
              1024 0) with (s := w1) as ([] & w2 & Hrun & H2).
  { intros i Hi. apply randomize_pixel_run; lia. }
  { unfold randomizing. repeat (split; [auto; fail|]). intros k Hk. lia. }
  destruct H2 as (Hhw & Hj & Hcw & Hg2 & Hlen2 & Hent2 & Hpix).
  exists w2. split.
  - unfold randomizeFramebuffer, update, mbind, ST_bind. fold w1.
    unfold load_gamma, load.
    destruct (Z.leb_spec 0 (counter w1)) as [_|]; [|lia].
    replace (gammaTable w1) with gamma_built by (symmetry; exact Hg).
    rewrite pixel_lookup by (rewrite gamma_built_length; lia).
    exact Hrun.
  - split; [repeat split; auto; rewrite Hcw; lia|].
    split; [exact Hhw|]. split; [exact Hj|]. split; [exact Hcw|].
    rewrite Hcw. exact Hpix.
Qed.

(** ** [main] *)

Lemma count_calls_app p j1 j2 :
  count_calls p (j1 ++ j2) = count_calls p j1 + count_calls p j2.
Proof.
  induction j1 as [|c j1 IH]; simpl; [reflexivity|]. rewrite IH. lia.
Qed.

Lemma bind_run {St A B} (c : ST St A) (k : A -> ST St B) s a s' :
  c s = Some (a, s') -> (c ≫= k) s = k a s'.
Proof. intros H. unfold mbind, ST_bind. now rewrite H. Qed.

Lemma display_run w :
  running w ->
  exists w',
    display w = Some (tt, w') /\
    running w' /\
    journal w' = CallDisplay :: journal w.
Proof.
  intros ((Hlen & Hg & Hc & Hent) & Hdark & Hhist).
  destruct (scan_blanked (framebuffer w) (hw w) Hlen Hdark)
    as (new & m' & Hr & Hh & _ & HE & Hd).
  exists (set_hw m' (set_journal (CallDisplay :: journal w) w)). split.
  - unfold display, called, update, mbind, ST_bind, on_hw. world_simpl.
    now rewrite Hr.
  - unfold running, started. world_simpl.
    split; [|reflexivity]. split; [now repeat split|].
    split; [exact Hd|]. rewrite Hh. apply Forall_app. now split.
Qed.

Lemma randomize_called_run w :
  running w ->
  exists w',
    called CallRandomize randomizeFramebuffer w = Some (tt, w') /\
    running w' /\
    journal w' = CallRandomize :: journal w.
Proof.
  intros (Hs & Hdark & Hhist).
  destruct (randomize_run (set_journal (CallRandomize :: journal w) w))
    as (w' & Hr & Hs' & Hhw & Hj & _).
  { exact Hs. }
  exists w'. split.
  - unfold called, update, mbind, ST_bind. exact Hr.
  - world_simpl. split; [|exact Hj]. unfold running. rewrite Hhw.
    split; [exact Hs'|]. split; assumption.
Qed.

Lemma main_iteration_run frame w :
  running w ->
  exists w',
    main_iteration frame w = Some (frame + 1, w') /\
    running w' /\
    journal w'
    = (if Z.rem (frame + 1) 200 =? 0 then [CallTransmit uartAliveMsg 17]
       else [])
      ++ (if Z.rem (frame + 1) 5 =? 0 then [CallRandomize] else [])
      ++ CallDisplay :: journal w.
Proof.
  intros Hw.
  destruct (display_run w Hw) as (w1 & Hr1 & Hw1 & Hj1).
  assert (H2 : exists w2,
             (if Z.rem (frame + 1) 5 =? 0
              then called CallRandomize randomizeFramebuffer
              else mret tt) w1 = Some (tt, w2) /\
             running w2 /\
             journal w2
             = (if Z.rem (frame + 1) 5 =? 0 then [CallRandomize] else [])
               ++ journal w1).
  { destruct (Z.rem (frame + 1) 5 =? 0).
    - destruct (randomize_called_run w1 Hw1) as (w2 & Hr2 & Hw2 & Hj2).
      exists w2. split; [exact Hr2|]. split; [exact Hw2|]. exact Hj2.
    - exists w1. split; [reflexivity|]. split; [exact Hw1|]. reflexivity. }
  destruct H2 as (w2 & Hr2 & Hw2 & Hj2).
  assert (H3 : exists w3,
             (if Z.rem (frame + 1) 200 =? 0
              then wait_UartReady ;; update (set_UartReady false) ;;
                   HAL_UART_Transmit_IT uartAliveMsg 17
              else mret tt) w2 = Some (tt, w3) /\
             running w3 /\
             journal w3
             = (if Z.rem (frame + 1) 200 =? 0
                then [CallTransmit uartAliveMsg 17] else [])
               ++ journal w2).
  { destruct (Z.rem (frame + 1) 200 =? 0).
    - eexists. split; [reflexivity|]. split; [|reflexivity]. exact Hw2.
    - exists w2. split; [reflexivity|]. split; [exact Hw2|]. reflexivity. }
  destruct H3 as (w3 & Hr3 & Hw3 & Hj3).
  exists w3. split.
  - unfold main_iteration. cbv zeta.
    rewrite (bind_run _ _ _ _ _ Hr1), (bind_run _ _ _ _ _ Hr2),
      (bind_run _ _ _ _ _ Hr3).
    reflexivity.
  - split; [exact Hw3|]. now rewrite Hj3, Hj2, Hj1.
Qed.

Lemma rem_step d f :
  0 < d -> 0 <= f ->
  (f + 1) / d - f / d = if Z.rem (f + 1) d =? 0 then 1 else 0.
Proof.
  intros Hd Hf. rewrite Z.rem_mod_nonneg by lia.
  destruct (Z.eqb_spec ((f + 1) mod d) 0); Z.div_mod_to_equations; nia.
Qed.

Lemma main_loop_run n : forall frame w,
  0 <= frame ->
  running w ->
  exists w',
    main_loop n frame w = Some (frame + Z.of_nat n, w') /\
    running w' /\
    count_calls is_display (journal w')
    = count_calls is_display (journal w) + Z.of_nat n /\
    count_calls is_randomize (journal w')
    = count_calls is_randomize (journal w)
      + ((frame + Z.of_nat n) / 5 - frame / 5) /\
    count_calls is_heartbeat (journal w')
    = count_calls is_heartbeat (journal w)
      + ((frame + Z.of_nat n) / 200 - frame / 200).
Proof.
  induction n as [|n IH]; intros frame w Hf Hw.
  - exists w. change (Z.of_nat 0) with 0.
    rewrite !Z.add_0_r, !Z.sub_diag, !Z.add_0_r.
    split; [reflexivity|]. split; [exact Hw|]. now repeat split.
  - destruct (main_iteration_run frame w Hw) as (w1 & Hr1 & Hw1 & Hj1).
    destruct (IH (frame + 1) w1 ltac:(lia) Hw1)
      as (w2 & Hr2 & Hw2 & Hd & Hrz & Hh).
    exists w2. split.
    + cbn [main_loop]. rewrite (bind_run _ _ _ _ _ Hr1), Hr2.
      do 2 f_equal. lia.
    + split; [exact Hw2|].
      replace (frame + Z.of_nat (S n)) with (frame + 1 + Z.of_nat n) by lia.
      rewrite Hd, Hrz, Hh, Hj1, !count_calls_app.
      pose proof (rem_step 5 frame ltac:(lia) Hf) as H5.
      pose proof (rem_step 200 frame ltac:(lia) Hf) as H200.
      destruct (Z.rem (frame + 1) 5 =? 0), (Z.rem (frame + 1) 200 =? 0);
        cbn [count_calls is_display is_randomize is_heartbeat app];
        change (String.eqb uartAliveMsg uartAliveMsg && (17 =? 17)) with true;
        cbv iota; lia.
Qed.

Lemma main_test_frames_run w :
  running w ->
  exists w',
    main_test_frames w = Some (tt, w') /\
    running w' /\
    count_calls is_display (journal w')
    = count_calls is_display (journal w) + 500 /\
    count_calls is_randomize (journal w')
    = count_calls is_randomize (journal w) /\
    count_calls is_heartbeat (journal w')
    = count_calls is_heartbeat (journal w).
Proof.
  intros Hw.
  destruct (total_for
              (fun i w' =>
                 running w' /\
                 count_calls is_display (journal w')
                 = count_calls is_display (journal w) + i /\
                 count_calls is_randomize (journal w')
                 = count_calls is_randomize (journal w) /\
                 count_calls is_heartbeat (journal w')
                 = count_calls is_heartbeat (journal w))
              (fun _ => display) 500 0) with (s := w)
    as ([] & w' & Hr & Hw' & Hd & Hrz & Hh).
  - intros i _ w1 (Hw1 & Hd & Hrz & Hh).
    destruct (display_run w1 Hw1) as (w2 & Hr2 & Hw2 & Hj2).
    exists tt, w2. split; [exact Hr2|]. split; [exact Hw2|].
    rewrite Hj2. cbn [count_calls is_display is_randomize is_heartbeat].
    lia.
  - split; [exact Hw|]. lia.
  - exists w'. split; [exact Hr|]. split; [exact Hw'|].
    split; [exact Hd|]. split; assumption.
Qed.

(** ** The start of [main] *)

Lemma run_inj {St A} (a b : A) (s t : St) :
  Some (a, s) = Some (b, t) -> s = t.
Proof. intros H. now injection H. Qed.

Lemma main_init_boot rnd :
  main_init (boot rnd)
  = Some (tt,
      {| hw := {| pins := {| ODR_A := 0; ODR_B := GPIO_PIN_10; ODR_C := 0 |};
                  trace := [{| ev := EvDispOff; pre := reset_gpio;
                               post := {| ODR_A := 0; ODR_B := GPIO_PIN_10;
                                          ODR_C := 0 |};
                               during := [{| ODR_A := 0;
                                             ODR_B := GPIO_PIN_10;
                                             ODR_C := 0 |}] |}];
                  written := [] |};
         framebuffer :=
           <[1023%nat := 0x00505000]>
             (<[992%nat := 0x00500000]>
                (<[31%nat := 0x00005000]>
                   (<[0%nat := 0x00000050]> (replicate 1024 0))));
         gammaTable := gamma_built;
         counter := 0;
         entropy := rnd;
         UartReady := false;
         journal := [CallTransmit "RGB-matrix started" 18] |}).
Proof. vm_compute. reflexivity. Qed.

Lemma initial_world_eq rnd :
  main_init (boot rnd) = Some (tt, initial_world rnd) /\
  initial_world rnd
  = {| hw := {| pins := {| ODR_A := 0; ODR_B := GPIO_PIN_10; ODR_C := 0 |};
                trace := [{| ev := EvDispOff; pre := reset_gpio;
                             post := {| ODR_A := 0; ODR_B := GPIO_PIN_10;
                                        ODR_C := 0 |};
                             during := [{| ODR_A := 0; ODR_B := GPIO_PIN_10;
                                           ODR_C := 0 |}] |}];
                written := [] |};
       framebuffer :=
         <[1023%nat := 0x00505000]>
           (<[992%nat := 0x00500000]>
              (<[31%nat := 0x00005000]>
                 (<[0%nat := 0x00000050]> (replicate 1024 0))));
       gammaTable := gamma_built;
       counter := 0;
       entropy := rnd;
       UartReady := false;
       journal := [CallTransmit "RGB-matrix started" 18] |}.
Proof.
  unfold initial_world. rewrite (main_init_boot rnd). split; reflexivity.
Qed.

Lemma initial_world_running rnd :
  (forall k, 0 <= rnd k) -> running (initial_world rnd).
Proof.
  intros Hrnd. destruct (initial_world_eq rnd) as (_ & ->).
  unfold running, started. world_simpl. cbn [captured pins history trace rev app].
  split; [|split].
  - split; [reflexivity|]. split; [reflexivity|]. split; [lia | exact Hrnd].
  - reflexivity.
  - constructor; [|constructor]. now apply blanked_other.
Qed.

Lemma main_run_ok rnd n :
  (forall k, 0 <= rnd k) ->
  exists w,
    main_run n (boot rnd) = Some (Z.of_nat n, w) /\
    running w /\
    count_calls is_display (journal w) = 500 + Z.of_nat n /\
    count_calls is_randomize (journal w) = Z.of_nat n / 5 /\
    count_calls is_heartbeat (journal w) = Z.of_nat n / 200.
Proof.
  intros Hrnd.
  pose proof (initial_world_running rnd Hrnd) as H0.
  destruct (initial_world_eq rnd) as (Hinit & Hw0).
  assert (Hj0 : journal (initial_world rnd)
                = [CallTransmit "RGB-matrix started" 18]).
  { now rewrite Hw0. }
  destruct (main_test_frames_run _ H0) as (w1 & Hr1 & Hw1 & Hd1 & Hz1 & Hh1).
  destruct (main_loop_run n 0 w1 (Z.le_refl 0) Hw1)
    as (w2 & Hr2 & Hw2 & Hd2 & Hz2 & Hh2).
  exists w2. split.
  - unfold main_run.
    rewrite (bind_run _ _ _ _ _ Hinit), (bind_run _ _ _ _ _ Hr1).
    exact Hr2.
  - split; [exact Hw2|].
    rewrite Hd2, Hz2, Hh2, Hd1, Hz1, Hh1, Hj0.
    change (count_calls is_display [CallTransmit "RGB-matrix started" 18])
      with 0.
    change (count_calls is_randomize [CallTransmit "RGB-matrix started" 18])
      with 0.
    change (count_calls is_heartbeat [CallTransmit "RGB-matrix started" 18])
      with 0.
    change (0 / 5) with 0. change (0 / 200) with 0.
    rewrite !Z.add_0_l, !Z.sub_0_r. repeat split; lia.
Qed.

(** ** Rules for a chained capture *)

Lemma chained_app t1 : forall g0 g1 t2 g2,
  chained g0 t1 g1 -> chained g1 t2 g2 -> chained g0 (t1 ++ t2) g2.
Proof.
  induction t1 as [|x t1 IH]; intros g0 g1 t2 g2 H1 H2; cbn in *.
  - now subst g1.
  - destruct H1 as [Hpre H1]. split; [exact Hpre|]. eapply IH; eauto.
Qed.

Section Flow.

Variable E : entry -> Prop.

Lemma flows_ret P : flows E P (mret tt) [] P.
Proof.
  intros m Hm. exists [], m. rewrite app_nil_r.
  repeat split; auto.
Qed.

Lemma flows_seq P Q R c1 c2 e1 e2 :
  flows E P c1 e1 Q -> flows E Q c2 e2 R -> flows E P (c1 ;; c2) (e1 ++ e2) R.
Proof.
  intros H1 H2 m Hm.
  destruct (H1 m Hm) as (n1 & m1 & Hr1 & Hh1 & He1 & HE1 & Hc1 & HQ).
  destruct (H2 m1 HQ) as (n2 & m2 & Hr2 & Hh2 & He2 & HE2 & Hc2 & HR).
  exists (n1 ++ n2), m2.
  split; [now rewrite (bind_run _ _ _ _ _ Hr1)|].
  split; [now rewrite Hh2, Hh1, app_assoc|].
  split; [now rewrite map_app, He1, He2|].
  split; [apply Forall_app; auto|].
  split; [eapply chained_app; eauto | exact HR].
Qed.

Lemma flows_load P Q (a : list Z) i v (k : Z -> M unit) evs :
  0 <= i -> a !! Z.to_nat i = Some v ->
  flows E P (k v) evs Q -> flows E P (load a i ≫= k) evs Q.
Proof.
  intros Hi Hv Hk m Hm. unfold mbind, ST_bind, load.
  destruct (Z.leb_spec 0 i) as [_|]; [|lia]. rewrite Hv. now apply Hk.
Qed.

Lemma flows_for P body f n : forall lo,
  (forall i, lo <= i < lo + Z.of_nat n -> flows E P (body i) (f i) P) ->
  flows E P (for_ n lo body) (flat_map f (upto lo n)) P.
Proof.
  induction n as [|n IH]; intros lo Hb; cbn [for_ upto flat_map].
  - apply flows_ret.
  - apply flows_seq with (Q := P).
    + apply Hb. lia.
    + apply IH. intros i Hi. apply Hb. lia.
Qed.

Lemma flows_for_lt P body f lo hi :
  (forall i, lo <= i < hi -> flows E P (body i) (f i) P) ->
  flows E P (for_lt lo hi body) (flat_map f (upto lo (Z.to_nat (hi - lo)))) P.
Proof. intros Hb. apply flows_for. intros i Hi. apply Hb. lia. Qed.

Lemma flows_step (P Q : gpio -> Prop) (c : M unit) e :
  (forall m, P (pins m) ->
     exists g' ws,
       c m = Some (tt, captured e m g' ws) /\
       E {| ev := e; pre := pins m; post := g'; during := ws |} /\ Q g') ->
  flows E P c [e] Q.
Proof.
  intros H m Hm. destruct (H m Hm) as (g' & ws & Hr & HE & HQ).
  exists [{| ev := e; pre := pins m; post := g'; during := ws |}]. eexists.
  split; [exact Hr|]. repeat split; auto.
Qed.

Variables I J : gpio -> Prop.
Hypothesis setRow_flows :
  forall s, 0 <= s < 16 -> flows E I (setRow s) [EvSetRow s] I.
Hypothesis setRGB_flows :
  forall rgb1 rgb2 plane, 0 <= plane < 8 ->
    flows E I (setRGB rgb1 rgb2 plane) [EvSetRGB rgb1 rgb2 plane] I.
Hypothesis CLK_TOGGLE_flows : flows E I CLK_TOGGLE [EvClkToggle] I.
Hypothesis STROBE_flows : flows E I STROBE [EvStrobe] I.
Hypothesis DISP_ON_flows : flows E I DISP_ON [EvDispOn] J.
Hypothesis NOP_flows : flows E J NOP [EvNop] J.
Hypothesis DISP_OFF_flows : flows E J DISP_OFF [EvDispOff] I.

Lemma showLine_flows amount :
  flows E I (showLine amount) (spec_hold amount) I.
Proof.
  unfold showLine, spec_hold.
  change [EvStrobe; EvDispOn] with ([EvStrobe] ++ [EvDispOn]).
  rewrite <- app_assoc.
  apply flows_seq with (Q := I); [apply STROBE_flows|].
  apply flows_seq with (Q := J); [apply DISP_ON_flows|].
  apply flows_seq with (Q := J); [|apply DISP_OFF_flows].
  rewrite <- (flat_map_nop (Z.to_nat amount) 0).
  replace (Z.to_nat amount) with (Z.to_nat (amount - 0)) by (f_equal; lia).
  apply flows_for_lt. intros _ _. apply NOP_flows.
Qed.

Lemma displayBuffer_flows buffer :
  length buffer = 1024%nat ->
  flows E I (displayBuffer buffer) (spec_scan buffer) I.
Proof.
  intros Hlen. unfold displayBuffer, spec_scan.
  change (upto 0 16) with (upto 0 (Z.to_nat (scan - 0))).
  apply flows_for_lt. intros s Hs. change scan with 16 in Hs.
  unfold spec_row. apply (flows_seq I I I _ _ [EvSetRow s]).
  { now apply setRow_flows. }
  change (upto 0 8) with (upto 0 (Z.to_nat (8 - 0))).
  apply flows_for_lt. intros plane Hp.
  unfold spec_plane. apply flows_seq with (Q := I).
  - change (upto 0 32) with (upto 0 (Z.to_nat (MATRIX_WIDTH - 0))).
    apply flows_for_lt. intros x Hx.
    change MATRIX_WIDTH with 32 in *. change scan with 16.
    apply flows_load with (v := pixel buffer (32 * s + x));
      [lia | apply pixel_lookup; lia |].
    apply flows_load with (v := pixel buffer (32 * (s + 16) + x));
      [lia | apply pixel_lookup; lia |].
    unfold spec_column.
    apply (flows_seq I I I _ _ [_] [_]); [|apply CLK_TOGGLE_flows].
    replace (uint8 plane) with plane
      by (unfold uint8; rewrite Z.mod_small; lia).
    now apply setRGB_flows.
  - apply flows_load with (v := pixel waits plane);
      [lia | apply pixel_lookup; simpl; lia |].
    apply showLine_flows.
Qed.

End Flow.

(** ** The scan pass, step by step *)

Lemma decode_row_testbit g :
  decode_row g
  = Z.b2z (Z.testbit (ODR_B g) 5) + 2 * Z.b2z (Z.testbit (ODR_B g) 6)
    + 4 * Z.b2z (Z.testbit (ODR_B g) 8) + 8 * Z.b2z (Z.testbit (ODR_B g) 9).
Proof.
  unfold decode_row, lineA, lineB, lineC, lineD.
  change GPIO_PIN_5 with (2 ^ 5). change GPIO_PIN_6 with (2 ^ 6).
  change GPIO_PIN_8 with (2 ^ 8). change GPIO_PIN_9 with (2 ^ 9).
  now rewrite !pin_testbit by lia.
Qed.

Lemma decode_row_same g g' :
  ODR_B g' = ODR_B g -> decode_row g' = decode_row g.
Proof. intros H. now rewrite !decode_row_testbit, H. Qed.

Lemma decode_row_setRow s m g' :
  0 <= s < 16 ->
  (forall k, 0 <= k ->
     Z.testbit (ODR_B g') k
     = if k =? 5 then Z.testbit s 0
       else if k =? 6 then Z.testbit s 1
       else if k =? 8 then Z.testbit s 2
       else if k =? 9 then Z.testbit s 3
       else Z.testbit (ODR_B (pins m)) k) ->
  decode_row g' = s.
Proof.
  intros Hs Hk. rewrite decode_row_testbit, !Hk by lia. cbn [Z.eqb Pos.eqb].
  assert (Hcases : s = 0 \/ s = 1 \/ s = 2 \/ s = 3 \/ s = 4 \/ s = 5 \/
                   s = 6 \/ s = 7 \/ s = 8 \/ s = 9 \/ s = 10 \/ s = 11 \/
                   s = 12 \/ s = 13 \/ s = 14 \/ s = 15) by lia.
  clear Hk Hs.
  repeat (destruct Hcases as [->|Hcases]; [reflexivity|]).
  subst s. reflexivity.
Qed.

Lemma decode_row_oe_set g :
  decode_row (with_odr PortB (Z.lor (ODR_B g) GPIO_PIN_10) g) = decode_row g.
Proof.
  rewrite !decode_row_testbit. cbn [with_odr ODR_B].
  change GPIO_PIN_10 with (2 ^ 10). rewrite !testbit_set by lia.
  cbn [Z.eqb Pos.eqb]. now rewrite !orb_false_r.
Qed.

Lemma decode_row_oe_clear g :
  decode_row (with_odr PortB (Z.ldiff (ODR_B g) GPIO_PIN_10) g) = decode_row g.
Proof.
  rewrite !decode_row_testbit. cbn [with_odr ODR_B].
  change GPIO_PIN_10 with (2 ^ 10). rewrite !testbit_clear by lia.
  cbn [Z.eqb Pos.eqb negb]. now rewrite !andb_true_r.
Qed.

Lemma scan_step_other e g g' ws :
  match e with
  | EvClkToggle | EvStrobe | EvDispOn => True
  | _ => False
  end ->
  ODR_A g' = ODR_A g ->
  decode_row g' = decode_row g ->
  scan_step {| ev := e; pre := g; post := g'; during := ws |}.
Proof.
  intros He HA Hd. unfold scan_step, keeps_address, nop_shown, drives_lines.
  cbn [ev pre post].
  destruct e; try contradiction; cbn;
    (split; [exact Hd|]); (split; [discriminate|]); (split; [exact I|]);
    (split; [intros _; exact HA | discriminate]).
Qed.

Lemma setRow_scan s :
  0 <= s < 16 -> flows scan_step any_pins (setRow s) [EvSetRow s] any_pins.
Proof.
  intros Hs. apply flows_step. intros m0 _.
  destruct (setRow_run s m0) as (g' & ws & Hr & HA & _ & Hk). exists g', ws.
  split; [exact Hr|]. split; [|exact I].
  unfold scan_step, keeps_address, nop_shown, drives_lines. cbn [ev pre post].
  split; [now apply decode_row_setRow with (m := m0)|].
  split; [discriminate|]. split; [exact I|].
  split; [intros _; exact HA | discriminate].
Qed.

Lemma setRGB_scan rgb1 rgb2 plane :
  0 <= plane < 8 ->
  flows scan_step any_pins (setRGB rgb1 rgb2 plane)
    [EvSetRGB rgb1 rgb2 plane] any_pins.
Proof.
  intros Hp. apply flows_step. intros m0 _.
  destruct (setRGB_run rgb1 rgb2 plane m0)
    as (g' & ws & Hr & HB & _ & Hk); [lia|].
  exists g', ws. split; [exact Hr|]. split; [|exact I].
  unfold scan_step, keeps_address, nop_shown, drives_lines. cbn [ev pre post].
  split; [now apply decode_row_same|].
  split; [discriminate|].
  split; [apply setRGB_drives_bits with (m := m0); [lia | exact Hk]|].
  split; discriminate.
Qed.

Lemma CLK_TOGGLE_scan :
  flows scan_step any_pins CLK_TOGGLE [EvClkToggle] any_pins.
Proof.
  apply flows_step. intros m0 _.
  destruct (CLK_TOGGLE_run m0) as (g' & ws & Hr & HA & HB). exists g', ws.
  split; [exact Hr|]. split; [|exact I].
  apply scan_step_other; [exact I | exact HA | now apply decode_row_same].
Qed.

Lemma STROBE_scan : flows scan_step any_pins STROBE [EvStrobe] any_pins.
Proof.
  apply flows_step. intros m0 _.
  destruct (STROBE_run m0) as (g' & ws & Hr & HA & HB). exists g', ws.
  split; [exact Hr|]. split; [|exact I].
  apply scan_step_other; [exact I | exact HA | now apply decode_row_same].
Qed.

Lemma DISP_ON_scan : flows scan_step any_pins DISP_ON [EvDispOn] shown.
Proof.
  apply flows_step. intros m0 _. do 2 eexists.
  split; [apply DISP_ON_run|]. split; [|apply DISP_ON_enables].
  apply scan_step_other; [exact I | reflexivity | apply decode_row_oe_clear].
Qed.

Lemma NOP_scan : flows scan_step shown NOP [EvNop] shown.
Proof.
  apply flows_step. intros m0 Hm0. do 2 eexists.
  split; [apply NOP_run|]. split; [|exact Hm0].
  unfold scan_step, keeps_address, nop_shown, drives_lines. cbn [ev pre post].
  split; [reflexivity|]. split; [intros _; now split|].
  split; [exact I|]. split; [reflexivity | discriminate].
Qed.

Lemma DISP_OFF_scan : flows scan_step shown DISP_OFF [EvDispOff] any_pins.
Proof.
  apply flows_step. intros m0 _. do 2 eexists.
  split; [apply DISP_OFF_run|]. split; [|exact I].
  unfold scan_step, keeps_address, nop_shown, drives_lines. cbn [ev pre post].
  split; [apply decode_row_oe_set|]. split; [discriminate|].
  split; [exact I|]. split; [reflexivity|].
  intros _. apply DISP_OFF_blanks.
Qed.

Lemma showLine_scan amount m :
  exists new m',
    showLine amount m = Some (tt, m') /\
    history m' = history m ++ new /\
    map ev new = spec_hold amount /\
    Forall scan_step new /\
    chained (pins m) new (pins m').
Proof.
  destruct (showLine_flows scan_step any_pins shown STROBE_scan DISP_ON_scan
              NOP_scan DISP_OFF_scan amount m I)
    as (new & m' & Hr & Hh & He & HE & Hc & _).
  exists new, m'. auto.
Qed.

Lemma scan_flows buffer m :
  length buffer = 1024%nat ->
  exists new m',
    displayBuffer buffer m = Some (tt, m') /\
    history m' = history m ++ new /\
    map ev new = spec_scan buffer /\
    Forall scan_step new /\
    chained (pins m) new (pins m').
Proof.
  intros Hlen.
  destruct (displayBuffer_flows scan_step any_pins shown setRow_scan
              setRGB_scan CLK_TOGGLE_scan STROBE_scan DISP_ON_scan NOP_scan
              DISP_OFF_scan buffer Hlen m I)
    as (new & m' & Hr & Hh & He & HE & Hc & _).
  exists new, m'. auto.
Qed.

(** ** The latch and output-enable lines *)

Lemma latch_testbit g : latch g = Z.testbit (ODR_C g) 0.
Proof. unfold latch. change GPIO_PIN_0 with (2 ^ 0). now apply pin_testbit. Qed.

Lemma lines_as_B g b n reg :
  0 <= n -> n <> 10 ->
  Z.testbit reg 10 = Z.testbit (ODR_B g) 10 ->
  Z.testbit (drive b reg (2 ^ n)) 10 = Z.testbit (ODR_B g) 10.
Proof.
  intros Hn Hne H. rewrite testbit_drive by lia.
  destruct (Z.eqb_spec 10 n); [lia | exact H].
Qed.

Lemma lines_as_intro g g' :
  Z.testbit (ODR_C g') 0 = Z.testbit (ODR_C g) 0 ->
  Z.testbit (ODR_B g') 10 = Z.testbit (ODR_B g) 10 ->
  lines_as g g'.
Proof.
  intros HC HB. unfold lines_as.
  rewrite !latch_testbit, !display_enabled_testbit, HC, HB. now split.
Qed.

Lemma setRow_levels s :
  flows line_levels any_pins (setRow s) [EvSetRow s] any_pins.
Proof.
  apply flows_step. intros m0 _. unfold setRow. run_drives.
  do 2 eexists. split; [reflexivity|]. split; [|exact I].
  unfold line_levels. cbn [ev pre post during rev app List.last].
  split; [reflexivity|].
  change GPIO_PIN_5 with (2 ^ 5). change GPIO_PIN_6 with (2 ^ 6).
  change GPIO_PIN_8 with (2 ^ 8). change GPIO_PIN_9 with (2 ^ 9).
  repeat (apply Forall_cons; split;
          [apply lines_as_intro; cbn [ODR_B ODR_C];
           [reflexivity | repeat (apply lines_as_B; [lia | lia |]); reflexivity]
          |]).
  apply Forall_nil. exact I.
Qed.

Lemma setRGB_levels rgb1 rgb2 plane :
  flows line_levels any_pins (setRGB rgb1 rgb2 plane)
    [EvSetRGB rgb1 rgb2 plane] any_pins.
Proof.
  apply flows_step. intros m0 _. unfold setRGB. run_drives.
  do 2 eexists. split; [reflexivity|]. split; [|exact I].
  unfold line_levels. cbn [ev pre post during rev app List.last].
  split; [reflexivity|].
  repeat (apply Forall_cons; split;
          [apply lines_as_intro; cbn [ODR_B ODR_C]; reflexivity|]).
  apply Forall_nil. exact I.
Qed.

Lemma CLK_TOGGLE_levels :
  flows line_levels any_pins CLK_TOGGLE [EvClkToggle] any_pins.
Proof.
  apply flows_step. intros m0 _. do 2 eexists.
  split; [reflexivity|]. split; [|exact I].
  unfold line_levels. cbn [ev pre post during rev app List.last written pins].
  split; [reflexivity|].
  assert (Hbit : forall c, Z.testbit (Z.lxor c (Z.shiftl 1 7)) 0
                           = Z.testbit c 0).
  { intros c. rewrite Z.lxor_spec. change (Z.testbit (Z.shiftl 1 7) 0) with false.
    apply xorb_false_r. }
  repeat (apply Forall_cons; split;
          [apply lines_as_intro;
           cbn [pins with_odr odr ODR_B ODR_C];
           [rewrite ?Hbit; reflexivity | reflexivity]
          |]).
  apply Forall_nil. exact I.
Qed.

Lemma STROBE_levels : flows line_levels any_pins STROBE [EvStrobe] any_pins.
Proof.
  apply flows_step. intros m0 _. do 2 eexists.
  split; [reflexivity|]. split; [|exact I].
  unfold line_levels. cbn [ev pre post during rev app List.last written pins].
  split; [reflexivity|]. eexists. split; [reflexivity|].
  rewrite !latch_testbit, !display_enabled_testbit.
  cbn [pins with_odr odr ODR_B ODR_C]. change GPIO_PIN_0 with (2 ^ 0).
  rewrite testbit_clear, !testbit_set by lia.
  split; [apply orb_true_r|]. split; [apply andb_false_r|]. now split.
Qed.

Lemma DISP_ON_levels : flows line_levels any_pins DISP_ON [EvDispOn] shown.
Proof.
  apply flows_step. intros m0 _. do 2 eexists.
  split; [apply DISP_ON_run|]. split; [|apply DISP_ON_enables].
  unfold line_levels. cbn [ev pre post during List.last].
  split; [reflexivity|]. split; [reflexivity|].
  split; [apply DISP_ON_enables | reflexivity].
Qed.

Lemma NOP_levels : flows line_levels shown NOP [EvNop] shown.
Proof.
  apply flows_step. intros m0 Hm0. do 2 eexists.
  split; [apply NOP_run|]. split; [|exact Hm0].
  unfold line_levels. cbn [ev pre post during List.last].
  split; [reflexivity|]. split; [reflexivity | exact Hm0].
Qed.

Lemma DISP_OFF_levels : flows line_levels shown DISP_OFF [EvDispOff] any_pins.
Proof.
  apply flows_step. intros m0 _. do 2 eexists.
  split; [apply DISP_OFF_run|]. split; [|exact I].
  unfold line_levels. cbn [ev pre post during List.last].
  split; [reflexivity|]. split; [reflexivity|].
  split; [apply DISP_OFF_blanks | reflexivity].
Qed.

Lemma scan_levels buffer m :
  length buffer = 1024%nat ->
  exists new m',
    displayBuffer buffer m = Some (tt, m') /\
    history m' = history m ++ new /\
    map ev new = spec_scan buffer /\
    Forall line_levels new /\
    chained (pins m) new (pins m').
Proof.
  intros Hlen.
  destruct (displayBuffer_flows line_levels any_pins shown
              (fun s _ => setRow_levels s)
              (fun rgb1 rgb2 plane _ => setRGB_levels rgb1 rgb2 plane)
              CLK_TOGGLE_levels STROBE_levels DISP_ON_levels NOP_levels
              DISP_OFF_levels buffer Hlen m I)
    as (new & m' & Hr & Hh & He & HE & Hc & _).
  exists new, m'. auto.
Qed.

(** Two captures of the same run are the same. *)
Lemma capture_unique {A} (c : M A) m a1 a2 m1 m2 new1 new2 :
  c m = Some (a1, m1) -> c m = Some (a2, m2) ->
  history m1 = history m ++ new1 -> history m2 = history m ++ new2 ->
  new1 = new2.
Proof.
  intros H1 H2 Hh1 Hh2. rewrite H1 in H2. apply run_inj in H2. subst m2.
  rewrite Hh1 in Hh2. now apply app_inv_head in Hh2.
Qed.

(** * Main results *)

(** C1: for every framebuffer, one call of [displayBuffer] succeeds and
    what it appends to the capture is, row-pair by row-pair for the 16
    row-pairs in ascending order, the row address followed for each of
    the planes 0 to 7 by the 32 column drives in ascending column order
    (each with its clock pulse), then one latch pulse, display on, the
    hold and display off.  Each row-pair has 256 column drives, 8 latch
    pulses and 8 holds of durations [waits] in plane order; the pass has
    4096 column drives, 128 latch pulses and 128 holds.  On the pins:
    every [setRow] leaves the address lines reading its row-pair and no
    other step moves them; every column drive leaves the six color lines
    at the bits of its two pixels and no other step changes port A; every
    latch step raises PC0 with its first write and lowers it with its
    second; every display-on is one write that enables the display, every
    [nop] of a hold runs with the display enabled, every display-off is
    one write that disables it; no write of any other step moves the latch
    line or output enable; and each step begins with the registers as the
    step before it left them. *)
Theorem displayBuffer_scan_pass (buffer : list Z) (m : machine) :
  length buffer = 1024%nat ->
  exists new m',
    displayBuffer buffer m = Some (tt, m') /\
    history m' = history m ++ new /\
    map ev new = flat_map (spec_row buffer) (upto 0 16) /\
    (forall s,
       count is_setRow (spec_row buffer s) = 1 /\
       count is_setRGB (spec_row buffer s) = 8 * 32 /\
       count is_strobe (spec_row buffer s) = 8 /\
       count is_dispOn (spec_row buffer s) = 8 /\
       holds None (spec_row buffer s) = waits) /\
    count is_setRow (map ev new) = 16 /\
    count is_setRGB (map ev new) = 4096 /\
    count is_strobe (map ev new) = 128 /\
    count is_dispOn (map ev new) = 128 /\
    length (holds None (map ev new)) = 128%nat /\
    holds None (map ev new) = concat (replicate 16 waits) /\
    Forall scan_step new /\
    Forall line_levels new /\
    chained (pins m) new (pins m').
Proof.
  intros Hlen.
  destruct (scan_flows buffer m Hlen) as (new & m' & Hr & Hh & He & Hbits & _).
  destruct (scan_levels buffer m Hlen)
    as (new' & m'' & Hr' & Hh' & _ & Hl & Hc).
  assert (Hm : m'' = m').
  { rewrite Hr in Hr'. symmetry. exact (run_inj _ _ _ _ Hr'). }
  subst m''.
  assert (Hnew : new' = new)
    by exact (capture_unique _ _ _ _ _ _ _ _ Hr' Hr Hh' Hh).
  subst new'.
  exists new, m'. rewrite He.
  destruct (spec_scan_counts buffer) as (H1 & H2 & H3 & H4 & H5).
  split; [exact Hr|]. split; [exact Hh|]. split; [reflexivity|].
  split; [intros s; apply spec_row_counts|].
  rewrite H1, H2, H3, H4, H5.
  do 5 (split; [reflexivity|]). split; [reflexivity|].
  split; [exact Hbits|]. split; [exact Hl | exact Hc].
Qed.

Lemma displayBuffer_scan_pass_witness :
  exists new m',
    displayBuffer (replicate 1024 0) idle = Some (tt, m') /\
    history m' = history idle ++ new /\
    map ev new = flat_map (spec_row (replicate 1024 0)) (upto 0 16) /\
    (forall s,
       count is_setRow (spec_row (replicate 1024 0) s) = 1 /\
       count is_setRGB (spec_row (replicate 1024 0) s) = 8 * 32 /\
       count is_strobe (spec_row (replicate 1024 0) s) = 8 /\
       count is_dispOn (spec_row (replicate 1024 0) s) = 8 /\
       holds None (spec_row (replicate 1024 0) s) = waits) /\
    count is_setRow (map ev new) = 16 /\
    count is_setRGB (map ev new) = 4096 /\
    count is_strobe (map ev new) = 128 /\
    count is_dispOn (map ev new) = 128 /\
    length (holds None (map ev new)) = 128%nat /\
    holds None (map ev new) = concat (replicate 16 waits) /\
    Forall scan_step new /\
    Forall line_levels new /\
    chained (pins idle) new (pins m').
Proof.
  apply (displayBuffer_scan_pass (replicate 1024 0) idle). reflexivity.
Defined.

(** C3: the weight table has 8 entries, each after the first is twice the
    one before it, and the entries are 1, 2, 4, ..., 128 times the first;
    the holds of a row-pair last exactly these numbers of [nop]s. *)
Theorem waits_double :
  length waits = 8%nat /\
  Forall2 (fun a b => b = 2 * a) (removelast waits) (tl waits) /\
  waits = map (fun k => 2 ^ k * pixel waits 0) (upto 0 8) /\
  map (fun d => d / pixel waits 0) waits = [1; 2; 4; 8; 16; 32; 64; 128] /\
  forall buffer s, holds None (spec_row buffer s) = waits.
Proof.
  split; [reflexivity|].
  split; [cbn; repeat constructor|].
  split; [reflexivity|]. split; [reflexivity|].
  intros buffer s. apply spec_row_counts.
Qed.

(** C5: for a row-pair index 0..15 [setRow] succeeds and leaves address
    line k high exactly when bit k of the index is 1, for the four lines,
    so that the lines read back as the index. *)
Theorem setRow_address (row : Z) (m : machine) :
  0 <= row <= 15 ->
  exists m',
    setRow row m = Some (tt, m') /\
    lineA (pins m') = Z.testbit row 0 /\
    lineB (pins m') = Z.testbit row 1 /\
    lineC (pins m') = Z.testbit row 2 /\
    lineD (pins m') = Z.testbit row 3 /\
    decode_row (pins m') = row.
Proof.
  intros Hrow.
  destruct (setRow_run row m) as (g' & ws & Hr & _ & _ & Hk).
  eexists. split; [exact Hr|]. cbn [captured pins].
  assert (HA : lineA g' = Z.testbit row 0).
  { unfold lineA. change GPIO_PIN_5 with (2 ^ 5).
    rewrite pin_testbit by lia. now rewrite Hk by lia. }
  assert (HB : lineB g' = Z.testbit row 1).
  { unfold lineB. change GPIO_PIN_6 with (2 ^ 6).
    rewrite pin_testbit by lia. now rewrite Hk by lia. }
  assert (HC : lineC g' = Z.testbit row 2).
  { unfold lineC. change GPIO_PIN_8 with (2 ^ 8).
    rewrite pin_testbit by lia. now rewrite Hk by lia. }
  assert (HD : lineD g' = Z.testbit row 3).
  { unfold lineD. change GPIO_PIN_9 with (2 ^ 9).
    rewrite pin_testbit by lia. now rewrite Hk by lia. }
  repeat (split; [assumption|]).
  unfold decode_row. rewrite HA, HB, HC, HD.
  assert (Hcases : row = 0 \/ row = 1 \/ row = 2 \/ row = 3 \/ row = 4 \/
                   row = 5 \/ row = 6 \/ row = 7 \/ row = 8 \/ row = 9 \/
                   row = 10 \/ row = 11 \/ row = 12 \/ row = 13 \/
                   row = 14 \/ row = 15) by lia.
  repeat (destruct Hcases as [->|Hcases]; [reflexivity|]).
  subst row. reflexivity.
Qed.

Lemma setRow_address_witness :
  exists m',
    setRow 11 idle = Some (tt, m') /\
    lineA (pins m') = Z.testbit 11 0 /\
    lineB (pins m') = Z.testbit 11 1 /\
    lineC (pins m') = Z.testbit 11 2 /\
    lineD (pins m') = Z.testbit 11 3 /\
    decode_row (pins m') = 11.
Proof. apply (setRow_address 11 idle). lia. Defined.

(** C2: for every pair of pixel values and every plane 0..7, [setRGB]
    leaves the six color lines at bits plane, plane+8 and plane+16 of
    [rgb1] and of [rgb2]; and in a scan of the framebuffer whose only
    non-zero pixel is (0,0) = 0x50, the drive of column 0 of row-pair 0 in
    that plane leaves the top-half channel-A line high exactly when the
    plane is 4 or 6. *)
Theorem setRGB_color_lines (rgb1 rgb2 plane : Z) (m : machine) :
  0 <= plane <= 7 ->
  (exists m',
     setRGB rgb1 rgb2 plane m = Some (tt, m') /\
     r1 (pins m') = Z.testbit rgb1 plane /\
     g1 (pins m') = Z.testbit rgb1 (plane + 8) /\
     b1 (pins m') = Z.testbit rgb1 (plane + 16) /\
     r2 (pins m') = Z.testbit rgb2 plane /\
     g2 (pins m') = Z.testbit rgb2 (plane + 8) /\
     b2 (pins m') = Z.testbit rgb2 (plane + 16)) /\
  (exists new m' x,
     displayBuffer lone_pixel m = Some (tt, m') /\
     history m' = history m ++ new /\
     nth_error (drives new) (Z.to_nat (32 * plane)) = Some x /\
     ev x = EvSetRGB (pixel lone_pixel 0) (pixel lone_pixel 512) plane /\
     pixel lone_pixel 0 = 0x50 /\
     (r1 (post x) = true <-> plane = 4 \/ plane = 6)).
Proof.
  intros Hp. split.
  - destruct (setRGB_run rgb1 rgb2 plane m) as (g' & ws & Hr & _ & _ & Hk); [lia|].
    eexists. split; [exact Hr|]. cbn [captured pins].
    apply setRGB_drives_bits with (m := m); [lia | exact Hk].
  - destruct (scan_drives lone_pixel m) as (new & m' & Hr & Hh & He & HE);
      [reflexivity|].
    pose proof (lone_pixel_column0 plane Hp) as Hn.
    rewrite <- He, <- map_ev_drives in Hn.
    rewrite nth_error_map in Hn.
    destruct (nth_error (drives new) (Z.to_nat (32 * plane))) as [x|] eqn:Hx;
      [|discriminate].
    cbn in Hn. injection Hn as Hev.
    exists new, m', x. split; [exact Hr|]. split; [exact Hh|].
    split; [exact Hx|]. split; [exact Hev|]. split; [reflexivity|].
    assert (Hb : drives_bits x).
    { apply (Forall_In_stdlib _ new); [exact HE|].
      apply drives_incl. eapply nth_error_In; eauto. }
    unfold drives_bits in Hb. rewrite Hev in Hb.
    destruct Hb as (Hr1 & _); [lia|]. rewrite Hr1.
    clear - Hp.
    assert (Hcases : plane = 0 \/ plane = 1 \/ plane = 2 \/ plane = 3 \/
                     plane = 4 \/ plane = 5 \/ plane = 6 \/ plane = 7) by lia.
    clear Hp.
    repeat (destruct Hcases as [->|Hcases];
            [vm_compute (Z.testbit _ _);
             split; [intros H | intros [H|H]];
             first [reflexivity | discriminate H | lia]|]).
    subst plane. vm_compute (Z.testbit _ _).
    split; [intros H | intros [H|H]];
      first [reflexivity | discriminate H | lia].
Qed.

Lemma setRGB_color_lines_witness :
  (exists m',
     setRGB 0x50 0 6 idle = Some (tt, m') /\
     r1 (pins m') = Z.testbit 0x50 6 /\
     g1 (pins m') = Z.testbit 0x50 (6 + 8) /\
     b1 (pins m') = Z.testbit 0x50 (6 + 16) /\
     r2 (pins m') = Z.testbit 0 6 /\
     g2 (pins m') = Z.testbit 0 (6 + 8) /\
     b2 (pins m') = Z.testbit 0 (6 + 16)) /\
  (exists new m' x,
     displayBuffer lone_pixel idle = Some (tt, m') /\
     history m' = history idle ++ new /\
     nth_error (drives new) (Z.to_nat (32 * 6)) = Some x /\
     ev x = EvSetRGB (pixel lone_pixel 0) (pixel lone_pixel 512) 6 /\
     pixel lone_pixel 0 = 0x50 /\
     (r1 (post x) = true <-> 6 = 4 \/ 6 = 6)).
Proof. apply (setRGB_color_lines 0x50 0 6 idle). lia. Defined.

(** C9: in [main] run from reset through any number of turns of its
    loop, every [setRow] and every [setRGB] captured found the display
    disabled when it began and left it disabled when it ended, and the
    display is disabled between frames; and any scan pass begun with the
    display disabled has the display disabled at the start and at the end
    of each of its [setRow] and [setRGB] calls, and ends with it
    disabled. *)
Theorem display_off_while_addressing
    (rnd : nat -> Z) (n : nat) (buffer : list Z) (m : machine) :
  (forall k, 0 <= rnd k) ->
  length buffer = 1024%nat ->
  display_enabled (pins m) = false ->
  (exists w,
     main_run n (boot rnd) = Some (Z.of_nat n, w) /\
     (forall x, In x (history (hw w)) ->
        is_setRow (ev x) = true \/ is_setRGB (ev x) = true ->
        display_enabled (pre x) = false /\ display_enabled (post x) = false) /\
     display_enabled (pins (hw w)) = false) /\
  (exists new m',
     displayBuffer buffer m = Some (tt, m') /\
     history m' = history m ++ new /\
     (forall x, In x new ->
        is_setRow (ev x) = true \/ is_setRGB (ev x) = true ->
        display_enabled (pre x) = false /\ display_enabled (post x) = false) /\
     display_enabled (pins m') = false).
Proof.
  intros Hrnd Hlen Hdark. split.
  - destruct (main_run_ok rnd n Hrnd) as (w & Hr & (_ & Hd & HE) & _).
    exists w. split; [exact Hr|]. split; [|exact Hd].
    intros x Hin Hev. apply (Forall_In_stdlib _ _ x HE Hin).
    unfold addressing_or_shifting. apply orb_true_iff. exact Hev.
  - destruct (scan_blanked buffer m Hlen Hdark)
      as (new & m' & Hr & Hh & _ & HE & Hd).
    exists new, m'. repeat (split; [assumption|]). split; [|exact Hd].
    intros x Hin Hev. apply (Forall_In_stdlib _ new x HE Hin).
    unfold addressing_or_shifting. apply orb_true_iff. exact Hev.
Qed.

Lemma display_off_while_addressing_witness :
  (exists w,
     main_run 3 (boot (fun _ => 7)) = Some (Z.of_nat 3, w) /\
     (forall x, In x (history (hw w)) ->
        is_setRow (ev x) = true \/ is_setRGB (ev x) = true ->
        display_enabled (pre x) = false /\ display_enabled (post x) = false) /\
     display_enabled (pins (hw w)) = false) /\
  (exists new m',
     displayBuffer lone_pixel blank_machine = Some (tt, m') /\
     history m' = history blank_machine ++ new /\
     (forall x, In x new ->
        is_setRow (ev x) = true \/ is_setRGB (ev x) = true ->
        display_enabled (pre x) = false /\ display_enabled (post x) = false) /\
     display_enabled (pins m') = false).
Proof.
  apply (display_off_while_addressing (fun _ => 7) 3 lone_pixel blank_machine).
  - intros k. lia.
  - reflexivity.
  - reflexivity.
Defined.

(** C4: the table [main] builds maps 0 to 0 but 255 to 253, the integer
    part of 255 * (255/256)^1.6: the index is divided by 256.0, so the
    argument of [pow] never reaches 1 and the table never reaches 255. *)
Theorem gamma_table_top rnd :
  exists w,
    main_init (boot rnd) = Some (tt, w) /\
    pixel (gammaTable w) 0 = 0 /\
    pixel (gammaTable w) 255 = 253 /\
    pixel (gammaTable w) 255 <> 255 /\
    gamma_fits 253 255 = true /\
    gamma_fits 254 255 = false.
Proof.
  exists (initial_world rnd).
  destruct (initial_world_eq rnd) as (Hrun & Hw).
  split; [exact Hrun|]. rewrite Hw. world_simpl.
  assert (H0 : pixel gamma_built 0 = 0) by (vm_compute; reflexivity).
  assert (H255 : pixel gamma_built 255 = 253) by (vm_compute; reflexivity).
  rewrite H0, H255.
  repeat apply conj; try reflexivity. clear. intros H. discriminate H.
Qed.

(** C6: a call of [randomizeFramebuffer] succeeds, advances the counter
    modulo 256, takes as ceiling the table entry at the new counter or 1
    if that entry is 0, so the ceiling is at least 1, and leaves in every
    pixel three channels none of which exceeds the ceiling. *)
Theorem randomize_below_ceiling (w : world) (i : Z) :
  started w ->
  0 <= i < MATRIX_SIZE ->
  exists w',
    randomizeFramebuffer w = Some (tt, w') /\
    counter w' = (counter w + 1) mod 256 /\
    ceiling (counter w') = Z.max 1 (pixel (gammaTable w) (counter w')) /\
    1 <= ceiling (counter w') /\
    channelA (pixel (framebuffer w') i) <= ceiling (counter w') /\
    channelB (pixel (framebuffer w') i) <= ceiling (counter w') /\
    channelC (pixel (framebuffer w') i) <= ceiling (counter w').
Proof.
  intros Hw Hi.
  destruct (randomize_run w Hw) as (w' & Hr & Hw' & _ & _ & Hc & Hpix).
  exists w'. split; [exact Hr|]. split; [exact Hc|].
  destruct Hw as (_ & Hg & _). destruct Hw' as (_ & _ & Hc' & _).
  destruct (ceiling_bounds _ Hc') as (Hmax & _).
  destruct (gamma_built_facts _ Hc') as (_ & H0 & _).
  split.
  - rewrite Hg. unfold ceiling.
    destruct (Z.eqb_spec (pixel gamma_built (counter w')) 0); lia.
  - split; [lia|]. apply Hpix. exact Hi.
Qed.

Lemma randomize_below_ceiling_witness :
  exists w',
    randomizeFramebuffer (initial_world (fun _ => 7)) = Some (tt, w') /\
    counter w' = (counter (initial_world (fun _ => 7)) + 1) mod 256 /\
    ceiling (counter w')
    = Z.max 1 (pixel (gammaTable (initial_world (fun _ => 7))) (counter w')) /\
    1 <= ceiling (counter w') /\
    channelA (pixel (framebuffer w') 5) <= ceiling (counter w') /\
    channelB (pixel (framebuffer w') 5) <= ceiling (counter w') /\
    channelC (pixel (framebuffer w') 5) <= ceiling (counter w').
Proof.
  apply (randomize_below_ceiling (initial_world (fun _ => 7)) 5).
  - apply initial_world_running. intros k. lia.
  - vm_compute. split; [discriminate | reflexivity].
Defined.

(** C7: [main] run from reset through 1000 turns of its loop succeeds
    with the frame counter at 1000, and by then has called
    [randomizeFramebuffer] 200 times and sent the heartbeat message 5
    times (and shown 500 test frames and 1000 loop frames). *)
Theorem main_thousand_frames (rnd : nat -> Z) :
  (forall k, 0 <= rnd k) ->
  exists w,
    main_run 1000 (boot rnd) = Some (1000, w) /\
    count_calls is_randomize (journal w) = 200 /\
    count_calls is_heartbeat (journal w) = 5 /\
    count_calls is_display (journal w) = 500 + 1000.
Proof.
  intros Hrnd.
  destruct (main_run_ok rnd 1000 Hrnd) as (w & Hr & _ & Hd & Hz & Hh).
  exists w. split; [exact Hr|]. rewrite Hd, Hz, Hh.
  repeat split; reflexivity.
Qed.

Lemma main_thousand_frames_witness :
  exists w,
    main_run 1000 (boot (fun _ => 7)) = Some (1000, w) /\
    count_calls is_randomize (journal w) = 200 /\
    count_calls is_heartbeat (journal w) = 5 /\
    count_calls is_display (journal w) = 500 + 1000.
Proof. apply (main_thousand_frames (fun _ => 7)). intros k. lia. Defined.

(** C8 as stated fails: the pixel at index 1023 has two non-zero
    channels, so not every corner has exactly one. *)
Lemma test_pattern_corner_1023_two_channels :
  ~ (exists w,
       main_init (boot (fun _ => 0)) = Some (tt, w) /\
       forall i, In i corners -> lit_channels (pixel (framebuffer w) i) = 1).
Proof.
  intros (w & Hrun & Hall).
  destruct (initial_world_eq (fun _ => 0)) as (Hinit & Hw).
  rewrite Hinit in Hrun. apply run_inj in Hrun. subst w.
  assert (Hin : In 1023 corners) by (cbn; auto).
  specialize (Hall 1023 Hin).
  rewrite Hw in Hall. world_simpl. clear - Hall.
  vm_compute in Hall. discriminate Hall.
Qed.

(** C8, amended: the startup test pattern leaves exactly the four corner
    pixels (0, 31, 992, 1023) non-zero, with the distinct values 0x50,
    0x5000, 0x500000 and 0x505000; the first three have exactly one
    non-zero channel, the fourth has two. *)
Theorem test_pattern_corners (rnd : nat -> Z) (i : Z) :
  0 <= i < MATRIX_SIZE ->
  exists w,
    main_init (boot rnd) = Some (tt, w) /\
    length (framebuffer w) = 1024%nat /\
    (pixel (framebuffer w) i <> 0 <-> In i corners) /\
    map (pixel (framebuffer w)) corners
    = [0x00000050; 0x00005000; 0x00500000; 0x00505000] /\
    NoDup (map (pixel (framebuffer w)) corners) /\
    map (fun c => lit_channels (pixel (framebuffer w) c)) corners
    = [1; 1; 1; 2].
Proof.
  intros Hi. exists (initial_world rnd).
  destruct (initial_world_eq rnd) as (Hrun & Hw).
  split; [exact Hrun|]. rewrite Hw. world_simpl.
  split; [reflexivity|]. split.
  - set (fb := <[1023%nat:=_]> _).
    set (p := fun k => Bool.eqb (bool_decide (pixel fb k <> 0))
                          (bool_decide (In k corners))).
    assert (Hcheck : p i = true).
    { apply (forallb_upto p 1024 0); [vm_compute; reflexivity|].
      change MATRIX_SIZE with 1024 in Hi. lia. }
    subst p.
    cbv beta in Hcheck. apply Bool.eqb_prop in Hcheck.
    rewrite <- (bool_decide_spec (pixel fb i <> 0)).
    rewrite <- (bool_decide_spec (In i corners)).
    now rewrite Hcheck.
  - split; [reflexivity|]. split; [|reflexivity].
    change (NoDup [0x00000050; 0x00005000; 0x00500000; 0x00505000]).
    compute_done.
Qed.

Lemma test_pattern_corners_witness :
  exists w,
    main_init (boot (fun _ => 0)) = Some (tt, w) /\
    length (framebuffer w) = 1024%nat /\
    (pixel (framebuffer w) 1023 <> 0 <-> In 1023 corners) /\
    map (pixel (framebuffer w)) corners
    = [0x00000050; 0x00005000; 0x00500000; 0x00505000] /\
    NoDup (map (pixel (framebuffer w)) corners) /\
    map (fun c => lit_channels (pixel (framebuffer w) c)) corners
    = [1; 1; 1; 2].
Proof.
  apply (test_pattern_corners (fun _ => 0) 1023).
  vm_compute. split; [discriminate | reflexivity].
Defined.

(** An access outside the array is a failure of the model: a framebuffer
    one pixel short stops the scan at its last column. *)
Example displayBuffer_short_buffer_fails :
  displayBuffer (replicate 1023 0) idle = None.
Proof. vm_compute. reflexivity. Qed.

Example load_outside_fails :
  load (S := unit) waits 8 tt = None /\ load (S := unit) waits (-1) tt = None.
Proof. split; reflexivity. Qed.

(** C10: with the state [main] keeps, the framebuffer indices
    [32*s + x] and [32*(s+16) + x] of a scan lie in [0, 1024) and the scan
    succeeds, so none of its reads leaves the framebuffer or the weight
    table; and [randomizeFramebuffer] succeeds, so none of its accesses
    leaves the table or the framebuffer and it never divides by zero: the
    counter it indexes the table with lies in [0, 256), the ceiling in
    [1, 255], and [rand() % ceiling] in [0, 256). *)
Theorem accesses_in_bounds (w : world) (m : machine) (s x r : Z) :
  started w ->
  0 <= s < scan ->
  0 <= x < MATRIX_WIDTH ->
  0 <= r ->
  (0 <= MATRIX_WIDTH * s + x < MATRIX_SIZE /\
   0 <= MATRIX_WIDTH * (s + scan) + x < MATRIX_SIZE) /\
  Z.of_nat (length (framebuffer w)) = MATRIX_SIZE /\
  length (gammaTable w) = 256%nat /\
  (exists m', displayBuffer (framebuffer w) m = Some (tt, m')) /\
  (exists w',
     randomizeFramebuffer w = Some (tt, w') /\
     started w' /\
     0 <= counter w' < 256 /\
     1 <= ceiling (counter w') <= 255 /\
     0 <= Z.rem r (ceiling (counter w')) < 256).
Proof.
  intros Hw Hs Hx Hr.
  change scan with 16 in *. change MATRIX_WIDTH with 32 in *.
  change MATRIX_SIZE with 1024.
  pose proof Hw as (Hlen & Hg & Hc & Hent).
  split; [lia|]. split; [lia|].
  split; [rewrite Hg; apply gamma_built_length|]. split.
  - destruct (scan_drives (framebuffer w) m Hlen) as (new & m' & Hrun & _).
    now exists m'.
  - destruct (randomize_run w Hw) as (w' & Hrun & Hw' & _).
    exists w'. split; [exact Hrun|]. split; [exact Hw'|].
    destruct Hw' as (_ & _ & Hc' & _). split; [exact Hc'|].
    destruct (ceiling_bounds _ Hc') as (Hmax & _). split; [lia|].
    pose proof (Z.rem_bound_pos r (ceiling (counter w')) Hr ltac:(lia)).
    lia.
Qed.

Lemma accesses_in_bounds_witness :
  (0 <= MATRIX_WIDTH * 15 + 31 < MATRIX_SIZE /\
   0 <= MATRIX_WIDTH * (15 + scan) + 31 < MATRIX_SIZE) /\
  Z.of_nat (length (framebuffer (initial_world (fun _ => 7)))) = MATRIX_SIZE /\
  length (gammaTable (initial_world (fun _ => 7))) = 256%nat /\
  (exists m',
     displayBuffer (framebuffer (initial_world (fun _ => 7))) idle
     = Some (tt, m')) /\
  (exists w',
     randomizeFramebuffer (initial_world (fun _ => 7)) = Some (tt, w') /\
     started w' /\
     0 <= counter w' < 256 /\
     1 <= ceiling (counter w') <= 255 /\
     0 <= Z.rem 32767 (ceiling (counter w')) < 256).
Proof.
  apply (accesses_in_bounds (initial_world (fun _ => 7)) idle 15 31 32767).
  - apply initial_world_running. intros k. lia.
  - vm_compute. split; [discriminate | reflexivity].
  - vm_compute. split; [discriminate | reflexivity].
  - lia.
Defined.

(** * Further results *)

(** ** The pins one call touches *)

Lemma gpio_eq g g' :
  ODR_A g = ODR_A g' -> ODR_B g = ODR_B g' -> ODR_C g = ODR_C g' -> g = g'.
Proof. destruct g, g'; cbn; intros; subst; reflexivity. Qed.

Lemma ldiff_drive b reg n mask :
  0 <= n -> Z.testbit mask n = true ->
  Z.ldiff (drive b reg (2 ^ n)) mask = Z.ldiff reg mask.
Proof.
  intros Hn Hmask. apply Z.bits_inj'. intros k Hk.
  rewrite !Z.ldiff_spec, testbit_drive by assumption.
  destruct (Z.eqb_spec k n) as [->|_]; [|reflexivity].
  rewrite Hmask. cbn. now rewrite !andb_false_r.
Qed.

Lemma drive_drive b c reg n :
  0 <= n -> drive c (drive b reg (2 ^ n)) (2 ^ n) = drive c reg (2 ^ n).
Proof.
  intros Hn. apply Z.bits_inj'. intros k Hk.
  rewrite !testbit_drive by assumption. now destruct (k =? n).
Qed.

(** X1: [setRow], whatever its argument, succeeds, captures one step and
    changes nothing but the four address pins PB5, PB6, PB8, PB9 (mask
    0x360): ports A and C and the other bits of port B, the output-enable
    pin among them, are as before. *)
Theorem setRow_touches_only_address (row : Z) (m : machine) :
  exists m',
    setRow row m = Some (tt, m') /\
    length (trace m') = S (length (trace m)) /\
    ODR_A (pins m') = ODR_A (pins m) /\
    ODR_C (pins m') = ODR_C (pins m) /\
    Z.ldiff (ODR_B (pins m')) 0x360 = Z.ldiff (ODR_B (pins m)) 0x360 /\
    display_enabled (pins m') = display_enabled (pins m).
Proof.
  destruct (setRow_run row m) as (g' & ws & Hr & HA & HC & Hk).
  eexists. split; [exact Hr|]. cbn [captured pins trace length].
  split; [reflexivity|]. split; [exact HA|]. split; [exact HC|]. split.
  - apply Z.bits_inj'. intros k Hk0. rewrite !Z.ldiff_spec, Hk by assumption.
    destruct (Z.eqb_spec k 5) as [->|]; [now rewrite !andb_false_r|].
    destruct (Z.eqb_spec k 6) as [->|]; [now rewrite !andb_false_r|].
    destruct (Z.eqb_spec k 8) as [->|]; [now rewrite !andb_false_r|].
    destruct (Z.eqb_spec k 9) as [->|]; [now rewrite !andb_false_r|].
    reflexivity.
  - rewrite !display_enabled_testbit. now rewrite Hk by lia.
Qed.

(** X2: [setRow] reads only the low four bits of its argument: the pins
    it leaves are those [setRow (row & 15)] leaves, so 16 addresses the
    same row-pair as 0 and -1 the same as 15. *)
Theorem setRow_low_four_bits (row : Z) (m : machine) :
  exists m1 m2,
    setRow row m = Some (tt, m1) /\
    setRow (Z.land row 15) m = Some (tt, m2) /\
    pins m1 = pins m2.
Proof.
  destruct (setRow_run row m) as (g1 & ws1 & Hr1 & HA1 & HC1 & Hk1).
  destruct (setRow_run (Z.land row 15) m) as (g2 & ws2 & Hr2 & HA2 & HC2 & Hk2).
  eexists. eexists. split; [exact Hr1|]. split; [exact Hr2|]. cbn [captured pins].
  apply gpio_eq; [congruence| |congruence].
  apply Z.bits_inj'. intros k Hk. rewrite Hk1, Hk2 by assumption.
  rewrite !Z.land_spec. cbn. now rewrite !andb_true_r.
Qed.

(** X3: of two [setRow] calls in a row the second decides the pins: they
    are what the second call alone would leave. *)
Theorem setRow_last_wins (a b : Z) (m : machine) :
  exists m2 m',
    (setRow a ;; setRow b) m = Some (tt, m2) /\
    setRow b m = Some (tt, m') /\
    pins m2 = pins m'.
Proof.
  destruct (setRow_run a m) as (g1 & ws1 & Hr1 & HA1 & HC1 & Hk1).
  set (m1 := captured _ m g1 ws1) in Hr1.
  destruct (setRow_run b m1) as (g2 & ws2 & Hr2 & HA2 & HC2 & Hk2).
  destruct (setRow_run b m) as (g' & ws & Hr' & HA' & HC' & Hk').
  eexists. eexists. split; [|split; [exact Hr'|]].
  - rewrite (bind_run _ _ _ _ _ Hr1). exact Hr2.
  - subst m1. cbn [captured pins] in *. apply gpio_eq; [congruence| |congruence].
    apply Z.bits_inj'. intros k Hk. rewrite Hk2, Hk', Hk1 by assumption.
    split_eqb.
Qed.

(** X4: [setRGB], whatever its arguments, succeeds, captures one step and
    changes nothing but the six color pins PA5 to PA10 (mask 0x7E0): ports
    B and C and the other bits of port A, the USART pins among them, are
    as before. *)
Theorem setRGB_touches_only_color (rgb1 rgb2 plane : Z) (m : machine) :
  exists m',
    setRGB rgb1 rgb2 plane m = Some (tt, m') /\
    length (trace m') = S (length (trace m)) /\
    ODR_B (pins m') = ODR_B (pins m) /\
    ODR_C (pins m') = ODR_C (pins m) /\
    Z.ldiff (ODR_A (pins m')) 0x7E0 = Z.ldiff (ODR_A (pins m)) 0x7E0.
Proof.
  unfold setRGB. run_drives.
  eexists. split; [reflexivity|]. cbn [captured pins trace length ODR_A ODR_B ODR_C].
  repeat (split; [reflexivity|]).
  change GPIO_PIN_5 with (2 ^ 5). change GPIO_PIN_6 with (2 ^ 6).
  change GPIO_PIN_7 with (2 ^ 7). change GPIO_PIN_8 with (2 ^ 8).
  change GPIO_PIN_9 with (2 ^ 9). change GPIO_PIN_10 with (2 ^ 10).
  rewrite !ldiff_drive by (try lia; reflexivity). reflexivity.
Qed.

(** X5: for a plane 0..7 [setRGB] reads only bits 0 to 23 of the two
    pixels: the pins it leaves are those it leaves for the pixels reduced
    modulo 2^24. *)
Theorem setRGB_low_24_bits (rgb1 rgb2 plane : Z) (m : machine) :
  0 <= plane <= 7 ->
  exists m1 m2,
    setRGB rgb1 rgb2 plane m = Some (tt, m1) /\
    setRGB (rgb1 mod 2 ^ 24) (rgb2 mod 2 ^ 24) plane m = Some (tt, m2) /\
    pins m1 = pins m2.
Proof.
  intros Hp.
  destruct (setRGB_run rgb1 rgb2 plane m) as (g1 & ws1 & Hr1 & HB1 & HC1 & Hk1);
    [lia|].
  destruct (setRGB_run (rgb1 mod 2 ^ 24) (rgb2 mod 2 ^ 24) plane m)
    as (g2 & ws2 & Hr2 & HB2 & HC2 & Hk2); [lia|].
  eexists. eexists. split; [exact Hr1|]. split; [exact Hr2|]. cbn [captured pins].
  apply gpio_eq; [|congruence|congruence].
  apply Z.bits_inj'. intros k Hk. rewrite Hk1, Hk2 by assumption.
  rewrite !Z.mod_pow2_bits_low by lia. reflexivity.
Qed.

Lemma setRGB_low_24_bits_witness :
  exists m1 m2,
    setRGB 0xFF00AA55 0x12345678 7 idle = Some (tt, m1) /\
    setRGB (0xFF00AA55 mod 2 ^ 24) (0x12345678 mod 2 ^ 24) 7 idle
    = Some (tt, m2) /\
    pins m1 = pins m2.
Proof. apply (setRGB_low_24_bits 0xFF00AA55 0x12345678 7 idle). lia. Defined.

(** X6: of two [setRGB] calls in a row the second decides the pins: the
    color lines keep nothing of the column driven before. *)
Theorem setRGB_last_wins (a1 a2 p b1' b2' q : Z) (m : machine) :
  0 <= p -> 0 <= q ->
  exists m2 m',
    (setRGB a1 a2 p ;; setRGB b1' b2' q) m = Some (tt, m2) /\
    setRGB b1' b2' q m = Some (tt, m') /\
    pins m2 = pins m'.
Proof.
  intros Hp Hq.
  destruct (setRGB_run a1 a2 p m Hp) as (g1 & ws1 & Hr1 & HB1 & HC1 & Hk1).
  set (m1 := captured _ m g1 ws1) in Hr1.
  destruct (setRGB_run b1' b2' q m1 Hq) as (g2 & ws2 & Hr2 & HB2 & HC2 & Hk2).
  destruct (setRGB_run b1' b2' q m Hq) as (g' & ws & Hr' & HB' & HC' & Hk').
  eexists. eexists. split; [|split; [exact Hr'|]].
  - rewrite (bind_run _ _ _ _ _ Hr1). exact Hr2.
  - subst m1. cbn [captured pins] in *. apply gpio_eq; [|congruence|congruence].
    apply Z.bits_inj'. intros k Hk. rewrite Hk2, Hk', Hk1 by assumption.
    split_eqb.
Qed.

Lemma setRGB_last_wins_witness :
  exists m2 m',
    (setRGB 0xFFFFFF 0xFFFFFF 0 ;; setRGB 0x50 0 4) idle = Some (tt, m2) /\
    setRGB 0x50 0 4 idle = Some (tt, m') /\
    pins m2 = pins m'.
Proof.
  apply (setRGB_last_wins 0xFFFFFF 0xFFFFFF 0 0x50 0 4 idle); lia.
Defined.


(** X8: [STROBE] leaves the latch line PC0 low whatever it was, and
    everything else as it was: ports A and B and the other bits of port
    C. *)
Theorem STROBE_leaves_latch_low (m : machine) :
  exists m',
    STROBE m = Some (tt, m') /\
    latch (pins m') = false /\
    ODR_A (pins m') = ODR_A (pins m) /\
    ODR_B (pins m') = ODR_B (pins m) /\
    Z.ldiff (ODR_C (pins m')) GPIO_PIN_0 = Z.ldiff (ODR_C (pins m)) GPIO_PIN_0.
Proof.
  eexists. split; [reflexivity|].
  cbn [captured pins with_odr odr ODR_A ODR_B ODR_C].
  split; [|split; [reflexivity|split; [reflexivity|]]].
  - unfold latch. cbn [ODR_C]. change GPIO_PIN_0 with (2 ^ 0).
    rewrite pin_testbit, testbit_clear by lia. apply andb_false_r.
  - apply Z.bits_inj'. intros k Hk. rewrite !Z.ldiff_spec, Z.lor_spec.
    destruct (Z.testbit (ODR_C (pins m)) k), (Z.testbit GPIO_PIN_0 k);
      reflexivity.
Qed.

(** ** Following the registers along a chained capture *)

Lemma last_where_frame {X} (F : gpio -> X) p t : forall g0 g' found,
  chained g0 t g' ->
  Forall (fun x => p (ev x) = false -> F (post x) = F (pre x)) t ->
  match found with Some x => F g0 = F (post x) | None => True end ->
  match last_where p found t with
  | Some x => F g' = F (post x)
  | None => True
  end.
Proof.
  induction t as [|x t IH]; intros g0 g' found Hc HK Hf; cbn in *.
  - subst g'. exact Hf.
  - destruct Hc as [Hpre Hc]. inversion HK as [|? ? Hx HK']; subst.
    apply (IH (post x) g'); [exact Hc | exact HK'|].
    destruct (p (ev x)) eqn:Hp; [reflexivity|].
    destruct found as [y|]; [|exact I].
    rewrite (Hx eq_refl). exact Hf.
Qed.

Lemma last_where_event p t : forall found,
  option_map ev (last_where p found t)
  = last_event p (option_map ev found) (map ev t).
Proof.
  induction t as [|x t IH]; intros found; cbn; [reflexivity|].
  rewrite IH. now destruct (p (ev x)).
Qed.

Lemma last_where_In p t : forall found x,
  last_where p found t = Some x -> found = Some x \/ In x t.
Proof.
  induction t as [|y t IH]; intros found x H; cbn in *; [now left|].
  destruct (IH _ _ H) as [Hf|Hin]; [|now right; right].
  destruct (p (ev y)); [right; left; congruence | now left].
Qed.

Lemma addressed_of_chain t : forall g0 g' cur,
  chained g0 t g' ->
  Forall keeps_address t ->
  match cur with Some r => decode_row g0 = r | None => True end ->
  addressed cur t.
Proof.
  induction t as [|x t IH]; intros g0 g' cur Hc HK Hcur; cbn in *;
    [exact I|].
  destruct Hc as [Hpre Hc]. inversion HK as [|? ? Hx HK']; subst.
  unfold keeps_address in Hx.
  destruct (ev x) eqn:Hev;
    try (split;
         [destruct cur as [r|]; [split; congruence | exact I]
         | apply (IH (post x) g'); [exact Hc | exact HK'|];
           destruct cur as [r|]; [congruence | exact I]]).
  split; [exact Hx|]. apply (IH (post x) g'); [exact Hc | exact HK' | exact Hx].
Qed.

Lemma chained_keeps {X} (F : gpio -> X) t : forall g0 g',
  chained g0 t g' ->
  Forall (fun x => F (post x) = F (pre x)) t ->
  F g' = F g0.
Proof.
  induction t as [|x t IH]; intros g0 g' Hc HK; cbn in *; [now subst|].
  destruct Hc as [Hpre Hc]. inversion HK as [|? ? Hx HK']; subst.
  rewrite (IH _ _ Hc HK'). exact Hx.
Qed.

Lemma Forall_ev (q : event -> bool) t :
  forallb q (map ev t) = true -> Forall (fun x => q (ev x) = true) t.
Proof.
  induction t as [|x t IH]; cbn; intros H; constructor;
    apply andb_true_iff in H as [H1 H2]; auto.
Qed.

Lemma Forall_both {A} (P Q : A -> Prop) l :
  Forall P l -> Forall Q l -> Forall (fun x => P x /\ Q x) l.
Proof. induction 1; intros HQ; inversion HQ; subst; constructor; auto. Qed.

Lemma Forall_weaken {A} (P Q : A -> Prop) l :
  (forall x, P x -> Q x) -> Forall P l -> Forall Q l.
Proof. intros H. induction 1; constructor; auto. Qed.

Lemma final_step_off t g0 g' :
  chained g0 t g' ->
  Forall scan_step t ->
  last_event (fun _ => true) None (map ev t) = Some EvDispOff ->
  display_enabled g' = false.
Proof.
  intros Hc HE Hlast.
  pose proof (last_where_frame (fun g => g) (fun _ => true) t g0 g' None Hc)
    as Hf.
  pose proof (last_where_event (fun _ => true) t None) as Hev.
  cbn [option_map] in Hev. rewrite Hlast in Hev.
  destruct (last_where (fun _ => true) None t) as [x|] eqn:Hx; [|discriminate].
  cbn in Hev. injection Hev as Hev.
  rewrite Hf; [| apply (Forall_weaken scan_step); [discriminate | exact HE]
              | exact I].
  destruct (last_where_In _ _ _ _ Hx) as [|Hin]; [discriminate|].
  pose proof (Forall_In_stdlib _ _ _ HE Hin) as (_ & _ & _ & _ & Hoff).
  now apply Hoff.
Qed.

Lemma quiet_step_keeps x :
  scan_step x /\ negb (is_setRow (ev x) || is_setRGB (ev x)) = true ->
  ODR_A (post x) = ODR_A (pre x) /\ decode_row (post x) = decode_row (pre x).
Proof.
  intros ((Hk & _ & _ & HA & _) & Hq). unfold keeps_address in Hk.
  destruct (ev x); cbn in Hq; try discriminate; split; auto.
Qed.

Lemma count_repeat_nop n : count is_nop (repeat EvNop n) = Z.of_nat n.
Proof. induction n as [|n IH]; cbn [repeat count is_nop]; lia. Qed.

Lemma count_app p l1 l2 : count p (l1 ++ l2) = count p l1 + count p l2.
Proof. induction l1 as [|e l1 IH]; cbn [app count]; lia. Qed.

Lemma forallb_repeat_nop (q : event -> bool) n :
  q EvNop = true -> forallb q (repeat EvNop n) = true.
Proof. intros H. induction n as [|n IH]; cbn; [reflexivity|]. now rewrite H. Qed.

Lemma last_event_snoc l e : forall found,
  last_event (fun _ => true) found (l ++ [e]) = Some e.
Proof. induction l as [|x l IH]; intros found; cbn; auto. Qed.

(** X9: [showLine], whatever the amount and the registers, succeeds and
    captures one latch pulse, display on, one [nop] per unit of a positive
    amount (none for an amount of zero or below) and display off; it
    leaves the display disabled and the color and address lines as they
    were. *)
Theorem showLine_hold (amount : Z) (m : machine) :
  exists new m',
    showLine amount m = Some (tt, m') /\
    history m' = history m ++ new /\
    map ev new
    = [EvStrobe; EvDispOn] ++ repeat EvNop (Z.to_nat amount) ++ [EvDispOff] /\
    count is_nop (map ev new) = Z.max 0 amount /\
    holds None (map ev new) = [Z.max 0 amount] /\
    display_enabled (pins m') = false /\
    ODR_A (pins m') = ODR_A (pins m) /\
    decode_row (pins m') = decode_row (pins m).
Proof.
  destruct (showLine_scan amount m) as (new & m' & Hr & Hh & He & HE & Hc).
  exists new, m'. split; [exact Hr|]. split; [exact Hh|].
  split; [exact He|]. unfold spec_hold in He.
  assert (Hq : forallb (fun e => negb (is_setRow e || is_setRGB e))
                 (map ev new) = true).
  { rewrite He, !forallb_app. cbn [forallb app].
    now rewrite forallb_repeat_nop. }
  pose proof (Forall_both _ _ _ HE (Forall_ev _ _ Hq)) as HEq.
  split; [|split; [|split; [|split]]].
  - rewrite He, !count_app, count_repeat_nop. cbn [count is_nop]. lia.
  - rewrite He. cbn [app holds].
    assert (Hn : forall n k,
               holds (Some k) (repeat EvNop n ++ [EvDispOff])
               = [k + Z.of_nat n]).
    { induction n as [|n IH]; intros k; cbn [repeat app holds option_map].
      - now rewrite Z.add_0_r.
      - rewrite IH. f_equal. lia. }
    rewrite Hn. f_equal. lia.
  - apply (final_step_off new (pins m) (pins m') Hc HE).
    rewrite He, app_assoc. apply last_event_snoc.
  - apply (chained_keeps ODR_A new _ _ Hc).
    refine (Forall_weaken _ _ _ _ HEq). intros x Hx.
    now apply quiet_step_keeps.
  - apply (chained_keeps decode_row new _ _ Hc).
    refine (Forall_weaken _ _ _ _ HEq). intros x Hx.
    now apply quiet_step_keeps.
Qed.

Lemma last_step {X} (F : gpio -> X) p t g0 g' e :
  chained g0 t g' ->
  Forall (fun x => p (ev x) = false -> F (post x) = F (pre x)) t ->
  last_event p None (map ev t) = Some e ->
  exists x, In x t /\ ev x = e /\ F g' = F (post x).
Proof.
  intros Hc HK Hlast.
  pose proof (last_where_frame F p t g0 g' None Hc HK I) as Hf.
  pose proof (last_where_event p t None) as Hev.
  cbn [option_map] in Hev. rewrite Hlast in Hev.
  destruct (last_where p None t) as [x|] eqn:Hx; [|discriminate].
  cbn in Hev. injection Hev as Hev.
  destruct (last_where_In _ _ _ _ Hx) as [|Hin]; [discriminate|].
  exists x. auto.
Qed.

Lemma spec_scan_last_events buffer :
  last_event is_setRow None (spec_scan buffer) = Some (EvSetRow 15) /\
  last_event is_setRGB None (spec_scan buffer)
  = Some (EvSetRGB (pixel buffer 511) (pixel buffer 1023) 7) /\
  last_event (fun _ => true) None (spec_scan buffer) = Some EvDispOff.
Proof. repeat apply conj; vm_compute; reflexivity. Qed.

(** X10: a scan pass, from any registers, ends with the address lines at
    row-pair 15, the display disabled, and the color lines at plane 7 of
    the last column: bits 7, 15, 23 of pixel 511 on the top-half lines and
    of pixel 1023 on the bottom-half lines. *)
Theorem scan_pass_end_state (buffer : list Z) (m : machine) :
  length buffer = 1024%nat ->
  exists m',
    displayBuffer buffer m = Some (tt, m') /\
    decode_row (pins m') = 15 /\
    display_enabled (pins m') = false /\
    r1 (pins m') = Z.testbit (pixel buffer 511) 7 /\
    g1 (pins m') = Z.testbit (pixel buffer 511) 15 /\
    b1 (pins m') = Z.testbit (pixel buffer 511) 23 /\
    r2 (pins m') = Z.testbit (pixel buffer 1023) 7 /\
    g2 (pins m') = Z.testbit (pixel buffer 1023) 15 /\
    b2 (pins m') = Z.testbit (pixel buffer 1023) 23.
Proof.
  intros Hlen.
  destruct (scan_flows buffer m Hlen) as (new & m' & Hr & _ & He & HE & Hc).
  destruct (spec_scan_last_events buffer) as (Hrow & Hrgb & Hoff).
  rewrite <- He in Hrow, Hrgb, Hoff.
  exists m'. split; [exact Hr|]. split; [|split].
  - assert (HK : Forall (fun x => is_setRow (ev x) = false ->
                                  decode_row (post x) = decode_row (pre x))
                     new).
    { refine (Forall_weaken _ _ _ _ HE). intros x (Hk & _) Hp.
      unfold keeps_address in Hk. destruct (ev x); try discriminate; auto. }
    destruct (last_step decode_row is_setRow new _ _ _ Hc HK Hrow)
      as (x & Hin & Hev & Hd).
    pose proof (Forall_In_stdlib _ _ _ HE Hin) as (Hk & _).
    unfold keeps_address in Hk. rewrite Hev in Hk. congruence.
  - exact (final_step_off new _ _ Hc HE Hoff).
  - assert (HK : Forall (fun x => is_setRGB (ev x) = false ->
                                  ODR_A (post x) = ODR_A (pre x)) new).
    { refine (Forall_weaken _ _ _ _ HE). intros x (_ & _ & _ & Hk & _). auto. }
    destruct (last_step ODR_A is_setRGB new _ _ _ Hc HK Hrgb)
      as (x & Hin & Hev & HA).
    pose proof (Forall_In_stdlib _ _ _ HE Hin) as (_ & _ & Hl & _).
    unfold drives_lines in Hl. rewrite Hev in Hl.
    unfold r1, g1, b1, r2, g2, b2 in *. rewrite HA. exact Hl.
Qed.

Lemma scan_pass_end_state_witness :
  exists m',
    displayBuffer lone_pixel idle = Some (tt, m') /\
    decode_row (pins m') = 15 /\
    display_enabled (pins m') = false /\
    r1 (pins m') = Z.testbit (pixel lone_pixel 511) 7 /\
    g1 (pins m') = Z.testbit (pixel lone_pixel 511) 15 /\
    b1 (pins m') = Z.testbit (pixel lone_pixel 511) 23 /\
    r2 (pins m') = Z.testbit (pixel lone_pixel 1023) 7 /\
    g2 (pins m') = Z.testbit (pixel lone_pixel 1023) 15 /\
    b2 (pins m') = Z.testbit (pixel lone_pixel 1023) 23.
Proof. apply (scan_pass_end_state lone_pixel idle). reflexivity. Defined.

(** X11: in a scan pass every [setRow] leaves the address lines reading
    its row-pair, and every later step up to the next [setRow] (the column
    drives, clock and latch pulses and holds of all 8 planes) finds and
    leaves them reading that row-pair. *)
Theorem scan_address_stable (buffer : list Z) (m : machine) :
  length buffer = 1024%nat ->
  exists new m',
    displayBuffer buffer m = Some (tt, m') /\
    history m' = history m ++ new /\
    map ev new = flat_map (spec_row buffer) (upto 0 16) /\
    addressed None new.
Proof.
  intros Hlen.
  destruct (scan_flows buffer m Hlen) as (new & m' & Hr & Hh & He & HE & Hc).
  exists new, m'. repeat (split; [assumption|]).
  apply (addressed_of_chain new (pins m) (pins m') None Hc); [|exact I].
  refine (Forall_weaken _ _ _ _ HE). now intros x (Hk & _).
Qed.

Lemma scan_address_stable_witness :
  exists new m',
    displayBuffer lone_pixel idle = Some (tt, m') /\
    history m' = history idle ++ new /\
    map ev new = flat_map (spec_row lone_pixel) (upto 0 16) /\
    addressed None new.
Proof. apply (scan_address_stable lone_pixel idle). reflexivity. Defined.

(** ** Adjacent events *)

Lemma each_followed_shape p q evs :
  (forall e, p (shape e) = p e) -> (forall e, q (shape e) = q e) ->
  each_followed p q (map shape evs) = each_followed p q evs.
Proof.
  intros Hp Hq. induction evs as [|e t IH]; cbn [map each_followed];
    [reflexivity|].
  rewrite Hp, IH. destruct t; cbn [map]; now rewrite ?Hq.
Qed.

Lemma each_preceded_shape p q evs : forall prev,
  (forall e, p (shape e) = p e) -> (forall e, q (shape e) = q e) ->
  each_preceded p q prev (map shape evs) = each_preceded p q prev evs.
Proof.
  induction evs as [|e t IH]; intros prev Hp Hq; cbn [map each_preceded];
    [reflexivity|].
  now rewrite Hp, Hq, IH.
Qed.

Lemma is_clkToggle_shape e : is_clkToggle (shape e) = is_clkToggle e.
Proof. now destruct e. Qed.
Lemma is_nop_shape e : is_nop (shape e) = is_nop e.
Proof. now destruct e. Qed.

Lemma spec_scan_adjacent buffer :
  each_followed is_setRGB is_clkToggle (spec_scan buffer) = true /\
  each_preceded is_setRGB is_clkToggle false (spec_scan buffer) = true /\
  each_followed is_strobe is_dispOn (spec_scan buffer) = true /\
  each_preceded is_strobe is_dispOn false (spec_scan buffer) = true /\
  count is_clkToggle (spec_scan buffer) = 4096 /\
  count is_nop (spec_scan buffer) = 40800.
Proof.
  rewrite <- (each_followed_shape is_setRGB is_clkToggle (spec_scan buffer)
                is_setRGB_shape is_clkToggle_shape).
  rewrite <- (each_preceded_shape is_setRGB is_clkToggle (spec_scan buffer)
                false is_setRGB_shape is_clkToggle_shape).
  rewrite <- (each_followed_shape is_strobe is_dispOn (spec_scan buffer)
                is_strobe_shape is_dispOn_shape).
  rewrite <- (each_preceded_shape is_strobe is_dispOn (spec_scan buffer)
                false is_strobe_shape is_dispOn_shape).
  rewrite (count_spec_scan is_clkToggle buffer is_clkToggle_shape).
  rewrite (count_spec_scan is_nop buffer is_nop_shape).
  rewrite shape_spec_scan.
  repeat apply conj; vm_compute; reflexivity.
Qed.



(** X13: in a scan pass every [nop] of a hold runs with the display
    enabled, from any registers at the start; the pass has 40800 of them,
    16 times the sum of the weight table. *)
Theorem scan_nops_shown (buffer : list Z) (m : machine) :
  length buffer = 1024%nat ->
  exists new m',
    displayBuffer buffer m = Some (tt, m') /\
    history m' = history m ++ new /\
    Forall nop_shown new /\
    count is_nop (map ev new) = 40800 /\
    count is_nop (map ev new) = 16 * fold_right Z.add 0 waits.
Proof.
  intros Hlen.
  destruct (scan_flows buffer m Hlen) as (new & m' & Hr & Hh & He & HE & _).
  destruct (spec_scan_adjacent buffer) as (_ & _ & _ & _ & _ & Hn).
  exists new, m'. rewrite He, Hn. repeat (split; [assumption|]).
  split; [|split; reflexivity].
  refine (Forall_weaken _ _ _ _ HE). now intros x (_ & Hs & _).
Qed.

Lemma scan_nops_shown_witness :
  exists new m',
    displayBuffer lone_pixel idle = Some (tt, m') /\
    history m' = history idle ++ new /\
    Forall nop_shown new /\
    count is_nop (map ev new) = 40800 /\
    count is_nop (map ev new) = 16 * fold_right Z.add 0 waits.
Proof. apply (scan_nops_shown lone_pixel idle). reflexivity. Defined.

(** ** Exposure *)

Lemma color_line_bit top c x :
  0 <= c <= 2 -> drives_lines x -> is_setRGB (ev x) = true ->
  color_line top c (post x) = color_bit top c (ev x).
Proof.
  intros Hc Hl Hev. unfold drives_lines in Hl.
  destruct (ev x); try discriminate.
  destruct Hl as (H1 & H2 & H3 & H4 & H5 & H6).
  unfold color_line, color_bit.
  assert (Hcases : c = 0 \/ c = 1 \/ c = 2) by lia.
  destruct Hcases as [-> | [-> | ->] ]; destruct top; cbn [Z.eqb Z.mul Pos.mul];
    rewrite ?Z.add_0_r; assumption.
Qed.

Lemma meter_events top c s col t : forall st,
  0 <= c <= 2 -> Forall drives_lines t ->
  fold_left (meter_step ev (fun x => color_line top c (post x)) s col) t st
  = fold_left (meter_step (fun e : event => e) (color_bit top c) s col)
      (map ev t) st.
Proof.
  induction t as [|x t IH]; intros st Hc HE; cbn [map fold_left];
    [reflexivity|].
  inversion HE as [|? ? Hx HE']; subst. rewrite <- (IH _ Hc HE'). f_equal.
  unfold meter_step. destruct (ev x) eqn:Hev; try reflexivity.
  rewrite (color_line_bit top c x Hc Hx) by (now rewrite Hev).
  now rewrite Hev.
Qed.

Lemma meter_nops top c s col n : forall st,
  fold_left (meter_step (fun e : event => e) (color_bit top c) s col)
    (repeat EvNop n) st
  = {| at_row := at_row st; seen := seen st; lit := lit st;
       ticks := ticks st + Z.of_nat n; exposed := exposed st |}.
Proof.
  induction n as [|n IH]; intros st; cbn [repeat fold_left].
  - destruct st; cbn. f_equal. lia.
  - rewrite IH. cbn. f_equal. lia.
Qed.

Lemma meter_hold top c s col w st :
  0 <= w ->
  fold_left (meter_step (fun e : event => e) (color_bit top c) s col)
    (spec_hold w) st
  = {| at_row := at_row st; seen := 0; lit := false; ticks := w;
       exposed := exposed st + (if lit st then w else 0) |}.
Proof.
  intros Hw. unfold spec_hold. rewrite !fold_left_app, meter_nops.
  cbn. f_equal; [lia|]. f_equal. destruct (lit st); lia.
Qed.

Lemma meter_columns buffer r p top c s col n : forall k st,
  seen st = k ->
  fold_left (meter_step (fun e : event => e) (color_bit top c) s col)
    (flat_map (spec_column buffer r p) (upto (Z.of_nat k) n)) st
  = {| at_row := at_row st; seen := (k + n)%nat;
       lit := if at_row st && (k <=? col)%nat && (col <? k + n)%nat
              then color_bit top c
                     (EvSetRGB (pixel buffer (32 * r + Z.of_nat col))
                        (pixel buffer (32 * (r + 16) + Z.of_nat col)) p)
              else lit st;
       ticks := ticks st; exposed := exposed st |}.
Proof.
  induction n as [|n IH]; intros k st Hk.
  - cbn [upto flat_map fold_left]. destruct st as [ar sn lt tk ex].
    cbn [at_row seen lit ticks exposed] in *. subst k. f_equal; [lia|].
    destruct (Nat.leb_spec sn col), (Nat.ltb_spec col (sn + 0));
      try lia; now rewrite ?andb_false_r.
  - cbn [upto flat_map]. rewrite fold_left_app.
    replace (Z.of_nat k + 1) with (Z.of_nat (S k)) by lia.
    rewrite (IH (S k));
      [|cbn [spec_column fold_left meter_step seen]; now rewrite Hk].
    cbn [spec_column fold_left meter_step at_row seen lit ticks exposed].
    rewrite Hk. f_equal; [lia|].
    destruct (at_row st); cbn [andb]; [|reflexivity].
    destruct (Nat.eqb_spec k col) as [->|Hne].
    + destruct (Nat.leb_spec (S col) col); [lia|]. cbn [andb].
      destruct (Nat.leb_spec col col); [|lia].
      destruct (Nat.ltb_spec col (col + S n)); [|lia]. reflexivity.
    + destruct (Nat.leb_spec (S k) col), (Nat.leb_spec k col),
        (Nat.ltb_spec col (S k + n)), (Nat.ltb_spec col (k + S n));
        try lia; reflexivity.
Qed.

Lemma meter_plane buffer r p top c s col st :
  0 <= pixel waits p -> (col < 32)%nat ->
  seen st = 0%nat -> lit st = false ->
  fold_left (meter_step (fun e : event => e) (color_bit top c) s col)
    (spec_plane buffer r p) st
  = {| at_row := at_row st; seen := 0; lit := false;
       ticks := pixel waits p;
       exposed :=
         exposed st
         + (if at_row st
               && color_bit top c
                    (EvSetRGB (pixel buffer (32 * r + Z.of_nat col))
                       (pixel buffer (32 * (r + 16) + Z.of_nat col)) p)
            then pixel waits p else 0) |}.
Proof.
  intros Hw Hcol Hseen Hlit. unfold spec_plane. rewrite fold_left_app.
  change 0 with (Z.of_nat 0) at 1.
  rewrite (meter_columns buffer r p top c s col 32 0 st Hseen).
  rewrite (meter_hold top c s col _ _ Hw).
  cbn [at_row seen lit ticks exposed]. rewrite Hlit.
  destruct (Nat.leb_spec 0 col); [|lia].
  destruct (Nat.ltb_spec col (0 + 32)); [|lia].
  now destruct (at_row st).
Qed.

(** The weights add up to ten times the channel value. *)
Lemma weights_sum_channel v c :
  0 <= c ->
  fold_right
    (fun p acc => (if Z.testbit v (p + 8 * c) then pixel waits p else 0) + acc)
    0 (upto 0 8)
  = 10 * channel c v.
Proof.
  intros Hc.
  assert (Hu : 0 <= channel c v < 256).
  { unfold channel. change 0xFF with (Z.ones 8).
    rewrite Z.land_ones by lia. apply Z.mod_pos_bound. lia. }
  assert (Hbit : forall l,
             Forall (fun p => 0 <= p < 8) l ->
             fold_right
               (fun p acc =>
                  (if Z.testbit v (p + 8 * c) then pixel waits p else 0) + acc)
               0 l
             = fold_right
                 (fun p acc =>
                    (if Z.testbit (channel c v) p then pixel waits p else 0)
                    + acc) 0 l).
  { induction 1 as [|p l Hp Hl IH]; cbn [fold_right]; [reflexivity|].
    rewrite IH. do 2 f_equal. unfold channel.
    rewrite Z.land_spec, Z.shiftr_spec by lia.
    change 0xFF with (Z.ones 8). rewrite Z.ones_spec_low by lia.
    now rewrite andb_true_r. }
  rewrite Hbit by (repeat constructor; lia).
  generalize dependent (channel c v). intros u Hu.
  set (ok := fun u =>
    fold_right
      (fun p acc => (if Z.testbit u p then pixel waits p else 0) + acc)
      0 (upto 0 8) =? 10 * u).
  assert (H : ok u = true).
  { apply (forallb_upto ok 256 0); [vm_compute; reflexivity | lia]. }
  subst ok. cbv beta in H. now apply Z.eqb_eq in H.
Qed.

Lemma meter_planes buffer r top c s col ps : forall st,
  Forall (fun p => 0 <= pixel waits p) ps -> (col < 32)%nat ->
  seen st = 0%nat -> lit st = false ->
  exposed
    (fold_left (meter_step (fun e : event => e) (color_bit top c) s col)
       (flat_map (spec_plane buffer r) ps) st)
  = exposed st
    + (if at_row st
       then fold_right
              (fun p acc =>
                 (if Z.testbit
                       (pixel buffer (32 * (if top then r else r + 16)
                                      + Z.of_nat col)) (p + 8 * c)
                  then pixel waits p else 0) + acc) 0 ps
       else 0).
Proof.
  induction ps as [|p ps IH]; intros st Hw Hcol Hseen Hlit.
  - cbn [flat_map fold_left fold_right]. destruct (at_row st); lia.
  - inversion Hw as [|? ? Hp Hw']; subst.
    cbn [flat_map fold_right]. rewrite fold_left_app.
    rewrite (meter_plane buffer r p top c s col st Hp Hcol Hseen Hlit).
    rewrite IH by (try assumption; reflexivity).
    cbn [at_row exposed color_bit].
    destruct (at_row st); cbn [andb]; [|lia].
    destruct top; lia.
Qed.

Lemma fold_left_cons {A B} (f : A -> B -> A) (a : B) (l : list B) (st : A) :
  fold_left f (a :: l) st = fold_left f l (f st a).
Proof. reflexivity. Qed.

Lemma meter_row buffer r top c s col st :
  0 <= c -> (col < 32)%nat ->
  exposed
    (fold_left (meter_step (fun e : event => e) (color_bit top c) s col)
       (spec_row buffer r) st)
  = exposed st
    + (if r =? s
       then 10 * channel c
                   (pixel buffer (32 * (if top then r else r + 16)
                                  + Z.of_nat col))
       else 0).
Proof.
  intros Hc Hcol. unfold spec_row.
  rewrite fold_left_cons.
  rewrite meter_planes;
    [| repeat constructor; vm_compute; discriminate
     | exact Hcol | reflexivity | reflexivity].
  cbn [meter_step at_row exposed].
  now rewrite weights_sum_channel.
Qed.

Lemma meter_scan buffer top c s col n : forall lo st,
  0 <= c -> (col < 32)%nat ->
  exposed
    (fold_left (meter_step (fun e : event => e) (color_bit top c) s col)
       (flat_map (spec_row buffer) (upto lo n)) st)
  = exposed st
    + (if (lo <=? s) && (s <? lo + Z.of_nat n)
       then 10 * channel c
                   (pixel buffer (32 * (if top then s else s + 16)
                                  + Z.of_nat col))
       else 0).
Proof.
  induction n as [|n IH]; intros lo st Hc Hcol.
  - cbn [upto flat_map fold_left].
    destruct (Z.leb_spec lo s), (Z.ltb_spec s (lo + Z.of_nat 0));
      cbn [andb]; lia.
  - cbn [upto flat_map]. rewrite fold_left_app, IH, meter_row by assumption.
    destruct (Z.eqb_spec lo s) as [->|Hne].
    + destruct (Z.leb_spec (s + 1) s), (Z.leb_spec s s),
        (Z.ltb_spec s (s + 1 + Z.of_nat n)), (Z.ltb_spec s (s + Z.of_nat (S n)));
        cbn [andb]; lia.
    + destruct (Z.leb_spec (lo + 1) s), (Z.leb_spec lo s),
        (Z.ltb_spec s (lo + 1 + Z.of_nat n)),
        (Z.ltb_spec s (lo + Z.of_nat (S n)));
        cbn [andb]; lia.
Qed.

(** X14: binary-code modulation adds up.  For every LED of the panel
    (top or bottom half, channel 0..2, row-pair 0..15, column 0..31) the
    [nop]s a scan pass spends with that LED's color line latched high are
    exactly 10 times the 8-bit channel value of its pixel: exposure is
    proportional to intensity. *)
Theorem scan_exposure_proportional
    (buffer : list Z) (m : machine) (top : bool) (c s x : Z) :
  length buffer = 1024%nat ->
  0 <= c <= 2 ->
  0 <= s < 16 ->
  0 <= x < 32 ->
  exists new m',
    displayBuffer buffer m = Some (tt, m') /\
    history m' = history m ++ new /\
    exposure top c s (Z.to_nat x) new
    = pixel waits 0
      * channel c (pixel buffer (32 * (if top then s else s + 16) + x)).
Proof.
  intros Hlen Hc Hs Hx.
  destruct (scan_flows buffer m Hlen) as (new & m' & Hr & Hh & He & HE & _).
  exists new, m'. split; [exact Hr|]. split; [exact Hh|].
  unfold exposure. rewrite meter_events; [|exact Hc|].
  - rewrite He. unfold spec_scan.
    rewrite meter_scan by lia. cbn [exposed meter0].
    destruct (Z.leb_spec 0 s), (Z.ltb_spec s (0 + Z.of_nat 16)); try lia.
    cbn [andb]. rewrite Z2Nat.id by lia. reflexivity.
  - refine (Forall_weaken _ _ _ _ HE). now intros y (_ & _ & Hl & _).
Qed.

Lemma scan_exposure_proportional_witness :
  exists new m',
    displayBuffer lone_pixel idle = Some (tt, m') /\
    history m' = history idle ++ new /\
    exposure true 0 0 (Z.to_nat 0) new
    = pixel waits 0
      * channel 0 (pixel lone_pixel (32 * (if true then 0 else 0 + 16) + 0)).
Proof.
  apply (scan_exposure_proportional lone_pixel idle true 0 0 0);
    first [reflexivity | lia].
Defined.

(** ** Reads of the framebuffer *)

Lemma always_fails_bind_l {St A B} (c : ST St A) (k : A -> ST St B) :
  always_fails c -> always_fails (c ≫= k).
Proof. intros H s. unfold mbind, ST_bind. now rewrite H. Qed.

Lemma always_fails_bind_r {St A B} (c : ST St A) (k : A -> ST St B) :
  (forall a, always_fails (k a)) -> always_fails (c ≫= k).
Proof.
  intros H s. unfold mbind, ST_bind.
  destruct (c s) as [[a s']|]; [apply H | reflexivity].
Qed.

Lemma always_fails_for {St} (body : Z -> ST St unit) j n : forall lo,
  lo <= j < lo + Z.of_nat n ->
  always_fails (body j) -> always_fails (for_ n lo body).
Proof.
  induction n as [|n IH]; intros lo Hj Hb; [lia|]. cbn [for_].
  destruct (Z.eq_dec j lo) as [->|Hne].
  - now apply always_fails_bind_l.
  - apply always_fails_bind_r. intros _. apply IH; [lia | exact Hb].
Qed.

Lemma always_fails_load {St} (a : list Z) i :
  Z.of_nat (length a) <= i -> always_fails (load (S := St) a i).
Proof.
  intros Hi s. unfold load. destruct (Z.leb_spec 0 i); [|reflexivity].
  rewrite (lookup_ge_None_2 a (Z.to_nat i)) by lia. reflexivity.
Qed.

Lemma displayBuffer_runs_off buffer :
  (length buffer < 1024)%nat -> always_fails (displayBuffer buffer).
Proof.
  intros Hlen. unfold displayBuffer, for_lt.
  apply (always_fails_for _ 15); [vm_compute; split; [discriminate | reflexivity]|].
  apply always_fails_bind_r. intros _. cbv zeta.
  apply (always_fails_for _ 0); [vm_compute; split; [discriminate | reflexivity]|].
  apply always_fails_bind_l.
  apply (always_fails_for _ 31); [vm_compute; split; [discriminate | reflexivity]|].
  apply always_fails_bind_r. intros rgb1.
  apply always_fails_bind_l. apply always_fails_load.
  change (MATRIX_WIDTH * (15 + scan) + 31) with 1023. lia.
Qed.

(** X15: a scan pass reads pixel 1023: on a framebuffer of fewer than
    1024 pixels it runs off the array, whatever the registers. *)
Theorem displayBuffer_short_buffer (buffer : list Z) (m : machine) :
  (length buffer < 1024)%nat ->
  displayBuffer buffer m = None.
Proof. intros Hlen. now apply displayBuffer_runs_off. Qed.

Lemma displayBuffer_short_buffer_witness :
  displayBuffer (replicate 1000 0x50) idle = None.
Proof.
  apply (displayBuffer_short_buffer (replicate 1000 0x50) idle).
  vm_compute. lia.
Defined.

Lemma for_ext {St} (body body' : Z -> ST St unit) n : forall lo s,
  (forall i s', lo <= i < lo + Z.of_nat n -> body i s' = body' i s') ->
  for_ n lo body s = for_ n lo body' s.
Proof.
  induction n as [|n IH]; intros lo s H; cbn [for_]; [reflexivity|].
  unfold mbind, ST_bind. rewrite (H lo s) by lia.
  destruct (body' lo s) as [[[] s1]|]; [|reflexivity].
  apply IH. intros i s' Hi. apply H. lia.
Qed.

Lemma load_take {St} (a : list Z) i (s : St) :
  0 <= i < 1024 -> load (take 1024 a) i s = load a i s.
Proof.
  intros Hi. unfold load. rewrite lookup_take_lt by lia. reflexivity.
Qed.

Lemma bind_ext {St A B} (c c' : ST St A) (k k' : A -> ST St B) s :
  c s = c' s -> (forall a s', k a s' = k' a s') ->
  (c ≫= k) s = (c' ≫= k') s.
Proof.
  intros Hc Hk. unfold mbind, ST_bind. rewrite Hc.
  destruct (c' s) as [[a s']|]; [apply Hk | reflexivity].
Qed.

(** X16: a scan pass reads nothing beyond pixel 1023: on any framebuffer
    it does exactly what it does on the first 1024 pixels of it. *)
Theorem displayBuffer_reads_first_1024 (buffer : list Z) (m : machine) :
  displayBuffer buffer m = displayBuffer (take 1024 buffer) m.
Proof.
  unfold displayBuffer, for_lt. change scan with 16.
  change MATRIX_WIDTH with 32. cbv zeta.
  apply for_ext. intros s m1 Hs.
  apply bind_ext; [reflexivity|]. intros _ m2.
  apply for_ext. intros plane m3 Hp.
  apply bind_ext; [|reflexivity].
  apply for_ext. intros x m4 Hx.
  change (Z.of_nat (Z.to_nat (16 - 0))) with 16 in Hs.
  change (Z.of_nat (Z.to_nat (32 - 0))) with 32 in Hx.
  apply bind_ext; [symmetry; apply load_take; lia|]. intros rgb1 m5.
  apply bind_ext; [symmetry; apply load_take; lia | reflexivity].
Qed.

(** ** The pattern generator, pixel by pixel *)

Lemma pack_value a b c :
  0 <= a < 256 -> 0 <= b < 256 -> 0 <= c < 256 ->
  uint32 (Z.lor (Z.lor (Z.lor 0x00 (Z.shiftl a 0)) (Z.shiftl b 8))
            (Z.shiftl c 16))
  = a + 256 * b + 65536 * c.
Proof.
  intros Ha Hb Hc.
  rewrite Z.lor_0_l, Z.shiftl_0_r.
  rewrite (lor_disjoint a b 8) by lia.
  rewrite (lor_disjoint (a + b * 2 ^ 8) c 16) by lia.
  unfold uint32. rewrite Z.mod_small by lia. lia.
Qed.

Lemma channels_of_sum a b c :
  0 <= a < 256 -> 0 <= b < 256 -> 0 <= c < 256 ->
  channelA (a + 256 * b + 65536 * c) = a /\
  channelB (a + 256 * b + 65536 * c) = b /\
  channelC (a + 256 * b + 65536 * c) = c.
Proof.
  intros Ha Hb Hc. rewrite <- (pack_value a b c) by assumption.
  now apply pack_channels.
Qed.

Lemma randomize_pixel_sampled w0 max i :
  1 <= max <= 253 -> 0 <= i < 1024 ->
  total (sampling w0 max i)
    (ca ← gamma_sample max;
     cb ← gamma_sample max;
     cc ← gamma_sample max;
     store_framebuffer i
       (uint32 (Z.lor (Z.lor (Z.lor 0x00 (Z.shiftl ca 0)) (Z.shiftl cb 8))
                  (Z.shiftl cc 16))))
    (fun _ => sampling w0 max (i + 1)).
Proof.
  intros Hmax Hi w (Hhw & Hj & Hu & Hc & Hg & Hlen & Hent & Hpos & Hpix).
  assert (Hnn : forall n, 0 <= entropy w n).
  { intros n. rewrite Hent. apply Hpos. }
  destruct (gamma_sample_run max w Hg (Hnn _) Hmax) as (ca & Ha & Hva & Hca).
  set (wa := set_entropy _ w) in Ha.
  destruct (gamma_sample_run max wa Hg (Hnn _) Hmax) as (cb & Hb & Hvb & Hcb).
  set (wb := set_entropy _ wa) in Hb.
  destruct (gamma_sample_run max wb Hg (Hnn _) Hmax)
    as (cc & Hcc' & Hvc & Hcc).
  set (wc := set_entropy _ wb) in Hcc'.
  eexists tt, _. split.
  - rewrite (bind_run _ _ _ _ _ Ha), (bind_run _ _ _ _ _ Hb),
      (bind_run _ _ _ _ _ Hcc').
    apply store_framebuffer_run. subst wa wb wc. world_simpl. lia.
  - subst wa wb wc. unfold sampling. world_simpl.
    repeat (split; [assumption|]).
    split; [now rewrite length_insert|].
    split; [|split; [exact Hpos|]].
    + intros n. rewrite Hent. f_equal. lia.
    + intros j Hjr. destruct (Z.eq_dec j i) as [->|Hne].
      * rewrite pixel_insert_eq by lia.
        rewrite pack_value by lia.
        exists (Z.rem (entropy w 0%nat) max), (Z.rem (entropy w 1%nat) max),
          (Z.rem (entropy w 2%nat) max).
        split; [apply Z.rem_bound_pos; [apply Hnn | lia]|].
        split; [apply Z.rem_bound_pos; [apply Hnn | lia]|].
        split; [apply Z.rem_bound_pos; [apply Hnn | lia]|].
        now rewrite Hva, Hvb, Hvc.
      * rewrite pixel_insert_ne by lia. apply Hpix. lia.
Qed.

Lemma randomize_sampled_run w :
  started w ->
  exists w',
    randomizeFramebuffer w = Some (tt, w') /\
    sampling (set_counter (uint8 (counter w + 1)) w)
      (ceiling (uint8 (counter w + 1))) 1024 w'.
Proof.
  intros (Hlen & Hg & Hc & Hent).
  set (w1 := set_counter (uint8 (counter w + 1)) w).
  assert (Hc1 : 0 <= counter w1 < 256).
  { subst w1. world_simpl. unfold uint8. apply Z.mod_pos_bound. lia. }
  destruct (ceiling_bounds _ Hc1) as (Hmax & _).
  destruct (total_for (sampling w1 (ceiling (counter w1)))
              (fun i =>
                 ca ← gamma_sample (ceiling (counter w1));
                 cb ← gamma_sample (ceiling (counter w1));
                 cc ← gamma_sample (ceiling (counter w1));
                 store_framebuffer i
                   (uint32 (Z.lor (Z.lor (Z.lor 0x00 (Z.shiftl ca 0))
                                     (Z.shiftl cb 8)) (Z.shiftl cc 16))))
              1024 0) with (s := w1) as ([] & w2 & Hrun & H2).
  { intros i Hi. apply randomize_pixel_sampled; lia. }
  { unfold sampling. do 4 (split; [reflexivity|]).
    split; [exact Hg|]. split; [exact Hlen|].
    split; [intros n; reflexivity|]. split; [exact Hent|].
    intros k Hk. lia. }
  exists w2. split; [|exact H2].
  unfold randomizeFramebuffer, update, mbind, ST_bind. fold w1.
  unfold load_gamma, load.
  destruct (Z.leb_spec 0 (counter w1)) as [_|]; [|lia].
  replace (gammaTable w1) with gamma_built by (symmetry; exact Hg).
  rewrite pixel_lookup by (rewrite gamma_built_length; lia).
  exact Hrun.
Qed.

Lemma sampled_channels max p :
  1 <= max <= 253 -> sampled max p ->
  0 <= p < 2 ^ 24 /\
  channelA p < max /\ channelB p < max /\ channelC p < max.
Proof.
  intros Hmax (ja & jb & jc & Ha & Hb & Hc & ->).
  destruct (gamma_built_facts ja) as (_ & Hga & _); [lia|].
  destruct (gamma_built_facts jb) as (_ & Hgb & _); [lia|].
  destruct (gamma_built_facts jc) as (_ & Hgc & _); [lia|].
  destruct (channels_of_sum (pixel gamma_built ja) (pixel gamma_built jb)
              (pixel gamma_built jc)) as (HA & HB & HC); [lia | lia | lia |].
  rewrite HA, HB, HC. change (2 ^ 24) with 16777216. lia.
Qed.

Lemma sampled_dark max p : 1 <= max <= 9 -> sampled max p -> p = 0.
Proof.
  intros Hmax (ja & jb & jc & Ha & Hb & Hc & ->).
  assert (H8 : pixel gamma_built 8 = 0) by (vm_compute; reflexivity).
  assert (Hz : forall j, 0 <= j < max -> pixel gamma_built j = 0).
  { intros j Hj. destruct (gamma_built_facts j) as (_ & Hg & _); [lia|].
    pose proof (gamma_built_monotone j 8). lia. }
  rewrite !Hz by assumption. reflexivity.
Qed.

(** X17: [randomizeFramebuffer] takes exactly 3 x 1024 = 3072 values
    from [rand()] and touches nothing but the counter, the framebuffer and
    that stream: the GPIO registers and capture, the gamma table, the
    UART flag and the journal are as before. *)
Theorem randomize_draws_3072 (w : world) :
  started w ->
  exists w',
    randomizeFramebuffer w = Some (tt, w') /\
    (forall n, entropy w' n = entropy w (3072 + n)%nat) /\
    hw w' = hw w /\
    gammaTable w' = gammaTable w /\
    UartReady w' = UartReady w /\
    journal w' = journal w /\
    length (framebuffer w') = length (framebuffer w).
Proof.
  intros Hw.
  destruct (randomize_sampled_run w Hw)
    as (w' & Hr & Hhw & Hj & Hu & Hc & Hg & Hlen & Hent & _).
  destruct Hw as (Hlen0 & Hg0 & _).
  world_simpl. exists w'. split; [exact Hr|].
  split; [exact Hent|]. split; [exact Hhw|]. split; [congruence|].
  split; [exact Hu|]. split; [exact Hj|]. congruence.
Qed.

Lemma randomize_draws_3072_witness :
  exists w',
    randomizeFramebuffer (initial_world (fun _ => 7)) = Some (tt, w') /\
    (forall n, entropy w' n
               = entropy (initial_world (fun _ => 7)) (3072 + n)%nat) /\
    hw w' = hw (initial_world (fun _ => 7)) /\
    gammaTable w' = gammaTable (initial_world (fun _ => 7)) /\
    UartReady w' = UartReady (initial_world (fun _ => 7)) /\
    journal w' = journal (initial_world (fun _ => 7)) /\
    length (framebuffer w') = length (framebuffer (initial_world (fun _ => 7))).
Proof.
  apply (randomize_draws_3072 (initial_world (fun _ => 7))).
  apply initial_world_running. intros k. lia.
Defined.

(** X18: after [randomizeFramebuffer] every pixel fits in 24 bits and
    each of its three channels is strictly below the ceiling: the ceiling
    itself is never reached. *)
Theorem randomize_strictly_below_ceiling (w : world) (i : Z) :
  started w ->
  0 <= i < MATRIX_SIZE ->
  exists w',
    randomizeFramebuffer w = Some (tt, w') /\
    0 <= pixel (framebuffer w') i < 2 ^ 24 /\
    channelA (pixel (framebuffer w') i) < ceiling (counter w') /\
    channelB (pixel (framebuffer w') i) < ceiling (counter w') /\
    channelC (pixel (framebuffer w') i) < ceiling (counter w').
Proof.
  intros Hw Hi.
  destruct (randomize_sampled_run w Hw)
    as (w' & Hr & _ & _ & _ & Hc & _ & _ & _ & _ & Hpix).
  world_simpl. exists w'. split; [exact Hr|]. rewrite Hc.
  assert (Hc1 : 0 <= uint8 (counter w + 1) < 256).
  { unfold uint8. apply Z.mod_pos_bound. lia. }
  destruct (ceiling_bounds _ Hc1) as (Hmax & _).
  apply sampled_channels; [exact Hmax | apply Hpix; exact Hi].
Qed.

Lemma randomize_strictly_below_ceiling_witness :
  exists w',
    randomizeFramebuffer (initial_world (fun _ => 7)) = Some (tt, w') /\
    0 <= pixel (framebuffer w') 1023 < 2 ^ 24 /\
    channelA (pixel (framebuffer w') 1023) < ceiling (counter w') /\
    channelB (pixel (framebuffer w') 1023) < ceiling (counter w') /\
    channelC (pixel (framebuffer w') 1023) < ceiling (counter w').
Proof.
  apply (randomize_strictly_below_ceiling (initial_world (fun _ => 7)) 1023).
  - apply initial_world_running. intros k. lia.
  - vm_compute. split; [discriminate | reflexivity].
Defined.

Lemma list_eq_pixels (a : list Z) n :
  length a = n -> (forall j, 0 <= j < Z.of_nat n -> pixel a j = 0) ->
  a = replicate n 0.
Proof.
  intros Hlen Hz. apply list_eq. intros k.
  destruct (Nat.lt_ge_cases k n) as [Hk|Hk].
  - rewrite lookup_replicate_2 by assumption.
    specialize (Hz (Z.of_nat k) ltac:(lia)). unfold pixel in Hz.
    rewrite Nat2Z.id in Hz.
    destruct (lookup_lt_is_Some_2 a k) as [v Hv]; [lia|].
    rewrite Hv in *. cbn in Hz. now subst v.
  - rewrite !lookup_ge_None_2; [reflexivity | rewrite length_replicate; lia | lia].
Qed.

(** X19: when the counter after the increment is at most 33, the ceiling
    is at most 9, every index [rand() % ceiling] falls on a zero entry of
    the table, and [randomizeFramebuffer] leaves the whole framebuffer
    black, whatever [rand()] returns: the clamp of the ceiling to 1 does
    not keep frames from being dark. *)
Theorem randomize_dark_frames (w : world) :
  started w ->
  (counter w + 1) mod 256 <= 33 ->
  exists w',
    randomizeFramebuffer w = Some (tt, w') /\
    counter w' = (counter w + 1) mod 256 /\
    ceiling (counter w') <= 9 /\
    framebuffer w' = replicate 1024 0.
Proof.
  intros Hw Hlow.
  destruct (randomize_sampled_run w Hw)
    as (w' & Hr & _ & _ & _ & Hc & _ & Hlen & _ & _ & Hpix).
  world_simpl. exists w'. split; [exact Hr|]. split; [exact Hc|].
  rewrite Hc. fold (uint8 (counter w + 1)) in Hlow.
  assert (Hc1 : 0 <= uint8 (counter w + 1) < 256).
  { unfold uint8. apply Z.mod_pos_bound. lia. }
  destruct (ceiling_bounds _ Hc1) as (Hmax & _).
  assert (H33 : pixel gamma_built 33 = 9) by (vm_compute; reflexivity).
  assert (H9 : ceiling (uint8 (counter w + 1)) <= 9).
  { unfold ceiling.
    pose proof (gamma_built_monotone (uint8 (counter w + 1)) 33).
    destruct (_ =? 0); lia. }
  split; [exact H9|].
  apply list_eq_pixels; [exact Hlen|]. intros j Hj.
  apply (sampled_dark (ceiling (uint8 (counter w + 1)))); [lia|].
  apply Hpix. lia.
Qed.

Lemma randomize_dark_frames_witness :
  exists w',
    randomizeFramebuffer (initial_world (fun _ => 32767)) = Some (tt, w') /\
    counter w' = (counter (initial_world (fun _ => 32767)) + 1) mod 256 /\
    ceiling (counter w') <= 9 /\
    framebuffer w' = replicate 1024 0.
Proof.
  apply (randomize_dark_frames (initial_world (fun _ => 32767))).
  - apply initial_world_running. intros k. lia.
  - rewrite (proj2 (initial_world_eq (fun _ => 32767))). vm_compute.
    discriminate.
Defined.

Lemma randomize_times_run n : forall w,
  started w ->
  exists w',
    randomize_times n w = Some (tt, w') /\
    started w' /\
    counter w' = (counter w + Z.of_nat n) mod 256.
Proof.
  induction n as [|n IH]; intros w Hw.
  - exists w. split; [reflexivity|]. split; [exact Hw|].
    destruct Hw as (_ & _ & Hc & _). rewrite Z.add_0_r, Z.mod_small; lia.
  - destruct (randomize_run w Hw) as (w1 & Hr1 & Hw1 & _ & _ & Hc1 & _).
    destruct (IH w1 Hw1) as (w2 & Hr2 & Hw2 & Hc2).
    exists w2. split; [|split; [exact Hw2|]].
    + cbn [randomize_times]. now rewrite (bind_run _ _ _ _ _ Hr1).
    + rewrite Hc2, Hc1. unfold uint8.
      rewrite Zplus_mod_idemp_l. f_equal. lia.
Qed.

(** X20: [n] calls of [randomizeFramebuffer] advance the counter by [n]
    modulo 256, so the brightness ceiling repeats with period 256 calls:
    after 256 more calls counter and ceiling are what they were. *)
Theorem randomize_counter_cycle (w : world) (n : nat) :
  started w ->
  exists w' w'',
    randomize_times n w = Some (tt, w') /\
    counter w' = (counter w + Z.of_nat n) mod 256 /\
    randomize_times 256 w' = Some (tt, w'') /\
    counter w'' = counter w' /\
    ceiling (counter w'') = ceiling (counter w').
Proof.
  intros Hw.
  destruct (randomize_times_run n w Hw) as (w' & Hr & Hw' & Hc).
  destruct (randomize_times_run 256 w' Hw') as (w'' & Hr' & Hw'' & Hc').
  exists w', w''. split; [exact Hr|]. split; [exact Hc|].
  split; [exact Hr'|].
  assert (Heq : counter w'' = counter w').
  { rewrite Hc'. destruct Hw' as (_ & _ & Hb & _).
    change (Z.of_nat 256) with (1 * 256).
    rewrite Z.mod_add by lia. apply Z.mod_small. exact Hb. }
  split; [exact Heq | now rewrite Heq].
Qed.

Lemma randomize_counter_cycle_witness :
  exists w' w'',
    randomize_times 3 (initial_world (fun _ => 7)) = Some (tt, w') /\
    counter w' = (counter (initial_world (fun _ => 7)) + Z.of_nat 3) mod 256 /\
    randomize_times 256 w' = Some (tt, w'') /\
    counter w'' = counter w' /\
    ceiling (counter w'') = ceiling (counter w').
Proof.
  apply (randomize_counter_cycle (initial_world (fun _ => 7)) 3).
  apply initial_world_running. intros k. lia.
Defined.

(** ** [main], frame by frame *)

Lemma display_keeps w :
  length (framebuffer w) = 1024%nat ->
  exists w',
    display w = Some (tt, w') /\
    framebuffer w' = framebuffer w /\
    gammaTable w' = gammaTable w /\
    counter w' = counter w /\
    entropy w' = entropy w /\
    UartReady w' = UartReady w /\
    journal w' = CallDisplay :: journal w.
Proof.
  intros Hlen.
  destruct (scan_drives (framebuffer w) (hw w) Hlen) as (new & m' & Hr & _).
  exists (set_hw m' (set_journal (CallDisplay :: journal w) w)). split.
  - unfold display, called, update, mbind, ST_bind, on_hw. world_simpl.
    now rewrite Hr.
  - world_simpl. repeat split.
Qed.

Lemma main_iteration_quiet frame w :
  0 <= frame -> Z.rem (frame + 1) 5 <> 0 ->
  length (framebuffer w) = 1024%nat ->
  exists w',
    main_iteration frame w = Some (frame + 1, w') /\
    framebuffer w' = framebuffer w /\
    counter w' = counter w /\
    entropy w' = entropy w /\
    journal w' = CallDisplay :: journal w.
Proof.
  intros Hf H5 Hlen.
  destruct (display_keeps w Hlen) as (w1 & Hr & Hfb & _ & Hc & He & _ & Hj).
  exists w1. split; [|now repeat split].
  unfold main_iteration. cbv zeta. rewrite (bind_run _ _ _ _ _ Hr).
  destruct (Z.eqb_spec (Z.rem (frame + 1) 5) 0) as [|_]; [contradiction|].
  destruct (Z.eqb_spec (Z.rem (frame + 1) 200) 0) as [H200|_]; [|reflexivity].
  exfalso. apply H5. rewrite Z.rem_mod_nonneg in * by lia.
  Z.div_mod_to_equations. lia.
Qed.

Lemma main_loop_quiet n : forall frame w,
  0 <= frame -> frame + Z.of_nat n < 5 ->
  length (framebuffer w) = 1024%nat ->
  exists w',
    main_loop n frame w = Some (frame + Z.of_nat n, w') /\
    framebuffer w' = framebuffer w /\
    counter w' = counter w /\
    entropy w' = entropy w /\
    count_calls is_display (journal w')
    = count_calls is_display (journal w) + Z.of_nat n /\
    count_calls is_randomize (journal w')
    = count_calls is_randomize (journal w).
Proof.
  induction n as [|n IH]; intros frame w Hf Hn Hlen.
  - exists w. rewrite !Z.add_0_r. now repeat split.
  - destruct (main_iteration_quiet frame w Hf) as (w1 & Hr1 & Hfb & Hc & He & Hj);
      [|exact Hlen|].
    { rewrite Z.rem_small by lia. lia. }
    destruct (IH (frame + 1) w1) as (w2 & Hr2 & Hfb2 & Hc2 & He2 & Hd & Hz);
      [lia | lia | congruence |].
    exists w2. split.
    + cbn [main_loop]. rewrite (bind_run _ _ _ _ _ Hr1), Hr2.
      do 2 f_equal. lia.
    + rewrite Hd, Hz, Hj. cbn [count_calls is_display is_randomize].
      repeat split; try congruence; lia.
Qed.

Lemma main_test_frames_quiet w :
  length (framebuffer w) = 1024%nat ->
  exists w',
    main_test_frames w = Some (tt, w') /\
    framebuffer w' = framebuffer w /\
    counter w' = counter w /\
    entropy w' = entropy w /\
    count_calls is_display (journal w')
    = count_calls is_display (journal w) + 500 /\
    count_calls is_randomize (journal w')
    = count_calls is_randomize (journal w).
Proof.
  intros Hlen.
  destruct (total_for
              (fun i w' =>
                 framebuffer w' = framebuffer w /\
                 counter w' = counter w /\
                 entropy w' = entropy w /\
                 count_calls is_display (journal w')
                 = count_calls is_display (journal w) + i /\
                 count_calls is_randomize (journal w')
                 = count_calls is_randomize (journal w))
              (fun _ => display) 500 0) with (s := w)
    as ([] & w' & Hr & Hw').
  - intros i _ w1 (Hfb & Hc & He & Hd & Hz).
    destruct (display_keeps w1) as (w2 & Hr2 & Hfb2 & _ & Hc2 & He2 & _ & Hj2);
      [congruence|].
    exists tt, w2. split; [exact Hr2|].
    rewrite Hj2. cbn [count_calls is_display is_randomize].
    repeat split; try congruence; lia.
  - repeat split; lia.
  - exists w'. split; [exact Hr | exact Hw'].
Qed.

Lemma main_iteration_track frame w :
  running w ->
  exists w',
    main_iteration frame w = Some (frame + 1, w') /\
    counter w'
    = (counter w + (if Z.rem (frame + 1) 5 =? 0 then 1 else 0)) mod 256 /\
    forall k,
      entropy w' k
      = entropy w
          ((if (Z.rem (frame + 1) 5 =? 0)%Z then 3072 else 0) + k)%nat.
Proof.
  intros ((Hlen & Hg & Hc & Hent) & _).
  destruct (display_keeps w Hlen)
    as (w1 & Hr1 & Hfb1 & Hg1 & Hc1 & He1 & _ & _).
  assert (H2 : exists w2,
             (if Z.rem (frame + 1) 5 =? 0
              then called CallRandomize randomizeFramebuffer
              else mret tt) w1 = Some (tt, w2) /\
             counter w2
             = (counter w + (if Z.rem (frame + 1) 5 =? 0 then 1 else 0))
                 mod 256 /\
             forall k,
               entropy w2 k
               = entropy w
                   ((if (Z.rem (frame + 1) 5 =? 0)%Z then 3072 else 0) + k)%nat).
  { destruct (Z.rem (frame + 1) 5 =? 0).
    - destruct (randomize_sampled_run
                  (set_journal (CallRandomize :: journal w1) w1))
        as (w2 & Hr2 & _ & _ & _ & Hc2 & _ & _ & He2 & _).
      { unfold started. world_simpl. rewrite Hfb1, Hg1, Hc1, He1.
        split; [exact Hlen|]. split; [exact Hg|].
        split; [exact Hc | exact Hent]. }
      world_simpl. exists w2. split; [exact Hr2|].
      rewrite Hc2, Hc1. split; [reflexivity|].
      intros k. rewrite He2, He1. reflexivity.
    - exists w1. split; [reflexivity|]. rewrite Hc1, He1, Z.add_0_r.
      split; [|reflexivity]. symmetry. apply Z.mod_small. exact Hc. }
  destruct H2 as (w2 & Hr2 & Hc2 & He2).
  assert (H3 : exists w3,
             (if Z.rem (frame + 1) 200 =? 0
              then wait_UartReady ;; update (set_UartReady false) ;;
                   HAL_UART_Transmit_IT uartAliveMsg 17
              else mret tt) w2 = Some (tt, w3) /\
             counter w3 = counter w2 /\ entropy w3 = entropy w2).
  { destruct (Z.rem (frame + 1) 200 =? 0).
    - eexists. split; [reflexivity|]. world_simpl. now split.
    - exists w2. now split. }
  destruct H3 as (w3 & Hr3 & Hc3 & He3).
  exists w3. split.
  - unfold main_iteration. cbv zeta.
    rewrite (bind_run _ _ _ _ _ Hr1), (bind_run _ _ _ _ _ Hr2),
      (bind_run _ _ _ _ _ Hr3).
    reflexivity.
  - rewrite Hc3, He3. split; [exact Hc2 | exact He2].
Qed.

Lemma main_loop_track n : forall frame w,
  0 <= frame ->
  running w ->
  exists w',
    main_loop n frame w = Some (frame + Z.of_nat n, w') /\
    counter w'
    = (counter w + ((frame + Z.of_nat n) / 5 - frame / 5)) mod 256 /\
    forall k,
      entropy w' k
      = entropy w
          (3072 * Z.to_nat ((frame + Z.of_nat n) / 5 - frame / 5) + k)%nat.
Proof.
  induction n as [|n IH]; intros frame w Hf Hw.
  - exists w. change (Z.of_nat 0) with 0.
    rewrite !Z.add_0_r, !Z.sub_diag, !Z.add_0_r.
    destruct Hw as ((_ & _ & Hc & _) & _).
    split; [reflexivity|]. split; [|reflexivity].
    symmetry. apply Z.mod_small. exact Hc.
  - destruct (main_iteration_track frame w Hw) as (w1 & Hr1 & Hc1 & He1).
    destruct (main_iteration_run frame w Hw) as (w1' & Hr1' & Hw1 & _).
    rewrite Hr1 in Hr1'. apply run_inj in Hr1'. subst w1'.
    destruct (IH (frame + 1) w1 ltac:(lia) Hw1) as (w2 & Hr2 & Hc2 & He2).
    exists w2. split.
    + cbn [main_loop]. rewrite (bind_run _ _ _ _ _ Hr1), Hr2.
      do 2 f_equal. lia.
    + replace (frame + Z.of_nat (S n)) with (frame + 1 + Z.of_nat n) by lia.
      pose proof (rem_step 5 frame ltac:(lia) Hf) as H5.
      assert (Hmono : (frame + 1) / 5 <= (frame + 1 + Z.of_nat n) / 5).
      { apply Z.div_le_mono; lia. }
      split.
      * rewrite Hc2, Hc1, Zplus_mod_idemp_l. f_equal. lia.
      * intros k. rewrite He2, He1. f_equal.
        destruct (Z.rem (frame + 1) 5 =? 0); lia.
Qed.

(** X21: the state [main] is in after [n] turns of its loop, for every
    [n] below 2^31 (while the [int] frame counter has not overflowed): it
    has shown 500 + n frames and called [randomizeFramebuffer] n/5 times,
    the counter is n/5 modulo 256, exactly 3072 * (n/5) values were taken
    from [rand()], the heartbeat went out n/200 times, the gamma table is
    the one built at start, the framebuffer still has 1024 pixels and the
    display is disabled. *)
Theorem main_state_after (rnd : nat -> Z) (n : nat) :
  (forall k, 0 <= rnd k) ->
  Z.of_nat n < 2 ^ 31 ->
  exists w,
    main_run n (boot rnd) = Some (Z.of_nat n, w) /\
    count_calls is_display (journal w) = 500 + Z.of_nat n /\
    count_calls is_randomize (journal w) = Z.of_nat n / 5 /\
    count_calls is_heartbeat (journal w) = Z.of_nat n / 200 /\
    counter w = (Z.of_nat n / 5) mod 256 /\
    (forall k, entropy w k = rnd (3072 * (n / 5) + k)%nat) /\
    gammaTable w = gamma_built /\
    length (framebuffer w) = 1024%nat /\
    display_enabled (pins (hw w)) = false.
Proof.
  intros Hrnd _.
  pose proof (initial_world_running rnd Hrnd) as Hrun0.
  destruct (initial_world_eq rnd) as (Hinit & Hw0).
  assert (Hj0 : journal (initial_world rnd)
                = [CallTransmit "RGB-matrix started" 18]).
  { now rewrite Hw0. }
  assert (Hc0 : counter (initial_world rnd) = 0) by now rewrite Hw0.
  assert (He0 : entropy (initial_world rnd) = rnd) by now rewrite Hw0.
  destruct (main_test_frames_run _ Hrun0)
    as (w1 & Hr1 & Hrun1 & Hd1 & Hz1 & Hh1).
  destruct (main_test_frames_quiet (initial_world rnd))
    as (w1' & Hr1' & _ & Hc1 & He1 & _).
  { apply Hrun0. }
  rewrite Hr1 in Hr1'. apply run_inj in Hr1'. subst w1'.
  destruct (main_loop_run n 0 w1 (Z.le_refl 0) Hrun1)
    as (w2 & Hr2 & Hrun2 & Hd2 & Hz2 & Hh2).
  destruct (main_loop_track n 0 w1 (Z.le_refl 0) Hrun1)
    as (w2' & Hr2' & Hc2 & He2).
  rewrite Hr2 in Hr2'. apply run_inj in Hr2'. subst w2'.
  clear Hw0.
  exists w2. split.
  { unfold main_run.
    rewrite (bind_run _ _ _ _ _ Hinit), (bind_run _ _ _ _ _ Hr1).
    exact Hr2. }
  clear Hinit Hr1 Hr2.
  change (0 / 5) with 0 in Hz2, Hc2, He2. change (0 / 200) with 0 in Hh2.
  rewrite Z.add_0_l, Z.sub_0_r in Hz2, Hh2, Hc2, He2.
  assert (Hn : Z.to_nat (Z.of_nat n / 5) = (n / 5)%nat).
  { change 5 with (Z.of_nat 5). rewrite <- Nat2Z.inj_div. apply Nat2Z.id. }
  rewrite Hn in He2.
  destruct Hrun2 as ((Hlen & Hg & _) & Hdark & _).
  rewrite Hd2, Hz2, Hh2, Hd1, Hz1, Hh1, Hj0, Hc2, Hc1, Hc0.
  change (count_calls is_display [CallTransmit "RGB-matrix started" 18])
    with 0.
  change (count_calls is_randomize [CallTransmit "RGB-matrix started" 18])
    with 0.
  change (count_calls is_heartbeat [CallTransmit "RGB-matrix started" 18])
    with 0.
  rewrite !Z.add_0_l.
  split; [lia|]. split; [reflexivity|]. split; [reflexivity|].
  split; [reflexivity|].
  split; [intros k; now rewrite He2, He1, He0|].
  split; [exact Hg|]. split; [exact Hlen | exact Hdark].
Qed.

Lemma main_state_after_witness :
  exists w,
    main_run 1234 (boot (fun _ => 7)) = Some (Z.of_nat 1234, w) /\
    count_calls is_display (journal w) = 500 + Z.of_nat 1234 /\
    count_calls is_randomize (journal w) = Z.of_nat 1234 / 5 /\
    count_calls is_heartbeat (journal w) = Z.of_nat 1234 / 200 /\
    counter w = (Z.of_nat 1234 / 5) mod 256 /\
    (forall k, entropy w k = (fun _ => 7) (3072 * (1234 / 5) + k)%nat) /\
    gammaTable w = gamma_built /\
    length (framebuffer w) = 1024%nat /\
    display_enabled (pins (hw w)) = false.
Proof.
  apply (main_state_after (fun _ => 7) 1234); [intros k; lia | reflexivity].
Defined.


(** X22: the test pattern stays in the framebuffer through the 500 test
    frames and the first four turns of the loop: until the fifth turn
    [main] has not called [randomizeFramebuffer], has taken nothing from
    [rand()] and has left the counter at 0, whatever [rand()] would
    return. *)
Theorem test_pattern_stays (rnd : nat -> Z) (n : nat) :
  (n < 5)%nat ->
  exists w,
    main_run n (boot rnd) = Some (Z.of_nat n, w) /\
    framebuffer w
    = <[1023%nat := 0x00505000]>
        (<[992%nat := 0x00500000]>
           (<[31%nat := 0x00005000]>
              (<[0%nat := 0x00000050]> (replicate 1024 0)))) /\
    entropy w = rnd /\
    counter w = 0 /\
    count_calls is_display (journal w) = 500 + Z.of_nat n /\
    count_calls is_randomize (journal w) = 0.
Proof.
  intros Hn.
  destruct (initial_world_eq rnd) as (Hinit & Hw0).
  assert (Hlen : length (framebuffer (initial_world rnd)) = 1024%nat).
  { now rewrite Hw0. }
  destruct (main_test_frames_quiet _ Hlen)
    as (w1 & Hr1 & Hfb1 & Hc1 & He1 & Hd1 & Hz1).
  destruct (main_loop_quiet n 0 w1) as (w2 & Hr2 & Hfb2 & Hc2 & He2 & Hd2 & Hz2);
    [lia | lia | congruence |].
  exists w2. split.
  - unfold main_run.
    rewrite (bind_run _ _ _ _ _ Hinit), (bind_run _ _ _ _ _ Hr1).
    exact Hr2.
  - rewrite Hfb2, Hfb1, He2, He1, Hc2, Hc1, Hd2, Hd1, Hz2, Hz1, Hw0.
    world_simpl. cbn [count_calls is_display is_randomize].
    repeat split; lia.
Qed.

Lemma test_pattern_stays_witness :
  exists w,
    main_run 4 (boot (fun _ => -1)) = Some (Z.of_nat 4, w) /\
    framebuffer w
    = <[1023%nat := 0x00505000]>
        (<[992%nat := 0x00500000]>
           (<[31%nat := 0x00005000]>
              (<[0%nat := 0x00000050]> (replicate 1024 0)))) /\
    entropy w = (fun _ => -1) /\
    counter w = 0 /\
    count_calls is_display (journal w) = 500 + Z.of_nat 4 /\
    count_calls is_randomize (journal w) = 0.
Proof. apply (test_pattern_stays (fun _ => -1) 4). lia. Defined.

(** ** The gamma table *)

(** X23: the table [main] builds has 256 entries; each is the integer
    part of 255 * (i/256)^(8/5), never above its index; the table is
    non-decreasing; and exactly its first nine entries (indices 0 to 8)
    are zero. *)
Theorem gamma_table_shape (rnd : nat -> Z) (i j : Z) :
  0 <= i -> i <= j -> j < 256 ->
  exists w,
    main_init (boot rnd) = Some (tt, w) /\
    length (gammaTable w) = 256%nat /\
    pixel (gammaTable w) i ^ 5 * 256 ^ 8 <= 255 ^ 5 * i ^ 8 /\
    255 ^ 5 * i ^ 8 < (pixel (gammaTable w) i + 1) ^ 5 * 256 ^ 8 /\
    0 <= pixel (gammaTable w) i <= i /\
    pixel (gammaTable w) i <= pixel (gammaTable w) j /\
    (pixel (gammaTable w) i = 0 <-> i <= 8).
Proof.
  intros Hi Hij Hj. exists (initial_world rnd).
  destruct (initial_world_eq rnd) as (Hrun & Hw).
  split; [exact Hrun|]. rewrite Hw. world_simpl. clear Hrun Hw.
  split; [apply gamma_built_length|].
  destruct (gamma_built_facts i) as (_ & Hb & _ & Hfit & Hup & _); [lia|].
  unfold gamma_fits in Hfit, Hup.
  apply Z.leb_le in Hfit. apply Z.leb_gt in Hup.
  split; [exact Hfit|]. split; [exact Hup|]. split; [exact Hb|].
  split; [apply gamma_built_monotone; lia|].
  assert (H8 : pixel gamma_built 8 = 0) by (vm_compute; reflexivity).
  assert (H9 : pixel gamma_built 9 = 1) by (vm_compute; reflexivity).
  split.
  - intros H0. destruct (Z.le_gt_cases i 8) as [|Hgt]; [assumption|].
    pose proof (gamma_built_monotone 9 i). lia.
  - intros H. pose proof (gamma_built_monotone i 8). lia.
Qed.

Lemma gamma_table_shape_witness :
  exists w,
    main_init (boot (fun _ => 0)) = Some (tt, w) /\
    length (gammaTable w) = 256%nat /\
    pixel (gammaTable w) 128 ^ 5 * 256 ^ 8 <= 255 ^ 5 * 128 ^ 8 /\
    255 ^ 5 * 128 ^ 8 < (pixel (gammaTable w) 128 + 1) ^ 5 * 256 ^ 8 /\
    0 <= pixel (gammaTable w) 128 <= 128 /\
    pixel (gammaTable w) 128 <= pixel (gammaTable w) 255 /\
    (pixel (gammaTable w) 128 = 0 <-> 128 <= 8).
Proof. apply (gamma_table_shape (fun _ => 0) 128 255); lia. Defined.
